(** * DOCX to LaTeX converter: a shallow embedding of [docx_to_latex.py]

    The development follows the layout of the Python module: the two pure
    text helpers first ([escape_latex], [normalize_whitespace]), then the
    element tree the converter walks, the converter's methods in a small
    state-and-error monad, and finally the properties of each component.

    Conventions.
    - A Python [str] is a Rocq [string]; a character is read as the code
      point of the same number, so the model covers the texts whose code
      points are below 256.
    - A Python [int] is a [Z].
    - A [dict] is a [gmap]; [d.get(k)] is [d !! k].
    - [self.list_stack] is a list whose HEAD is the top of the stack (the last
      element of the Python list); [rev] gives the bottom-to-top order. *)

From Stdlib Require Import ZArith String Ascii List Lia Bool.
From Stdlib Require Import DecimalString QArith.
From Stdlib Require Floats.SpecFloat.
From stdpp Require Import base option list gmap strings.
From Equations Require Import Equations.

Local Open Scope Z_scope.

(** ** Python string helpers *)

Module PyStr.

(** [str.isspace] on one character (also the class [\s] of [re] on [str]
    patterns), for code points below 256. *)
Definition is_space (c : ascii) : bool :=
  let n := N_of_ascii c in
  ((9 <=? n) && (n <=? 13) || (28 <=? n) && (n <=? 32)
   || (n =? 133) || (n =? 160))%N.

(** [str.lower] on one character, for code points below 256. *)
Definition lower_char (c : ascii) : ascii :=
  let n := N_of_ascii c in
  if ((65 <=? n) && (n <=? 90)
      || (192 <=? n) && (n <=? 222) && negb (n =? 215))%N
  then ascii_of_N (n + 32) else c.

Fixpoint lower (s : string) : string :=
  match s with
  | EmptyString => EmptyString
  | String c r => String (lower_char c) (lower r)
  end.

Fixpoint lstrip (s : string) : string :=
  match s with
  | EmptyString => EmptyString
  | String c r => if is_space c then lstrip r else s
  end.

Fixpoint rstrip (s : string) : string :=
  match s with
  | EmptyString => EmptyString
  | String c r =>
      match rstrip r with
      | EmptyString => if is_space c then EmptyString else String c EmptyString
      | r' => String c r'
      end
  end.

(** [s.strip()] *)
Definition strip (s : string) : string := rstrip (lstrip s).

(** [re.sub(r"\s+", " ", s)]: every maximal run of white space becomes one
    space.  [in_run] tells that the previous character was white space. *)
Fixpoint sub_spaces_from (in_run : bool) (s : string) : string :=
  match s with
  | EmptyString => EmptyString
  | String c r =>
      if is_space c
      then (if in_run then sub_spaces_from true r
            else String " " (sub_spaces_from true r))
      else String c (sub_spaces_from false r)
  end.

Definition sub_spaces (s : string) : string := sub_spaces_from false s.

(** ["".join(parts)] and [sep.join(parts)] *)
Definition concat (parts : list string) : string := String.concat "" parts.
Definition join (sep : string) (parts : list string) : string :=
  String.concat sep parts.

(** [s.endswith(suffix)] *)
Definition endswith (s suffix : string) : bool :=
  let n := String.length s in
  let k := String.length suffix in
  (k <=? n)%nat && String.eqb (substring (n - k) k s) suffix.

(** [s.startswith(p)] *)
Fixpoint startswith (s p : string) {struct p} : bool :=
  match p with
  | EmptyString => true
  | String a p' =>
      match s with
      | String b s' => Ascii.eqb a b && startswith s' p'
      | EmptyString => false
      end
  end.

(** [s.replace(a, b)] for one-character [a] and [b] *)
Fixpoint replace_char (a b : ascii) (s : string) : string :=
  match s with
  | EmptyString => EmptyString
  | String c r =>
      String (if Ascii.eqb c a then b else c) (replace_char a b r)
  end.

(** [str(n)] and the [{n}] of an f-string, for an [int] *)
Definition of_Z (n : Z) : string := NilZero.string_of_int (Z.to_int n).

(** truth value of a string: non-empty *)
Definition truthy (s : string) : bool := negb (String.eqb s "").

End PyStr.

(** ** Module-level constants and pure helpers *)

Definition W_NS := "http://schemas.openxmlformats.org/wordprocessingml/2006/main".
Definition M_NS := "http://schemas.openxmlformats.org/officeDocument/2006/math".
Definition R_NS := "http://schemas.openxmlformats.org/officeDocument/2006/relationships".
Definition A_NS := "http://schemas.openxmlformats.org/drawingml/2006/main".
Definition WP_NS := "http://schemas.openxmlformats.org/drawingml/2006/wordprocessingDrawing".
Definition PIC_NS := "http://schemas.openxmlformats.org/drawingml/2006/picture".
Definition REL_NS := "http://schemas.openxmlformats.org/package/2006/relationships".

Definition EMU_PER_INCH : Z := 914400.

(** The [replacements] dictionary of [escape_latex]. *)
Definition replacements : gmap ascii string :=
  list_to_map
    [ ("\"%char, "\textbackslash{}");
      ("&"%char, "\&");
      ("%"%char, "\%");
      ("$"%char, "\$");
      ("#"%char, "\#");
      ("_"%char, "\_");
      ("{"%char, "\{");
      ("}"%char, "\}");
      ("~"%char, "\textasciitilde{}");
      ("^"%char, "\textasciicircum{}") ].

(** [replacements.get(ch, ch)] *)
Definition escape_char (ch : ascii) : string :=
  default (String ch EmptyString) (replacements !! ch).

Fixpoint escape_latex (text : string) : string :=
  match text with
  | EmptyString => EmptyString
  | String ch rest => escape_char ch +:+ escape_latex rest
  end.

Definition normalize_whitespace (text : string) : string :=
  PyStr.strip (PyStr.sub_spaces text).

(** ** Python floats: [int / int] and the [.2f] format

    Binary64 values are [spec_float]s of the Standard Library.  [a / b] on
    integers is the correctly rounded quotient (CPython's [long_true_divide]),
    and raises [OverflowError] when the quotient is too large for a float. *)

Inductive Exn := OverflowError | ZeroDivisionError.

Inductive result (A : Type) :=
| Ok (a : A)
| Raise (e : Exn).
Arguments Ok {A} a.
Arguments Raise {A} e.

Module PyFloat.
Import SpecFloat.

Definition prec : Z := 53.
Definition emax : Z := 1024.

Definition of_int_exact (a : Z) (szero : bool) : spec_float :=
  match a with
  | Z0 => S754_zero szero
  | Zpos m => S754_finite false m 0
  | Zneg m => S754_finite true m 0
  end.

Definition int_true_div (a b : Z) : result spec_float :=
  if b =? 0 then Raise ZeroDivisionError
  else
    match SFdiv prec emax (of_int_exact a false) (of_int_exact b false) with
    | S754_infinity _ => Raise OverflowError
    | x => Ok x
    end.

(** nearest integer to [num / den], ties to even; [0 <= num], [0 < den] *)
Definition round_half_even (num den : Z) : Z :=
  let q := num / den in
  let r := num mod den in
  match 2 * r ?= den with
  | Lt => q
  | Gt => q + 1
  | Eq => if Z.even q then q else q + 1
  end.

Definition sign_str (s : bool) : string := if s then "-" else "".

Definition two_digits (k : Z) : string :=
  PyStr.of_Z (k / 10) +:+ PyStr.of_Z (k mod 10).

(** [f"{x:.2f}"] *)
Definition format_2f (x : spec_float) : string :=
  match x with
  | S754_zero s => sign_str s +:+ "0.00"
  | S754_infinity s => sign_str s +:+ "inf"
  | S754_nan => "nan"
  | S754_finite s m e =>
      let n := if 0 <=? e then 100 * Zpos m * 2 ^ e
               else round_half_even (100 * Zpos m) (2 ^ (- e)) in
      sign_str s +:+ PyStr.of_Z (n / 100) +:+ "." +:+ two_digits (n mod 100)
  end.
End PyFloat.

(** ** The element tree ([xml.etree.ElementTree.Element]) *)

#[local] Set Warnings "-register-all".

Inductive Element := mkElement {
  tag : string;
  attrib : gmap string string;
  text : option string;
  children : list Element
}.

Module ET.

(** [NS]: the prefix table handed to [find]/[findall] and used by [_q] *)
Definition NS : gmap string string :=
  list_to_map
    [ ("w", W_NS); ("m", M_NS); ("r", R_NS); ("a", A_NS);
      ("wp", WP_NS); ("pic", PIC_NS); ("rel", REL_NS) ].

(** [e.findall("p:name", NS)]: the direct children with that tag *)
Definition findall (e : Element) (t : string) : list Element :=
  List.filter (fun c => String.eqb (tag c) t) (children e).

(** [e.find("p:name", NS)] *)
Definition find (e : Element) (t : string) : option Element :=
  head (findall e t).

(** [e.iter()]: the element and its descendants in document order *)
Fixpoint iter (e : Element) : list Element :=
  match e with
  | mkElement _ _ _ cs => e :: flat_map iter cs
  end.

(** [e.findall(".//p:name", NS)]: the proper descendants with that tag *)
Definition findall_desc (e : Element) (t : string) : list Element :=
  List.filter (fun c => String.eqb (tag c) t) (flat_map iter (children e)).

(** [e.find(".//p:name", NS)] *)
Definition find_desc (e : Element) (t : string) : option Element :=
  head (findall_desc e t).

(** [e.attrib.get(k)] and [e.attrib.get(k, d)] *)
Definition get (e : Element) (k : string) : option string := attrib e !! k.
Definition get_or (e : Element) (k d : string) : string :=
  default d (attrib e !! k).

End ET.

(** [self._q("p:name")], also the tag [find] resolves ["p:name"] to, and
    [f"{{{NS}}}name"] for attribute keys *)
Definition _q (prefix local : string) : string :=
  "{" +:+ default "" (ET.NS !! prefix) +:+ "}" +:+ local.

(** ** The converter object *)

Record ListState := mkListState {
  level : Z;
  env : string;
  num_id : string
}.

(** The fields of [self] that are fixed once [__init__] has run.
    [zip_files] maps a member name to its bytes; [media_rel] is the media
    directory relative to the output directory (["<stem>_media"]). *)
Record Converter := mkConverter {
  relationships : gmap string (string * string);
  num_formats : gmap string (gmap Z string);
  zip_files : gmap string string;
  media_rel : string
}.

(** What a run changes: [self.list_stack] (head = top) and the files present
    in the media directory (name to bytes). *)
Record State := mkState {
  list_stack : list ListState;
  media_files : gmap string string
}.

(** Computations of the converter: they read and update the [State], and end
    either with a value or with an uncaught exception. *)
Definition M (A : Type) : Type := State -> result (A * State).

#[global] Instance M_ret : MRet M := fun A a st => Ok (a, st).
#[global] Instance M_bind : MBind M := fun A B k c st =>
  match c st with
  | Ok (a, st') => k a st'
  | Raise e => Raise e
  end.

Definition raise {A} (e : Exn) : M A := fun _ => Raise e.
Definition lift_result {A} (r : result A) : M A := fun st =>
  match r with Ok a => Ok (a, st) | Raise e => Raise e end.

(** [for x in l: body], threading the local variables [acc] *)
Fixpoint for_ {A S : Type} (body : A -> S -> M S) (l : list A) (acc : S) : M S :=
  match l with
  | [] => mret acc
  | x :: r => acc' ← body x acc; for_ body r acc'
  end.

(** ** The list state machine on a bare stack

    [_close_all_lists] and [_sync_list_stack] only touch [self.list_stack];
    they are first written as functions from a stack to the emitted lines and
    the new stack, and lifted to [M] below. *)

Definition begin_line (e : string) : string := "\begin{" +:+ e +:+ "}".
Definition end_line (state : ListState) : string := "\end{" +:+ env state +:+ "}".

Module Stack.

(** [while self.list_stack: state = pop(); lines.append(end)] *)
Fixpoint close_all (stack : list ListState) (lines : list string)
  : list string * list ListState :=
  match stack with
  | [] => (lines, [])
  | state :: rest => close_all rest (lines ++ [end_line state])
  end.

(** [while stack and stack[-1].level > target.level: pop, emit end] *)
Fixpoint close_deeper (target : ListState) (stack : list ListState)
    (lines : list string) : list string * list ListState :=
  match stack with
  | [] => (lines, [])
  | top :: rest =>
      if level top >? level target
      then close_deeper target rest (lines ++ [end_line top])
      else (lines, stack)
  end.

Definition differs (a b : ListState) : bool :=
  negb (String.eqb (env a) (env b)) || negb (String.eqb (num_id a) (num_id b)).

(** the [if] at "same level but different environment" *)
Definition close_same_level (target : ListState) (stack : list ListState)
    (lines : list string) : list string * list ListState :=
  match stack with
  | current :: rest =>
      if (level current =? level target) && differs current target
      then (lines ++ [end_line current], rest)
      else (lines, stack)
  | [] => (lines, stack)
  end.

(** the guard of the opening loop:
    [not stack or stack[-1].level < target.level] *)
Definition must_open (target : ListState) (stack : list ListState) : bool :=
  match stack with
  | [] => true
  | top :: _ => level top <? level target
  end.

Definition open_measure (target : ListState) (stack : list ListState) : nat :=
  if must_open target stack
  then S (Z.to_nat (level target - Z.of_nat (length stack)))
  else O.

Definition pushed (target : ListState) (stack : list ListState) : list ListState :=
  {| level := Z.of_nat (length stack); env := env target; num_id := num_id target |}
    :: stack.

End Stack.

(** a value together with the equation that names it, so that the loop guard
    is available to the termination argument *)
Definition with_eq {A : Type} (a : A) : { b : A | a = b } := exist _ a eq_refl.

(** [while not stack or stack[-1].level < target.level:
       push ListState(level=len(stack), env=target.env, num_id=target.num_id);
       emit begin]
    The loop ends because every pushed entry carries the depth as its level. *)
Equations open_levels (target : ListState) (stack : list ListState)
    (lines : list string) : list string * list ListState
  by wf (Stack.open_measure target stack) lt :=
  open_levels target stack lines with with_eq (Stack.must_open target stack) := {
    | exist _ true Hopen =>
        open_levels target (Stack.pushed target stack)
          (lines ++ [begin_line (env target)]);
    | exist _ false _ => (lines, stack) }.
Next Obligation.
  unfold Stack.open_measure. rewrite Hopen.
  unfold Stack.pushed, Stack.must_open; cbn [level length].
  destruct (Z.ltb_spec (Z.of_nat (length stack)) (level target)); lia.
Qed.

(** the trailing [if]/[elif]/[elif] of [_sync_list_stack] *)
Definition sync_tail (target : ListState) (stack : list ListState)
    (lines : list string) : list string * list ListState :=
  match stack with
  | [] =>
      (lines ++ [begin_line (env target)],
       [ {| level := level target; env := env target; num_id := num_id target |} ])
  | top :: rest =>
      if level top <? level target
      then (lines ++ [begin_line (env target)],
            {| level := level target; env := env target; num_id := num_id target |}
              :: stack)
      else if (level top =? level target) && Stack.differs top target
      then ((lines ++ [end_line top]) ++ [begin_line (env target)], target :: rest)
      else (lines, stack)
  end.

(** [_close_all_lists] on a bare stack *)
Definition close_all_lists (stack : list ListState) : list string * list ListState :=
  Stack.close_all stack [].

(** [_sync_list_stack] on a bare stack *)
Definition sync_list_stack (target : option ListState) (stack : list ListState)
  : list string * list ListState :=
  match target with
  | None => close_all_lists stack
  | Some target =>
      let '(lines, stack) := Stack.close_deeper target stack [] in
      let '(lines, stack) := Stack.close_same_level target stack lines in
      let '(lines, stack) := open_levels target stack lines in
      sync_tail target stack lines
  end.

(** ** Two library functions the converter calls

    [int(s)] and [Path(s).name] are parameters of the methods below.  The
    two functions here are the instances used to run the model on concrete
    documents: decimal literals as [int] reads them (white space around, an
    optional sign, digits with single underscores between them), and the last
    component of a slash-separated path.  They are used on short decimal
    literals and on plain member paths only: [parse] has no limit on the
    number of digits and trims the separators U+001C to U+001F with the
    white space, and [name] does not drop a final ["."] component, where
    [int] and [pathlib] differ.  The general properties are stated for any
    [py_int] and [path_name]; the examples run these instances. *)

Module PyInt.

Definition digit_of (c : ascii) : option Z :=
  let n := N_of_ascii c in
  if ((48 <=? n) && (n <=? 57))%N then Some (Z.of_N (n - 48)) else None.

Fixpoint digits (acc : Z) (after_digit : bool) (s : string) : option Z :=
  match s with
  | EmptyString => if after_digit then Some acc else None
  | String c r =>
      match digit_of c with
      | Some d => digits (10 * acc + d) true r
      | None =>
          if Ascii.eqb c "_" && after_digit then digits acc false r else None
      end
  end.

Definition parse (s : string) : option Z :=
  match PyStr.strip s with
  | String "-" r => Z.opp <$> digits 0 false r
  | String "+" r => digits 0 false r
  | r => digits 0 false r
  end.

End PyInt.

Module PyPath.

(** the text after the last ["/"] *)
Fixpoint last_component (cur : string) (s : string) : string :=
  match s with
  | EmptyString => cur
  | String c r =>
      if Ascii.eqb c "/" then last_component (if r is EmptyString then cur else "") r
      else last_component (cur +:+ String c EmptyString) r
  end.

Definition name (s : string) : string := last_component "" s.

End PyPath.

(** ** The methods of [DocxToLatexConverter] *)

Section Methods.

(** [int(s)] on a string: [None] stands for [ValueError]. *)
Variable py_int : string -> option Z.
(** [Path(s).name] *)
Variable path_name : string -> string.

Variable self : Converter.

(** run a bare-stack function on [self.list_stack] *)
Definition on_stack (f : list ListState -> list string * list ListState)
  : M (list string) := fun st =>
  let '(lines, stack) := f (list_stack st) in
  Ok (lines, {| list_stack := stack; media_files := media_files st |}).

Definition _close_all_lists : M (list string) := on_stack close_all_lists.

Definition _sync_list_stack (target : option ListState) : M (list string) :=
  on_stack (sync_list_stack target).

(** [f"\\{wrapper}{{{escaped}}}"] *)
Definition wrap (wrapper escaped : string) : string :=
  "\" +:+ wrapper +:+ "{" +:+ escaped +:+ "}".

Definition _format_run_text (text_node run : Element) : string :=
  let raw_text := default "" (text text_node) in
  let escaped := escape_latex raw_text in
  match ET.find run (_q "w" "rPr") with
  | None => escaped
  | Some rpr =>
      let wrappers : list string := [] in
      let wrappers :=
        if ET.find rpr (_q "w" "b") is Some _ then wrappers ++ ["textbf"]
        else wrappers in
      let wrappers :=
        if ET.find rpr (_q "w" "i") is Some _ then wrappers ++ ["emph"]
        else wrappers in
      let wrappers :=
        match ET.find rpr (_q "w" "u") with
        | Some underline =>
            if negb (String.eqb (PyStr.lower (ET.get_or underline (_q "w" "val") "")) "none")
            then wrappers ++ ["underline"] else wrappers
        | None => wrappers
        end in
      let escaped :=
        match ET.find rpr (_q "w" "vertAlign") with
        | Some vert_align =>
            match ET.get vert_align (_q "w" "val") with
            | Some align =>
                if String.eqb align "superscript"
                then "\textsuperscript{" +:+ escaped +:+ "}"
                else if String.eqb align "subscript"
                then "\textsubscript{" +:+ escaped +:+ "}"
                else escaped
            | None => escaped
            end
        | None => escaped
        end in
      fold_left (fun escaped wrapper => wrap wrapper escaped) wrappers escaped
  end.

Definition _convert_math (element : Element) : string :=
  let parts :=
    omap (fun node => match text node with
                      | Some t => if PyStr.truthy t then Some t else None
                      | None => None
                      end)
         (ET.findall_desc element (_q "m" "t")) in
  match parts with
  | [] => ""
  | _ => "$" +:+ PyStr.join " " parts +:+ "$"
  end.

(** [tex_path(self.media_dir / name, self.output_dir)] *)
Definition media_tex_path (name : string) : string :=
  if PyStr.truthy name then media_rel self +:+ "/" +:+ name else media_rel self.

(** the [width_option] part of [_convert_drawing] *)
Definition width_option (container : Element) : result string :=
  let width_option := "width=0.7\linewidth" in
  match ET.find container (_q "wp" "extent") with
  | Some extent =>
      match ET.get extent "cx" with
      | Some cx =>
          if PyStr.truthy cx then
            match py_int cx with
            | Some n =>
                match PyFloat.int_true_div n EMU_PER_INCH with
                | Ok width_in => Ok ("width=" +:+ PyFloat.format_2f width_in +:+ "in")
                | Raise e => Raise e
                end
            | None => Ok width_option
            end
          else Ok width_option
      | None => Ok width_option
      end
  | None => Ok width_option
  end.

(** [doc_pr.attrib.get("descr") or doc_pr.attrib.get("title")] *)
Definition caption_of (container : Element) : option string :=
  match ET.find container (_q "wp" "docPr") with
  | Some doc_pr =>
      match ET.get doc_pr "descr" with
      | Some d => if PyStr.truthy d then Some d else ET.get doc_pr "title"
      | None => ET.get doc_pr "title"
      end
  | None => None
  end.

(** [if not dest_path.exists(): dest_path.write_bytes(data)].  The media
    directory is there when the body is walked ([convert] creates it first),
    and a write that the file system refuses is not modelled: no property
    below is about the exceptions of a write. *)
Definition write_if_absent (name data : string) : M unit := fun st =>
  Ok (tt, {| list_stack := list_stack st;
             media_files :=
               if PyStr.truthy name then
                 match media_files st !! name with
                 | Some _ => media_files st
                 | None => <[name := data]> (media_files st)
                 end
               else media_files st (* the media directory itself *) |}).

(** [container]: the inline container, or the anchor when there is no
    inline one *)
Definition drawing_container (drawing : Element) : option Element :=
  let inline := ET.find_desc drawing (_q "wp" "inline") in
  let anchor := if inline is None then ET.find_desc drawing (_q "wp" "anchor") else None in
  if inline is Some _ then inline else anchor.

Definition _convert_drawing (drawing : Element) : M (option (list string)) :=
  match drawing_container drawing with
  | None => mret None
  | Some container =>
  match ET.find_desc container (_q "a" "blip") with
  | None => mret None
  | Some blip =>
  match ET.get blip (_q "r" "embed") with
  | None => mret None
  | Some embed_id =>
  if negb (PyStr.truthy embed_id) then mret None else
  match relationships self !! embed_id with
  | None => mret None
  | Some (rel_type, target) =>
  if negb (PyStr.endswith rel_type "/image") then mret None else
  let sanitized_target := PyStr.replace_char "\" "/" target in
  let zip_member := "word/" +:+ sanitized_target in
  match zip_files self !! zip_member with
  | None => mret None
  | Some data =>
      let name := path_name target in
      _ ← write_if_absent name data;
      width_option ← lift_result (width_option container);
      let latex_lines :=
        [ "\begin{figure}[h]";
          "\centering";
          "\includegraphics[" +:+ width_option +:+ "]{"
            +:+ escape_latex (media_tex_path name) +:+ "}" ] in
      let latex_lines :=
        match caption_of container with
        | Some caption =>
            if PyStr.truthy caption
            then latex_lines ++
                   ["\caption{" +:+ escape_latex (normalize_whitespace caption) +:+ "}"]
            else latex_lines
        | None => latex_lines
        end in
      mret (Some (latex_lines ++ ["\end{figure}"]))
  end end end end end.

(** the body of the loop of [_convert_run]; the local variables are
    [(texts, blocks)] *)
Definition convert_run_child (run child : Element)
    (acc : list string * list string) : M (list string * list string) :=
  let '(texts, blocks) := acc in
  if String.eqb (tag child) (_q "w" "t")
  then mret (texts ++ [_format_run_text child run], blocks)
  else if String.eqb (tag child) (_q "w" "tab")
  then mret (texts ++ ["\hspace*{1em}"], blocks)
  else if String.eqb (tag child) (_q "w" "br")
  then mret (texts ++ ["\\"], blocks)
  else if String.eqb (tag child) (_q "w" "drawing")
  then
    figure_block ← _convert_drawing child;
    match figure_block with
    | Some (l :: ls) => mret (texts, blocks ++ l :: ls)
    | _ => mret (texts, blocks)
    end
  else if String.eqb (tag child) (_q "w" "pict")
  then mret (texts, blocks ++ ["% Picture element omitted (unsupported)"])
  else if String.eqb (tag child) (_q "m" "oMath")
          || String.eqb (tag child) (_q "m" "oMathPara")
  then
    let math_text := _convert_math child in
    if PyStr.truthy math_text then mret (texts ++ [math_text], blocks)
    else mret (texts, blocks)
  else mret (texts, blocks).

Definition _convert_run (run : Element) : M (string * list string) :=
  '(texts, blocks) ← for_ (convert_run_child run) (children run) ([], []);
  mret (PyStr.concat texts, blocks).

(** the loop of [_convert_hyperlink] over the contained runs; the local
    variables are [(inner_text_parts, blocks)] *)
Definition hyperlink_runs (hyperlink : Element) : M (list string * list string) :=
  for_ (fun run '(inner_text_parts, blocks) =>
          '(text, new_blocks) ← _convert_run run;
          mret (inner_text_parts ++ [text], blocks ++ new_blocks))
       (ET.findall hyperlink (_q "w" "r")) ([], []).

Definition _convert_hyperlink (hyperlink : Element) : M (string * list string) :=
  let rel_id := ET.get hyperlink (_q "r" "id") in
  '(inner_text_parts, blocks) ← hyperlink_runs hyperlink;
  let text_value := PyStr.concat inner_text_parts in
  match rel_id with
  | Some rel_id =>
      if PyStr.truthy rel_id then
        match relationships self !! rel_id with
        | Some (_, target) =>
            let href := escape_latex target in
            if PyStr.truthy text_value
            then mret ("\href{" +:+ href +:+ "}{" +:+ text_value +:+ "}", blocks)
            else mret (text_value, blocks)
        | None => mret (text_value, blocks)
        end
      else mret (text_value, blocks)
  | None => mret (text_value, blocks)
  end.

(** the body of the loop of [_collect_runs]; the local variables are
    [(fragments, blocks)] *)
Definition collect_runs_child (child : Element)
    (acc : list string * list string) : M (list string * list string) :=
  let '(fragments, blocks) := acc in
  if String.eqb (tag child) (_q "w" "r")
  then
    '(text, block) ← _convert_run child;
    mret (fragments ++ [text], blocks ++ block)
  else if String.eqb (tag child) (_q "w" "hyperlink")
  then
    '(text, block) ← _convert_hyperlink child;
    mret (fragments ++ [text], blocks ++ block)
  else if String.eqb (tag child) (_q "w" "fldSimple")
  then
    '(text_parts, blocks) ←
      for_ (fun run '(text_parts, blocks) =>
              '(text, block) ← _convert_run run;
              mret (text_parts ++ [text], blocks ++ block))
           (ET.findall child (_q "w" "r")) ([], blocks);
    mret (fragments ++ [PyStr.concat text_parts], blocks)
  else if String.eqb (tag child) (_q "m" "oMath")
          || String.eqb (tag child) (_q "m" "oMathPara")
  then mret (fragments ++ [_convert_math child], blocks)
  else mret (fragments, blocks).

Definition _collect_runs (paragraph : Element) : M (string * list string) :=
  '(fragments, blocks) ← for_ collect_runs_child (children paragraph) ([], []);
  mret (PyStr.concat fragments, blocks).

Definition _paragraph_style (paragraph : Element) : option string :=
  match ET.find paragraph (_q "w" "pPr") with
  | None => None
  | Some ppr =>
      match ET.find ppr (_q "w" "pStyle") with
      | None => None
      | Some style => ET.get style (_q "w" "val")
      end
  end.

Definition _extract_list_info (paragraph : Element) : option ListState :=
  match ET.find paragraph (_q "w" "pPr") with
  | None => None
  | Some ppr =>
  match ET.find ppr (_q "w" "numPr") with
  | None => None
  | Some num_pr =>
  match ET.find num_pr (_q "w" "numId") with
  | None => None
  | Some num_id_elem =>
  match ET.get num_id_elem (_q "w" "val") with
  | None => None
  | Some num_id =>
  if negb (PyStr.truthy num_id) then None else
  let level :=
    match ET.find num_pr (_q "w" "ilvl") with
    | Some ilvl_elem =>
        match py_int (ET.get_or ilvl_elem (_q "w" "val") "0") with
        | Some n => n
        | None => 0
        end
    | None => 0
    end in
  let fmt := default "bullet" (default ∅ (num_formats self !! num_id) !! level) in
  let env := if String.eqb fmt "bullet" then "itemize" else "enumerate" in
  Some {| level := level; env := env; num_id := num_id |}
  end end end end.

(** the part of [_convert_paragraph] under "Not inside a list" *)
Definition plain_paragraph_lines (in_table : bool) (style : option string)
    (text_content : string) (block_fragments lines : list string) : list string :=
  let has_text := PyStr.truthy text_content in
  let styled (name : string) : bool :=
    match style with Some s => String.eqb s name | None => false end in
  let lines :=
    if styled "Heading1" && has_text
    then lines ++ ["\section{" +:+ text_content +:+ "}"]
    else if styled "Heading2" && has_text
    then lines ++ ["\subsection{" +:+ text_content +:+ "}"]
    else if styled "Heading3" && has_text
    then lines ++ ["\subsubsection{" +:+ text_content +:+ "}"]
    else if styled "Title" && has_text
    then (lines ++ ["\title{" +:+ text_content +:+ "}"]) ++ ["\maketitle"]
    else if has_text
    then lines ++ [text_content]
    else lines in
  let lines := lines ++ block_fragments in
  match last lines with
  | None => lines
  | Some l =>
      if negb (PyStr.truthy l) then lines
      else if negb in_table then lines ++ [""] else lines
  end.

Definition _convert_paragraph (paragraph : Element)
    (in_table suppress_list : bool) : M (list string) :=
  let list_info := if suppress_list then None else _extract_list_info paragraph in
  lines ← (if negb in_table then _sync_list_stack list_info else mret []);
  '(text_content, block_fragments) ← _collect_runs paragraph;
  let text_content := normalize_whitespace text_content in
  let style := _paragraph_style paragraph in
  match list_info with
  | Some _ =>
      (* [not suppress_list] holds here: [list_info] is [None] otherwise *)
      if negb (PyStr.truthy text_content) && (if block_fragments is [] then true else false)
      then mret lines
      else
        let item_line := "\item" in
        let item_line :=
          if PyStr.truthy text_content then item_line +:+ " " +:+ text_content
          else item_line in
        mret ((lines ++ [item_line]) ++ block_fragments)
  | None =>
      mret (plain_paragraph_lines in_table style text_content block_fragments lines)
  end.

(** the body of the loop of [_convert_table_cell] over the cell's
    paragraphs; the local variable is [parts] *)
Definition table_cell_paragraph (paragraph : Element) (parts : list string)
  : M (list string) :=
  '(text, blocks) ← _collect_runs paragraph;
  let content := PyStr.strip text in
  let parts := if PyStr.truthy content then parts ++ [content] else parts in
  mret (parts ++ blocks).

Definition _convert_table_cell (cell : Element) : M string :=
  parts ← for_ table_cell_paragraph (ET.findall cell (_q "w" "p")) [];
  mret (PyStr.join " \\ " (List.filter PyStr.truthy parts)).

(** the span of one cell, as the inner loop of [_convert_table] reads it *)
Definition cell_span (tc : Element) : Z :=
  match ET.find tc (_q "w" "tcPr") with
  | Some cell_pr =>
      match ET.find cell_pr (_q "w" "gridSpan") with
      | Some grid_span =>
          match py_int (ET.get_or grid_span (_q "w" "val") "1") with
          | Some n => n
          | None => 1
          end
      | None => 1
      end
  | None => 1
  end.

(** [sum(span for _, span in row_cells) or 1] *)
Definition span_total (row_cells : list (string * Z)) : Z :=
  let total := foldr Z.add 0 (map snd row_cells) in
  if total =? 0 then 1 else total.

(** the first loop of [_convert_table]; the local variables are
    [(rows_data, max_cols)] *)
Definition table_scan_row (tr : Element) (acc : list (list (string * Z)) * Z)
  : M (list (list (string * Z)) * Z) :=
  let '(rows_data, max_cols) := acc in
  row_cells ←
    for_ (fun tc row_cells =>
            let span := cell_span tc in
            cell_text ← _convert_table_cell tc;
            mret (row_cells ++ [(cell_text, span)]))
         (ET.findall tr (_q "w" "tc")) [];
  mret (rows_data ++ [row_cells], Z.max max_cols (span_total row_cells)).

(** [\dimexpr\linewidth/{max_cols}-2\tabcolsep\relax], the width every
    column is given *)
Definition column_width (max_cols : Z) : string :=
  "\dimexpr\linewidth/" +:+ PyStr.of_Z max_cols +:+ "-2\tabcolsep\relax".

Definition column_spec (max_cols : Z) : string :=
  "|" +:+ PyStr.join "|"
            (replicate (Z.to_nat max_cols) ("p{" +:+ column_width max_cols +:+ "}"))
      +:+ "|".

(** one cell of a row, the body of the inner rendering loop *)
Definition render_cell (max_cols : Z) (cell : string * Z) : string :=
  let '(text, span) := cell in
  let cell_content := if PyStr.truthy text then text else "\quad{}" in
  if span >? 1
  then "\multicolumn{" +:+ PyStr.of_Z span +:+ "}{|p{" +:+ column_width max_cols
         +:+ "}|}{" +:+ cell_content +:+ "}"
  else cell_content.

(** the two lines a row contributes *)
Definition render_row (max_cols : Z) (row : list (string * Z)) : list string :=
  [ PyStr.join " & " (map (render_cell max_cols) row) +:+ " \\"; "\hline" ].

(** [_convert_table] once [rows_data] and [max_cols] are known *)
Definition render_table (rows_data : list (list (string * Z))) (max_cols : Z)
  : list string :=
  let max_cols := if max_cols =? 0 then 1 else max_cols in
  let table_lines :=
    [ "\begin{longtable}{" +:+ column_spec max_cols +:+ "}"; "\hline" ] in
  let table_lines := table_lines ++ concat (map (render_row max_cols) rows_data) in
  table_lines ++ ["\end{longtable}"].

Definition _convert_table (table : Element) : M (list string) :=
  '(rows_data, max_cols) ←
    for_ table_scan_row (ET.findall table (_q "w" "tr")) ([], 0);
  mret (render_table rows_data max_cols).

Definition _convert_block (element : Element) : M (list string) :=
  if String.eqb (tag element) (_q "w" "p")
  then _convert_paragraph element false false
  else if String.eqb (tag element) (_q "w" "tbl")
  then
    lines ← _close_all_lists;
    table_lines ← _convert_table element;
    mret ((lines ++ table_lines) ++ [""])
  else if String.eqb (tag element) (_q "w" "sectPr")
  then _close_all_lists
  else
    (* Unsupported block-level element; skip but ensure lists closed. *)
    mret [].

(** the part of [convert] that walks the body: the loop over the children,
    the final [_close_all_lists] and the closing line *)
Definition convert_body (body : Element) : M (list string) :=
  latex_lines ←
    for_ (fun child latex_lines =>
            block ← _convert_block child;
            mret (latex_lines ++ block))
         (children body) [];
  closing ← _close_all_lists;
  mret ((latex_lines ++ closing) ++ ["\end{document}"]).

End Methods.

(** ** Sample documents

    Small element trees, a converter and an initial state, used to run the
    model. *)

Module Sample.

Definition elem (t : string) (attrs : list (string * string))
    (cs : list Element) : Element :=
  {| tag := t; attrib := list_to_map attrs; text := None; children := cs |}.

Definition w (local : string) := _q "w" local.

(** [<w:t>s</w:t>] *)
Definition t (s : string) : Element :=
  {| tag := w "t"; attrib := ∅; text := Some s; children := [] |}.

(** a run with the given style properties and one text node *)
Definition run (props : list Element) (s : string) : Element :=
  elem (w "r") [] (match props with
                   | [] => [t s]
                   | _ => [elem (w "rPr") [] props; t s]
                   end).

Definition val (v : string) : list (string * string) := [(w "val", v)].

(** a plain paragraph *)
Definition p (runs : list Element) : Element := elem (w "p") [] runs.

(** the numbering properties of a list paragraph: numbering [id], level
    [lvl] *)
Definition ilvl (lvl : string) : Element := elem (w "ilvl") (val lvl) [].
Definition numId (id : string) : Element := elem (w "numId") (val id) [].
Definition numPr (id lvl : string) : Element :=
  elem (w "numPr") [] [ilvl lvl; numId id].
Definition pPr (id lvl : string) : Element := elem (w "pPr") [] [numPr id lvl].

(** a list paragraph with numbering [id] at level [lvl] *)
Definition li (id lvl : string) (runs : list Element) : Element :=
  elem (w "p") [] (pPr id lvl :: runs).

(** a table cell spanning [span] grid columns *)
Definition gridSpan (span : string) : Element := elem (w "gridSpan") (val span) [].
Definition tcPr (span : string) : Element := elem (w "tcPr") [] [gridSpan span].
Definition tc (span : string) (paragraphs : list Element) : Element :=
  elem (w "tc") [] (tcPr span :: paragraphs).

(** a hyperlink with relationship [rid] around one run *)
Definition link (rid text : string) : Element :=
  elem (w "hyperlink") [(_q "r" "id", rid)] [run [] text].

Definition tr (cells : list Element) : Element := elem (w "tr") [] cells.
Definition tbl (rows : list Element) : Element := elem (w "tbl") [] rows.

(** an inline drawing container with an image reference [rid] and, when
    [cx] is given, an extent *)
Definition extent (cx : string) : Element :=
  elem (_q "wp" "extent") [("cx", cx); ("cy", "100")] [].

Definition inline (rid : string) (cx : option string) : Element :=
  elem (_q "wp" "inline") []
    ((match cx with Some c => [extent c] | None => [] end)
     ++ [elem (_q "a" "graphic") [] [elem (_q "a" "blip") [(_q "r" "embed", rid)] []]]).

Definition drawing (rid : string) (cx : option string) : Element :=
  elem (w "drawing") [] [inline rid cx].

Definition conv : Converter :=
  {| relationships :=
       list_to_map
         [ ("rId1", ("http://schemas.openxmlformats.org/officeDocument/2006/relationships/image",
                     "media/image1.png"));
           ("rId2", ("http://schemas.openxmlformats.org/officeDocument/2006/relationships/hyperlink",
                     "http://example.org/a_b")) ];
     num_formats :=
       list_to_map [ ("1", list_to_map [ (0, "decimal"); (1, "bullet") ]) ];
     zip_files := list_to_map [ ("word/media/image1.png", "PNG") ];
     media_rel := "out_media" |}.

Definition st0 : State := {| list_stack := []; media_files := ∅ |}.

Definition body (blocks : list Element) : Element := elem (w "body") [] blocks.

End Sample.

(** ** Vocabulary of the properties *)

Module Spec.

(** the ten characters the escaper rewrites *)
Definition metachars : list ascii :=
  [ "\"; "&"; "%"; "$"; "#"; "_"; "{"; "}"; "~"; "^" ]%char.

Definition is_meta (ch : ascii) : bool := existsb (Ascii.eqb ch) metachars.

(** the text holds a character the escaper rewrites *)
Fixpoint has_meta (s : string) : bool :=
  match s with
  | EmptyString => false
  | String ch r => is_meta ch || has_meta r
  end.


(** *** Style flags of a run's property element *)

Definition present (o : option Element) : bool :=
  if o is Some _ then true else false.

Definition is_bold (rpr : Element) : bool := present (ET.find rpr (_q "w" "b")).
Definition is_emph (rpr : Element) : bool := present (ET.find rpr (_q "w" "i")).

(** an underline element whose value, lower-cased, is not ["none"] *)
Definition is_underlined (rpr : Element) : bool :=
  match ET.find rpr (_q "w" "u") with
  | Some underline =>
      negb (String.eqb (PyStr.lower (ET.get_or underline (_q "w" "val") "")) "none")
  | None => false
  end.

(** the superscript or subscript command the alignment attribute asks for *)
Definition script_of (rpr : Element) : option string :=
  match ET.find rpr (_q "w" "vertAlign") with
  | Some vert_align =>
      match ET.get vert_align (_q "w" "val") with
      | Some align =>
          if String.eqb align "superscript" then Some "textsuperscript"
          else if String.eqb align "subscript" then Some "textsubscript"
          else None
      | None => None
      end
  | None => None
  end.

Definition wrap_if (b : bool) (wrapper s : string) : string :=
  if b then wrap wrapper s else s.

Definition wrap_opt (wrapper : option string) (s : string) : string :=
  match wrapper with Some wr => wrap wr s | None => s end.

(** The order of wrapping as the specification words it: bold, then
    emphasis, then underline, then superscript or subscript, the last
    applied being outermost. *)
Definition claimed_format_run_text (text_node run : Element) : string :=
  let escaped := escape_latex (default "" (text text_node)) in
  match ET.find run (_q "w" "rPr") with
  | None => escaped
  | Some rpr =>
      wrap_opt (script_of rpr)
        (wrap_if (is_underlined rpr) "underline"
           (wrap_if (is_emph rpr) "emph"
              (wrap_if (is_bold rpr) "textbf" escaped)))
  end.

(** *** Counting list directives *)

Definition is_open (line : string) : bool := PyStr.startswith line "\begin{".
Definition is_close (line : string) : bool := PyStr.startswith line "\end{".
Definition is_item (line : string) : bool := PyStr.startswith line "\item".

Definition count (f : string -> bool) (lines : list string) : Z :=
  Z.of_nat (length (List.filter f lines)).

(** open directives minus close directives *)
Definition balance (lines : list string) : Z :=
  count is_open lines - count is_close lines.

(** the machine driven once per paragraph target, from a given stack: the
    lines emitted so far and the stack reached *)
Fixpoint drive (targets : list (option ListState)) (stack : list ListState)
    (lines : list string) : list string * list ListState :=
  match targets with
  | [] => (lines, stack)
  | target :: rest =>
      let '(new_lines, stack) := sync_list_stack target stack in
      drive rest stack (lines ++ new_lines)
  end.

(** levels from bottom to top are 0, 1, 2, ...: strictly increasing, no gap *)
Definition levels_contiguous (stack : list ListState) : Prop :=
  forall (i : nat) (state : ListState),
    rev stack !! i = Some state -> level state = Z.of_nat i.

(** one stage of the machine emits one open per push and one close per
    pop: the balance of its lines moves with the depth *)
Definition tracks_depth (stack : list ListState) (lines : list string)
    (out : list string * list ListState) : Prop :=
  balance (fst out) - balance lines
  = Z.of_nat (length (snd out)) - Z.of_nat (length stack).

(** the same invariant, read from the top: every entry's level is the
    number of entries below it *)
Fixpoint levels_ok (stack : list ListState) : Prop :=
  match stack with
  | [] => True
  | top :: rest => level top = Z.of_nat (length rest) /\ levels_ok rest
  end.

(** *** State *)

Definition set_stack (stack : list ListState) (st : State) : State :=
  {| list_stack := stack; media_files := media_files st |}.

(** a computation that neither reads nor changes the list stack *)
Definition stack_blind {A} (c : M A) : Prop :=
  forall st stack,
    c (set_stack stack st) =
    match c st with
    | Ok (a, st') => Ok (a, set_stack stack st')
    | Raise e => Raise e
    end.


(** a line of the list machine: an open or a close directive *)
Definition is_directive (line : string) : bool := is_open line || is_close line.

(** a stage of the machine adds directives only *)
Definition emits_directives (lines : list string)
    (out : list string * list ListState) : Prop :=
  Forall (fun line => is_directive line = true) lines ->
  Forall (fun line => is_directive line = true) (fst out).


(** *** Hyperlinks *)

(** the relationship a hyperlink's identifier resolves to, if any *)
Definition resolved_link (self : Converter) (hyperlink : Element)
  : option (string * string) :=
  match ET.get hyperlink (_q "r" "id") with
  | Some rel_id => if PyStr.truthy rel_id then relationships self !! rel_id else None
  | None => None
  end.

(** the hyperlink-reference wrapper around a text *)
Definition href (target text_value : string) : string :=
  "\href{" +:+ escape_latex target +:+ "}{" +:+ text_value +:+ "}".


(** *** Tables *)

(** the cell-span sum of a row *)
Definition row_span_sum (row : list (string * Z)) : Z :=
  foldr Z.add 0 (map snd row).

(** the maximum of the rows' span sums, and at least 1 *)
Definition column_count (rows_data : list (list (string * Z))) : Z :=
  foldr Z.max 1 (map row_span_sum rows_data).

(** what a cell shows: its text, or the placeholder when it has none *)
Definition cell_content (text : string) : string :=
  if String.eqb text "" then "\quad{}" else text.

(** Lengths of the page, to read a width expression as a number. *)
Record Lengths := { linewidth : Q; tabcolsep : Q }.

(** the length that [\dimexpr\linewidth/n-2\tabcolsep\relax] stands for *)
Definition column_width_value (L : Lengths) (n : Z) : Q :=
  (linewidth L / inject_Z n - 2 * tabcolsep L)%Q.


(** *** White space *)

(** [s.split()]: the maximal runs of characters that are not white space *)
Fixpoint words (s : string) : list string :=
  match s with
  | EmptyString => []
  | String c r =>
      if PyStr.is_space c then words r
      else
        match r with
        | EmptyString => [String c EmptyString]
        | String c' _ =>
            if PyStr.is_space c' then String c EmptyString :: words r
            else
              match words r with
              | w :: ws => String c w :: ws
              | [] => [String c EmptyString]
              end
        end
  end.

Fixpoint all_space (s : string) : bool :=
  match s with
  | EmptyString => true
  | String c r => PyStr.is_space c && all_space r
  end.

Definition starts_with_space (s : string) : bool :=
  match s with
  | EmptyString => false
  | String c _ => PyStr.is_space c
  end.

Fixpoint ends_with_space (s : string) : bool :=
  match s with
  | EmptyString => false
  | String c EmptyString => PyStr.is_space c
  | String _ r => ends_with_space r
  end.


(** *** The lines of a paragraph *)

(** The lines that carry the text of a paragraph, from its normalized text:
    an item line in a list (a bare one when there are only blocks), a
    heading or title command outside, or the text itself; nothing when the
    normalized text is empty. *)
Definition text_lines (list_info : option ListState) (style : option string)
    (text_content : string) (block_fragments : list string) : list string :=
  let styled (name : string) : bool :=
    match style with Some s => String.eqb s name | None => false end in
  match list_info with
  | Some _ =>
      if PyStr.truthy text_content then ["\item " +:+ text_content]
      else if block_fragments is [] then [] else ["\item"]
  | None =>
      if negb (PyStr.truthy text_content) then []
      else if styled "Heading1" then ["\section{" +:+ text_content +:+ "}"]
      else if styled "Heading2" then ["\subsection{" +:+ text_content +:+ "}"]
      else if styled "Heading3" then ["\subsubsection{" +:+ text_content +:+ "}"]
      else if styled "Title" then ["\title{" +:+ text_content +:+ "}"; "\maketitle"]
      else [text_content]
  end.

(** the blank line after a paragraph outside a list and outside a table,
    unless the paragraph gave no line or its last line is blank *)
Definition blank_after (list_info : option ListState) (lines : list string)
  : list string :=
  match list_info with
  | Some _ => []
  | None =>
      match last lines with
      | Some l => if PyStr.truthy l then [""] else []
      | None => []
      end
  end.

(** *** Running a method on each element *)

(** run [c] on each element in turn, from the state the previous one left,
    and collect what it returns *)
Fixpoint run_each {A B : Type} (c : A -> M B) (l : list A) : M (list B) :=
  match l with
  | [] => mret []
  | x :: rest => b ← c x; bs ← run_each c rest; mret (b :: bs)
  end.

(** what one paragraph of a cell contributes, from the text and the blocks
    of its runs: the trimmed text unless it is empty, then the blocks *)
Definition cell_parts (r : string * list string) : list string :=
  (if PyStr.truthy (PyStr.strip (fst r)) then [PyStr.strip (fst r)] else [])
  ++ snd r.

(** a cell as the table reads it: the text [_convert_table_cell] returns
    for it, and its span *)
Definition scan_cell (py_int : string -> option Z) (path_name : string -> string)
    (self : Converter) (tc : Element) : M (string * Z) :=
  cell_text ← _convert_table_cell py_int path_name self tc;
  mret (cell_text, cell_span py_int tc).

(** the cells of a row, in order *)
Definition scan_row (py_int : string -> option Z) (path_name : string -> string)
    (self : Converter) (tr : Element) : M (list (string * Z)) :=
  run_each (scan_cell py_int path_name self) (ET.findall tr (_q "w" "tc")).

(** *** Drawings that resolve *)


End Spec.

(** ** More of the module: the line cleaner and the loaders

    The loaders read a package member that has already been parsed: they
    take the root element, or [None] when the package has no such member
    (the [_zip_has] test). *)

(** the loop of [_clean_lines]; [previous_blank] is its flag *)
Fixpoint clean_lines_from (previous_blank : bool) (lines : list string)
  : list string :=
  match lines with
  | [] => []
  | line :: rest =>
      let stripped := PyStr.rstrip line in
      if negb (PyStr.truthy stripped)
      then (if previous_blank then clean_lines_from true rest
            else "" :: clean_lines_from true rest)
      else stripped :: clean_lines_from false rest
  end.

Definition _clean_lines (lines : list string) : list string :=
  clean_lines_from false lines.

(** the body of the loop of [_load_relationships] *)
Definition add_relationship (relationships : gmap string (string * string))
    (rel : Element) : gmap string (string * string) :=
  match ET.get rel "Id", ET.get rel "Type", ET.get rel "Target" with
  | Some rel_id, Some rel_type, Some target =>
      if PyStr.truthy rel_id && PyStr.truthy rel_type && PyStr.truthy target
      then <[rel_id := (rel_type, target)]> relationships
      else relationships
  | _, _, _ => relationships
  end.

Definition _load_relationships (rels_root : option Element)
  : gmap string (string * string) :=
  match rels_root with
  | None => ∅
  | Some rels_root => foldl add_relationship ∅ (children rels_root)
  end.

Section Numbering.

(** [int(s)]: [None] stands for [ValueError], which [_load_numbering] does
    not catch *)
Variable py_int : string -> option Z.

(** the body of the loop over the levels of one abstract numbering; [None]
    is the uncaught [ValueError] *)
Definition add_level (levels : gmap Z string) (lvl : Element)
  : option (gmap Z string) :=
  match ET.get lvl (_q "w" "ilvl"), ET.find lvl (_q "w" "numFmt") with
  | Some ilvl, Some numfmt =>
      match ET.get numfmt (_q "w" "val") with
      | Some fmt =>
          if PyStr.truthy fmt
          then n ← py_int ilvl; Some (<[n := fmt]> levels)
          else Some levels
      | None => Some levels
      end
  | _, _ => Some levels
  end.

(** [for x in l: acc = body(acc, x)], stopping at the first exception *)
Fixpoint fold_try {A B : Type} (body : A -> B -> option A) (acc : A) (l : list B)
  : option A :=
  match l with
  | [] => Some acc
  | x :: r => acc' ← body acc x; fold_try body acc' r
  end.

(** the body of the loop over the abstract numberings *)
Definition add_abstract (abstract_map : gmap string (gmap Z string))
    (abstract : Element) : option (gmap string (gmap Z string)) :=
  match ET.get abstract (_q "w" "abstractNumId") with
  | Some abstract_id =>
      if PyStr.truthy abstract_id
      then
        levels ← fold_try add_level ∅ (ET.findall abstract (_q "w" "lvl"));
        Some (<[abstract_id := levels]> abstract_map)
      else Some abstract_map
  | None => Some abstract_map
  end.

(** the body of the loop over the numbering instances *)
Definition add_num (abstract_map : gmap string (gmap Z string))
    (num_map : gmap string (gmap Z string)) (num : Element)
  : gmap string (gmap Z string) :=
  match ET.get num (_q "w" "numId"), ET.find num (_q "w" "abstractNumId") with
  | Some num_id, Some abstract_ref =>
      if PyStr.truthy num_id then
        match ET.get abstract_ref (_q "w" "val") with
        | Some abstract_id =>
            if PyStr.truthy abstract_id
            then <[num_id := default ∅ (abstract_map !! abstract_id)]> num_map
            else num_map
        | None => num_map
        end
      else num_map
  | _, _ => num_map
  end.

Definition _load_numbering (root : option Element)
  : option (gmap string (gmap Z string)) :=
  match root with
  | None => Some ∅
  | Some root =>
      abstract_map ←
        fold_try add_abstract ∅ (ET.findall root (_q "w" "abstractNum"));
      Some (foldl (add_num abstract_map) ∅ (ET.findall root (_q "w" "num")))
  end.

End Numbering.

(** ** Vocabulary of the further properties *)

Module Laws.

(** no blank line follows a blank line *)
Fixpoint no_double_blank (lines : list string) : Prop :=
  match lines with
  | l1 :: ((l2 :: _) as rest) => ~ (l1 = "" /\ l2 = "") /\ no_double_blank rest
  | _ => True
  end.

(** a relationship element that [_load_relationships] records *)
Definition complete_relationship (rel : Element) (rel_id rel_type target : string)
  : Prop :=
  ET.get rel "Id" = Some rel_id /\ ET.get rel "Type" = Some rel_type
  /\ ET.get rel "Target" = Some target
  /\ rel_id <> "" /\ rel_type <> "" /\ target <> "".

(** what was in the media directory is still there, unchanged *)
Definition keeps_media (st st' : State) : Prop :=
  forall name data,
    media_files st !! name = Some data -> media_files st' !! name = Some data.

(** a computation that never removes or overwrites a media file *)
Definition media_monotone {A} (c : M A) : Prop :=
  forall st a st', c st = Ok (a, st') -> keeps_media st st'.


(** a character run with no white space in it *)
Fixpoint no_space (s : string) : bool :=
  match s with
  | EmptyString => true
  | String c r => negb (PyStr.is_space c) && no_space r
  end.

(** a word: not empty, and without white space *)
Definition is_word (w : string) : Prop := w <> "" /\ no_space w = true.

(** what the loop guarantees, for either value of its flag: trimmed lines, no
    blank line after a blank line, and no leading blank line when the flag is
    set *)
Definition cleaned (previous_blank : bool) (lines : list string) : Prop :=
  Forall (fun line => PyStr.rstrip line = line) lines
  /\ no_double_blank lines
  /\ (previous_blank = true -> head lines <> Some "").


(** *** Stages of the list machine *)

(** the top entry, if any, is not deeper than the target *)
Definition below_target (target : ListState) (stack : list ListState) : Prop :=
  match stack with
  | [] => True
  | top :: _ => level top <= level target
  end.

(** a top entry at the target's level has the target's environment and
    numbering *)
Definition agrees_at_level (target : ListState) (stack : list ListState) : Prop :=
  match stack with
  | [] => True
  | top :: _ => level top = level target -> Stack.differs top target = false
  end.

(** an entry opened for the target *)
Definition opened_for (target state : ListState) : Prop :=
  env state = env target /\ num_id state = num_id target.


(** *** The media directory *)

(** every file of the media directory is kept as it was, and every new file
    holds the bytes of a member of the package *)
Definition media_grows (self : Converter) (st st' : State) : Prop :=
  keeps_media st st'
  /\ forall name data,
       media_files st' !! name = Some data ->
       media_files st !! name = Some data
       \/ exists member, zip_files self !! member = Some data.

(** a computation under which the media directory only grows *)
Definition media_safe {A} (self : Converter) (c : M A) : Prop :=
  forall st a st', c st = Ok (a, st') -> media_grows self st st'.

(** *** Skipped elements *)

(** the children [_collect_runs] looks at *)
Definition inline_known (child : Element) : bool :=
  String.eqb (tag child) (_q "w" "r")
  || String.eqb (tag child) (_q "w" "hyperlink")
  || String.eqb (tag child) (_q "w" "fldSimple")
  || String.eqb (tag child) (_q "m" "oMath")
  || String.eqb (tag child) (_q "m" "oMathPara").

(** the body children [_convert_block] looks at *)
Definition block_known (element : Element) : bool :=
  String.eqb (tag element) (_q "w" "p")
  || String.eqb (tag element) (_q "w" "tbl")
  || String.eqb (tag element) (_q "w" "sectPr").

(** the same element with other children *)
Definition with_children (e : Element) (cs : list Element) : Element :=
  {| tag := tag e; attrib := attrib e; text := text e; children := cs |}.

(** the list environments of the target markup *)
Definition list_env (e : string) : Prop := e = "itemize" \/ e = "enumerate".


(** *** Loaders *)

(** the entry a relationship element adds to the map, if it adds one *)
Definition relationship_entry (rel : Element)
  : option (string * (string * string)) :=
  match ET.get rel "Id", ET.get rel "Type", ET.get rel "Target" with
  | Some rel_id, Some rel_type, Some target =>
      if PyStr.truthy rel_id && PyStr.truthy rel_type && PyStr.truthy target
      then Some (rel_id, (rel_type, target))
      else None
  | _, _, _ => None
  end.

(** the entry a numbering instance adds to the map, if it adds one: its
    identifier and the identifier of the abstract numbering it points to *)
Definition num_entry (num : Element) : option (string * string) :=
  match ET.get num (_q "w" "numId"), ET.find num (_q "w" "abstractNumId") with
  | Some num_id, Some abstract_ref =>
      if PyStr.truthy num_id then
        match ET.get abstract_ref (_q "w" "val") with
        | Some abstract_id =>
            if PyStr.truthy abstract_id then Some (num_id, abstract_id) else None
        | None => None
        end
      else None
  | _, _ => None
  end.

(** a figure block: opened, centred, closed, with the image line and
    perhaps a caption between *)
Definition figure_block (lines : list string) : Prop :=
  head lines = Some "\begin{figure}[h]"
  /\ lines !! 1%nat = Some "\centering"
  /\ last lines = Some "\end{figure}"
  /\ (length lines = 4%nat \/ length lines = 5%nat).

(** a level element that records format [fmt] at level [l] *)
Definition level_entry (py_int : string -> option Z)
    (lvl : Element) (l : Z) (fmt : string) : Prop :=
  exists ilvl numfmt,
    ET.get lvl (_q "w" "ilvl") = Some ilvl
    /\ py_int ilvl = Some l
    /\ ET.find lvl (_q "w" "numFmt") = Some numfmt
    /\ ET.get numfmt (_q "w" "val") = Some fmt
    /\ fmt <> "".

(** a level element that does not touch level [l] *)
Definition other_level (py_int : string -> option Z) (l : Z) (lvl : Element) : Prop :=
  forall ilvl, ET.get lvl (_q "w" "ilvl") = Some ilvl -> py_int ilvl <> Some l.

(** an abstract numbering that is not numbered [a] *)
Definition other_abstract (a : string) (abstract : Element) : Prop :=
  ET.get abstract (_q "w" "abstractNumId") <> Some a.



(** *** Nesting of the list environments *)

(** the list environment a line opens, when the line is such a directive *)
Definition opened_env (line : string) : option string :=
  if String.eqb line "\begin{itemize}" then Some "itemize"
  else if String.eqb line "\begin{enumerate}" then Some "enumerate"
  else None.

(** the list environment a line closes, when the line is such a directive *)
Definition closed_env (line : string) : option string :=
  if String.eqb line "\end{itemize}" then Some "itemize"
  else if String.eqb line "\end{enumerate}" then Some "enumerate"
  else None.

(** Read the lines in order, with the list environments that are open,
    innermost first: an open directive pushes its environment, a close
    directive must name the innermost open environment and pops it, every
    other line is passed.  [None] when a close directive has nothing to
    close or names another environment. *)
Fixpoint nest (opened : list string) (lines : list string) : option (list string) :=
  match lines with
  | [] => Some opened
  | line :: rest =>
      match opened_env line with
      | Some e => nest (e :: opened) rest
      | None =>
          match closed_env line with
          | Some e =>
              match opened with
              | top :: below => if String.eqb top e then nest below rest else None
              | [] => None
              end
          | None => nest opened rest
          end
      end
  end.

(** a line that is not a list directive *)
Definition content (line : string) : Prop :=
  opened_env line = None /\ closed_env line = None.

(** a line that is not a list directive, and does not become one when its
    trailing white space is removed *)
Definition settled (line : string) : Prop :=
  content line /\ content (PyStr.rstrip line).

(** every entry of the stack is a list environment of the target markup *)
Definition list_envs (stack : list ListState) : Prop :=
  Forall (fun state => list_env (env state)) stack.

(** what follows a backslash is neither [b...] nor [en...], and is enough
    to tell *)
Definition command_head (r : string) : bool :=
  match r with
  | String d r' =>
      if Ascii.eqb d "b" then false
      else if Ascii.eqb d "e" then
        match r' with
        | String f _ => negb (Ascii.eqb f "n")
        | EmptyString => false
        end
      else true
  | EmptyString => false
  end.

(** after its leading white space the text does not begin like [\begin] or
    [\end], whatever is appended to it *)
Fixpoint plain_head (s : string) : bool :=
  match s with
  | EmptyString => true
  | String c r =>
      if PyStr.is_space c then plain_head r
      else if Ascii.eqb c "\" then command_head r
      else true
  end.

Fixpoint last_char (s : string) : option ascii :=
  match s with
  | EmptyString => None
  | String c EmptyString => Some c
  | String _ r => last_char r
  end.

(** every value the computation returns satisfies [P] *)
Definition yields {A} (c : M A) (P : A -> Prop) : Prop :=
  forall st a st', c st = Ok (a, st') -> P a.

(** the text and the blocks an inline element gives: the text does not
    begin like a directive, and no block is a list directive *)
Definition plain_text (r : string * list string) : Prop :=
  plain_head (fst r) = true /\ Forall settled (snd r).

(** the same for the text parts and the blocks a loop has gathered *)
Definition plain_parts (acc : list string * list string) : Prop :=
  Forall (fun part => plain_head part = true) (fst acc) /\ Forall settled (snd acc).

End Laws.

(** ** Sample package members *)

Module Package.

(** a relationship element *)
Definition relationship (id type target : string) : Element :=
  Sample.elem "Relationship" [("Id", id); ("Type", type); ("Target", target)] [].

(** a manifest in which [rId1] occurs twice *)
Definition rels_root : Element :=
  Sample.elem "Relationships" []
    [ relationship "rId1" "http://x/image" "media/old.png";
      relationship "rId2" "http://x/hyperlink" "http://example.org/";
      relationship "rId1" "http://x/image" "media/new.png";
      relationship "" "http://x/image" "media/none.png" ].

(** a level of an abstract numbering *)
Definition lvl (ilvl fmt : string) : Element :=
  Sample.elem (Sample.w "lvl") [(Sample.w "ilvl", ilvl)]
    [Sample.elem (Sample.w "numFmt") (Sample.val fmt) []].

Definition abstractNum (id : string) (levels : list Element) : Element :=
  Sample.elem (Sample.w "abstractNum") [(Sample.w "abstractNumId", id)] levels.

Definition num (id abstract_id : string) : Element :=
  Sample.elem (Sample.w "num") [(Sample.w "numId", id)]
    [Sample.elem (Sample.w "abstractNumId") (Sample.val abstract_id) []].

(** numbering 1 is decimal at level 0 and bulleted at level 1; numbering 2
    points to an abstract numbering that is not there *)
Definition numbering_root : Element :=
  Sample.elem (Sample.w "numbering") []
    [ abstractNum "10" [lvl "0" "decimal"; lvl "1" "bullet"];
      num "1" "10";
      num "2" "99" ].

(** a numbering part with a level that is not a number *)
Definition bad_numbering_root : Element :=
  Sample.elem (Sample.w "numbering") []
    [ abstractNum "10" [lvl "0" "decimal"; lvl "one" "bullet"];
      num "1" "10" ].

End Package.

(** * Properties *)

#[local] Arguments String.append !s1 s2 : simpl nomatch.

(** ** The escaper *)

Section Escaper.
Import Spec.

Ltac each_char ch :=
  destruct ch as [[] [] [] [] [] [] [] []].

Lemma escape_char_plain ch :
  is_meta ch = false -> escape_char ch = String ch EmptyString.
Proof. each_char ch; vm_compute; intros H; solve [reflexivity | discriminate H]. Qed.

Lemma escape_char_meta ch :
  is_meta ch = true ->
  (2 <= String.length (escape_char ch))%nat /\ has_meta (escape_char ch) = true.
Proof.
  each_char ch; vm_compute; intros H;
    solve [discriminate H | split; [lia | reflexivity]].
Qed.

Lemma has_meta_app a b : has_meta (a +:+ b) = has_meta a || has_meta b.
Proof.
  induction a as [|c a IH]; cbn [has_meta String.append]; [reflexivity|].
  now rewrite IH, orb_assoc.
Qed.

Lemma app_empty_r a : a +:+ "" = a.
Proof. induction a as [|c a IH]; cbn; [reflexivity | now rewrite IH]. Qed.

Lemma string_app_assoc a b c : (a +:+ b) +:+ c = a +:+ (b +:+ c).
Proof. induction a as [|x a IH]; cbn; [reflexivity | now rewrite IH]. Qed.

Lemma string_length_app a b :
  String.length (a +:+ b) = (String.length a + String.length b)%nat.
Proof.
  induction a as [|c a IH]; cbn [String.length String.append]; [reflexivity|].
  now rewrite IH.
Qed.

Lemma escape_latex_plain s : has_meta s = false -> escape_latex s = s.
Proof.
  induction s as [|ch s IH]; cbn [escape_latex has_meta]; [reflexivity|].
  intros [Hc Hs]%orb_false_iff.
  now rewrite (escape_char_plain _ Hc), (IH Hs).
Qed.

Lemma escape_latex_length s : (String.length s <= String.length (escape_latex s))%nat.
Proof.
  induction s as [|ch s IH]; cbn [escape_latex String.length]; [lia|].
  rewrite string_length_app.
  destruct (is_meta ch) eqn:Hc.
  - destruct (escape_char_meta _ Hc); lia.
  - rewrite (escape_char_plain _ Hc); cbn; lia.
Qed.

Lemma escape_latex_grows s :
  has_meta s = true -> (String.length s < String.length (escape_latex s))%nat.
Proof.
  induction s as [|ch s IH]; cbn [escape_latex has_meta String.length];
    [discriminate|].
  rewrite string_length_app. intros H.
  destruct (is_meta ch) eqn:Hc.
  - destruct (escape_char_meta _ Hc). pose proof (escape_latex_length s). lia.
  - rewrite (escape_char_plain _ Hc); cbn. cbn in H. specialize (IH H). lia.
Qed.

Lemma escape_latex_keeps_meta s :
  has_meta s = true -> has_meta (escape_latex s) = true.
Proof.
  induction s as [|ch s IH]; cbn [escape_latex has_meta]; [discriminate|].
  rewrite has_meta_app. intros H.
  destruct (is_meta ch) eqn:Hc.
  - destruct (escape_char_meta _ Hc) as [_ ->]. reflexivity.
  - cbn in H. rewrite (IH H). apply orb_true_r.
Qed.

Lemma escape_latex_concat s :
  escape_latex s = PyStr.concat (map escape_char (list_ascii_of_string s)).
Proof.
  unfold PyStr.concat.
  induction s as [|ch s IH]; cbn [escape_latex list_ascii_of_string map];
    [reflexivity|].
  rewrite IH.
  destruct (map escape_char (list_ascii_of_string s)) as [|y ys]; cbn.
  - apply app_empty_r.
  - reflexivity.
Qed.

(** C5.  The escaper rewrites exactly the ten metacharacters, each to its
    escape sequence, and copies every other character; it is the
    concatenation of the per-character images; ["50% & $5"] becomes
    ["50\% \& \$5"]; and whenever one application changed the text (the
    output holds an escape), a second application changes it again. *)
Theorem escape_latex_contract :
  (escape_char "\" = "\textbackslash{}"
   /\ escape_char "&" = "\&"
   /\ escape_char "%" = "\%"
   /\ escape_char "$" = "\$"
   /\ escape_char "#" = "\#"
   /\ escape_char "_" = "\_"
   /\ escape_char "{" = "\{"
   /\ escape_char "}" = "\}"
   /\ escape_char "~" = "\textasciitilde{}"
   /\ escape_char "^" = "\textasciicircum{}")
  /\ (forall ch, ~ In ch metachars -> escape_char ch = String ch EmptyString)
  /\ (forall s, escape_latex s = PyStr.concat (map escape_char (list_ascii_of_string s)))
  /\ escape_latex "50% & $5" = "50\% \& \$5"
  /\ (forall s, escape_latex s <> s ->
        escape_latex (escape_latex s) <> escape_latex s).
Proof.
  split; [repeat split; reflexivity|].
  split.
  { intros ch Hch. apply escape_char_plain.
    unfold is_meta. apply not_true_is_false. intros (x & Hin & Heq)%existsb_exists.
    apply Ascii.eqb_eq in Heq. now subst. }
  split; [apply escape_latex_concat|].
  split; [reflexivity|].
  intros s Hs Heq.
  destruct (has_meta s) eqn:Hm.
  - pose proof (escape_latex_grows _ (escape_latex_keeps_meta _ Hm)) as Hlt.
    rewrite Heq in Hlt. lia.
  - now apply Hs, escape_latex_plain.
Qed.

Lemma escape_latex_contract_witness :
  escape_latex (escape_latex "50% & $5") <> escape_latex "50% & $5".
Proof.
  apply (proj2 (proj2 (proj2 (proj2 escape_latex_contract)))).
  vm_compute. discriminate.
Defined.

End Escaper.

(** ** The run formatter *)

Section RunFormatter.
Import Spec.

(** C1 (as the code has it).  With a property element, the superscript or
    subscript command is applied first, around the escaped text, then the
    bold, the emphasis and the underline command, each at most once; the
    escaped text is innermost and the underline command, when present, is
    outermost.  Without a property element the escaped text is returned. *)
Theorem format_run_text_nesting (text_node run : Element) :
  _format_run_text text_node run =
  let escaped := escape_latex (default "" (text text_node)) in
  match ET.find run (_q "w" "rPr") with
  | None => escaped
  | Some rpr =>
      wrap_if (is_underlined rpr) "underline"
        (wrap_if (is_emph rpr) "emph"
           (wrap_if (is_bold rpr) "textbf"
              (wrap_opt (script_of rpr) escaped)))
  end.
Proof.
  unfold _format_run_text, is_underlined, is_emph, is_bold, script_of, present.
  cbv zeta.
  destruct (ET.find run (_q "w" "rPr")) as [rpr|]; [|reflexivity].
  destruct (ET.find rpr (_q "w" "b")), (ET.find rpr (_q "w" "i"));
    (destruct (ET.find rpr (_q "w" "u")) as [u|];
     [destruct (negb (String.eqb (PyStr.lower (ET.get_or u (_q "w" "val") "")) "none"))|]);
    (destruct (ET.find rpr (_q "w" "vertAlign")) as [va|];
     [destruct (ET.get va (_q "w" "val")) as [align|];
      [destruct (String.eqb align "superscript");
       [|destruct (String.eqb align "subscript")]|]|]);
    reflexivity.
Qed.

(** C1 (as stated) fails: on a bold superscript run the bold command is
    outermost, where the stated order puts the superscript command. *)
Lemma format_run_text_order_counterexample :
  let x := Sample.t "x" in
  let r := Sample.run [Sample.elem (Sample.w "b") [] [];
                       Sample.elem (Sample.w "vertAlign") (Sample.val "superscript") []]
                      "x" in
  _format_run_text x r = "\textbf{\textsuperscript{x}}"
  /\ claimed_format_run_text x r = "\textsuperscript{\textbf{x}}"
  /\ _format_run_text x r <> claimed_format_run_text x r.
Proof. vm_compute. repeat split. discriminate. Qed.

End RunFormatter.

(** ** The list state machine *)

Section ListMachine.
Import Spec.

Lemma balance_app l1 l2 : balance (l1 ++ l2) = balance l1 + balance l2.
Proof.
  unfold balance, count. rewrite !List.filter_app, !List.length_app. lia.
Qed.

Lemma balance_nil : balance [] = 0.
Proof. reflexivity. Qed.

Lemma balance_begin e : balance [begin_line e] = 1.
Proof. reflexivity. Qed.

Lemma balance_end state : balance [end_line state] = -1.
Proof. reflexivity. Qed.

Lemma close_all_tracks stack lines :
  tracks_depth stack lines (Stack.close_all stack lines)
  /\ snd (Stack.close_all stack lines) = [].
Proof.
  unfold tracks_depth. revert lines.
  induction stack as [|state rest IH]; intros lines; cbn [Stack.close_all].
  - cbn. split; [lia | reflexivity].
  - destruct (IH (lines ++ [end_line state])) as [H1 H2]. split; [|exact H2].
    rewrite balance_app, balance_end in H1. cbn [length]. lia.
Qed.

Lemma close_deeper_tracks target stack lines :
  tracks_depth stack lines (Stack.close_deeper target stack lines).
Proof.
  unfold tracks_depth. revert lines.
  induction stack as [|top rest IH]; intros lines; cbn [Stack.close_deeper].
  - cbn. lia.
  - destruct (level top >? level target).
    + specialize (IH (lines ++ [end_line top])).
      rewrite balance_app, balance_end in IH. cbn [length]. lia.
    + cbn. lia.
Qed.

Lemma close_same_level_tracks target stack lines :
  tracks_depth stack lines (Stack.close_same_level target stack lines).
Proof.
  unfold tracks_depth, Stack.close_same_level.
  destruct stack as [|current rest]; [cbn; lia|].
  destruct ((level current =? level target) && Stack.differs current target);
    cbn [fst snd length]; [rewrite balance_app, balance_end|]; lia.
Qed.

Lemma open_levels_done target stack lines :
  Stack.must_open target stack = false ->
  open_levels target stack lines = (lines, stack).
Proof.
  intros Hdone. funelim (open_levels target stack lines);
    [congruence | reflexivity].
Qed.

Lemma open_levels_step target stack lines :
  Stack.must_open target stack = true ->
  open_levels target stack lines
  = open_levels target (Stack.pushed target stack)
      (lines ++ [begin_line (env target)]).
Proof.
  intros Hopen. funelim (open_levels target stack lines);
    [now symmetry | congruence].
Qed.

Lemma open_levels_tracks target stack lines :
  tracks_depth stack lines (open_levels target stack lines).
Proof.
  unfold tracks_depth.
  funelim (open_levels target stack lines).
  - rewrite balance_app, balance_begin in H.
    change (length (Stack.pushed target stack)) with (S (length stack)) in H.
    lia.
  - cbn. lia.
Qed.

Lemma sync_tail_tracks target stack lines :
  tracks_depth stack lines (sync_tail target stack lines).
Proof.
  unfold tracks_depth, sync_tail.
  destruct stack as [|top rest].
  - cbn [fst snd length]. rewrite balance_app, balance_begin. lia.
  - destruct (level top <? level target).
    + cbn [fst snd length]. rewrite balance_app, balance_begin. lia.
    + destruct ((level top =? level target) && Stack.differs top target);
        cbn [fst snd length];
        [rewrite !balance_app, balance_begin, balance_end|]; lia.
Qed.

Lemma sync_list_stack_tracks target stack :
  tracks_depth stack [] (sync_list_stack target stack).
Proof.
  unfold sync_list_stack, close_all_lists.
  destruct target as [target|]; [|apply close_all_tracks].
  pose proof (close_deeper_tracks target stack []) as H1.
  destruct (Stack.close_deeper target stack []) as [l1 s1].
  pose proof (close_same_level_tracks target s1 l1) as H2.
  destruct (Stack.close_same_level target s1 l1) as [l2 s2].
  pose proof (open_levels_tracks target s2 l2) as H3.
  destruct (open_levels target s2 l2) as [l3 s3].
  pose proof (sync_tail_tracks target s3 l3) as H4.
  unfold tracks_depth in *. cbn [fst snd] in *. lia.
Qed.

Lemma drive_tracks targets stack lines :
  tracks_depth stack lines (drive targets stack lines).
Proof.
  unfold tracks_depth. revert stack lines.
  induction targets as [|target rest IH]; intros stack lines; cbn [drive].
  - cbn. lia.
  - pose proof (sync_list_stack_tracks target stack) as H.
    destruct (sync_list_stack target stack) as [new_lines stack'].
    specialize (IH stack' (lines ++ new_lines)).
    unfold tracks_depth in H. cbn [fst snd] in H.
    rewrite balance_app in IH. rewrite balance_nil in H. lia.
Qed.

(** A target that is the top entry leaves the machine silent. *)
Lemma sync_same_target top rest :
  sync_list_stack (Some top) (top :: rest) = ([], top :: rest).
Proof.
  unfold sync_list_stack. cbn [Stack.close_deeper].
  rewrite Z.gtb_ltb, Z.ltb_irrefl.
  unfold Stack.close_same_level, Stack.differs.
  rewrite !String.eqb_refl, andb_false_r.
  rewrite open_levels_done by apply Z.ltb_irrefl.
  unfold sync_tail, Stack.differs.
  now rewrite Z.ltb_irrefl, !String.eqb_refl, andb_false_r.
Qed.

(** C3.  Drive the machine from the empty stack through any sequence of
    paragraph targets.  After every prefix, the open directives emitted
    minus the close directives emitted equal the depth of the stack; and
    when the next target is the entry on top of the stack, the machine
    emits nothing and keeps the stack: no close followed by a reopening of
    the same state. *)
Theorem list_machine_balanced (targets : list (option ListState)) (n : nat) :
  let '(lines, stack) := drive (take n targets) [] [] in
  balance lines = Z.of_nat (length stack)
  /\ (forall target, targets !! n = Some (Some target) ->
      head stack = Some target ->
      sync_list_stack (Some target) stack = ([], stack)).
Proof.
  pose proof (drive_tracks (take n targets) [] []) as H.
  destruct (drive (take n targets) [] []) as [lines stack].
  unfold tracks_depth in H. cbn [fst snd length] in H. rewrite balance_nil in H.
  split; [lia|].
  intros target _ Htop. destruct stack as [|top rest]; [discriminate|].
  injection Htop as ->. apply sync_same_target.
Qed.

Lemma list_machine_balanced_witness :
  let item := {| level := 1; env := "itemize"; num_id := "7" |} in
  sync_list_stack (Some item)
    (snd (drive (take 1 [Some item; Some item]) [] []))
  = ([], snd (drive (take 1 [Some item; Some item]) [] [])).
Proof.
  intros item.
  pose proof (list_machine_balanced [Some item; Some item] 1) as H.
  destruct (drive (take 1 [Some item; Some item]) [] []) as [lines stack] eqn:E.
  destruct H as [_ H]. cbn [snd]. apply H.
  - reflexivity.
  - vm_compute in E. injection E as _ <-. reflexivity.
Defined.

(** *** The stack invariant *)

Lemma levels_ok_contiguous stack : levels_ok stack <-> levels_contiguous stack.
Proof.
  unfold levels_contiguous. induction stack as [|top rest IH]; cbn [levels_ok rev].
  - split; [intros _ i state H; destruct i; discriminate | trivial].
  - split.
    + intros [Htop Hrest] i state H.
      apply lookup_app_Some in H as [H | [Hi H]].
      * now apply IH.
      * rewrite length_rev in Hi, H.
        destruct (i - length rest)%nat as [|k] eqn:E; [|destruct k; discriminate].
        injection H as <-. rewrite Htop. f_equal. lia.
    + intros H. split.
      * apply H. rewrite lookup_app_r; rewrite length_rev; [|lia].
        now rewrite Nat.sub_diag.
      * apply IH. intros i state Hi. apply H.
        now apply lookup_app_l_Some.
Qed.

Lemma close_deeper_ok target stack lines :
  levels_ok stack -> levels_ok (snd (Stack.close_deeper target stack lines)).
Proof.
  revert lines. induction stack as [|top rest IH]; intros lines Hok;
    cbn [Stack.close_deeper]; [exact I|].
  destruct (level top >? level target); [apply IH, Hok | exact Hok].
Qed.

Lemma close_same_level_ok target stack lines :
  levels_ok stack -> levels_ok (snd (Stack.close_same_level target stack lines)).
Proof.
  unfold Stack.close_same_level. destruct stack as [|current rest]; [trivial|].
  destruct ((level current =? level target) && Stack.differs current target);
    cbn [snd]; [intros [_ H]; exact H | trivial].
Qed.

Lemma open_levels_ok target stack lines :
  levels_ok stack -> levels_ok (snd (open_levels target stack lines)).
Proof.
  funelim (open_levels target stack lines); intros Hok.
  - apply H. cbn. split; [reflexivity | exact Hok].
  - exact Hok.
Qed.

Lemma open_levels_closed target stack lines :
  Stack.must_open target (snd (open_levels target stack lines)) = false.
Proof.
  funelim (open_levels target stack lines); [exact H|].
  cbn [snd]. now injection H as ->.
Qed.

Lemma sync_tail_ok target stack lines :
  Stack.must_open target stack = false ->
  levels_ok stack -> levels_ok (snd (sync_tail target stack lines)).
Proof.
  unfold sync_tail, Stack.must_open.
  destruct stack as [|top rest]; [discriminate|].
  intros -> [Htop Hrest].
  destruct (level top =? level target) eqn:E; cbn [andb].
  - destruct (Stack.differs top target); cbn [snd levels_ok]; [|now split].
    apply Z.eqb_eq in E. split; [congruence | exact Hrest].
  - now split.
Qed.

Lemma close_all_lists_empty stack : snd (close_all_lists stack) = [].
Proof. apply close_all_tracks. Qed.

Lemma sync_list_stack_ok target stack :
  levels_ok stack -> levels_ok (snd (sync_list_stack target stack)).
Proof.
  intros Hok. unfold sync_list_stack.
  destruct target as [target|]; [|now rewrite close_all_lists_empty].
  pose proof (close_deeper_ok target stack [] Hok) as H1.
  destruct (Stack.close_deeper target stack []) as [l1 s1].
  pose proof (close_same_level_ok target s1 l1 H1) as H2.
  destruct (Stack.close_same_level target s1 l1) as [l2 s2].
  pose proof (open_levels_ok target s2 l2 H2) as H3.
  pose proof (open_levels_closed target s2 l2) as H4.
  destruct (open_levels target s2 l2) as [l3 s3].
  now apply sync_tail_ok.
Qed.

Lemma sync_absent_drains stack : snd (sync_list_stack None stack) = [].
Proof. apply close_all_lists_empty. Qed.

End ListMachine.

(** ** The inline pipeline leaves the list stack alone *)

Section Frames.
Import Spec.

Variable py_int : string -> option Z.
Variable path_name : string -> string.
Variable self : Converter.

Lemma set_stack_same st : set_stack (list_stack st) st = st.
Proof. now destruct st. Qed.

Lemma blind_ret {A} (a : A) : stack_blind (mret a).
Proof. now intros st stack. Qed.

Lemma blind_bind {A B} (c : M A) (k : A -> M B) :
  stack_blind c -> (forall a, stack_blind (k a)) -> stack_blind (c ≫= k).
Proof.
  intros Hc Hk st stack. unfold mbind, M_bind. rewrite Hc.
  destruct (c st) as [[a st']|e]; [apply Hk | reflexivity].
Qed.

Lemma blind_for {A S} (body : A -> S -> M S) (l : list A) (acc : S) :
  (forall x a, stack_blind (body x a)) -> stack_blind (for_ body l acc).
Proof.
  intros Hbody. revert acc. induction l as [|x l IH]; intros acc; cbn [for_].
  - apply blind_ret.
  - apply blind_bind; [apply Hbody | exact IH].
Qed.

Lemma blind_lift_result {A} (r : result A) : stack_blind (lift_result r).
Proof. intros st stack. now destruct r. Qed.

Lemma blind_write name data : stack_blind (write_if_absent name data).
Proof. now intros st stack. Qed.

Ltac blind :=
  repeat first
    [ apply blind_ret
    | apply blind_lift_result
    | apply blind_write
    | match goal with H : forall _, stack_blind _ |- _ => apply H end
    | apply blind_bind; [|intros; cbv beta]
    | apply blind_for; intros; cbv beta
    | match goal with
      | |- stack_blind (match ?x with _ => _ end) => destruct x
      end ].

Lemma blind_convert_drawing drawing :
  stack_blind (_convert_drawing py_int path_name self drawing).
Proof. unfold _convert_drawing. blind. Qed.

Lemma blind_convert_run run : stack_blind (_convert_run py_int path_name self run).
Proof.
  unfold _convert_run, convert_run_child.
  pose proof blind_convert_drawing. blind.
Qed.

Lemma blind_hyperlink_runs hyperlink :
  stack_blind (hyperlink_runs py_int path_name self hyperlink).
Proof. unfold hyperlink_runs. pose proof blind_convert_run. blind. Qed.

Lemma blind_convert_hyperlink hyperlink :
  stack_blind (_convert_hyperlink py_int path_name self hyperlink).
Proof. unfold _convert_hyperlink. pose proof blind_hyperlink_runs. blind. Qed.

Lemma blind_collect_runs paragraph :
  stack_blind (_collect_runs py_int path_name self paragraph).
Proof.
  unfold _collect_runs, collect_runs_child.
  pose proof blind_convert_run. pose proof blind_convert_hyperlink. blind.
Qed.

Lemma blind_convert_table_cell cell :
  stack_blind (_convert_table_cell py_int path_name self cell).
Proof.
  unfold _convert_table_cell, table_cell_paragraph.
  pose proof blind_collect_runs. blind.
Qed.

Lemma blind_convert_table table :
  stack_blind (_convert_table py_int path_name self table).
Proof.
  unfold _convert_table, table_scan_row.
  pose proof blind_convert_table_cell. blind.
Qed.

End Frames.

(** ** Paragraphs and blocks *)

Section Blocks.
Import Spec.

Variable py_int : string -> option Z.
Variable path_name : string -> string.
Variable self : Converter.

Local Abbreviation collect_runs := (_collect_runs py_int path_name self).
Local Abbreviation convert_paragraph := (_convert_paragraph py_int path_name self).
Local Abbreviation convert_block := (_convert_block py_int path_name self).
Local Abbreviation extract_list_info := (_extract_list_info py_int self).

Lemma blind_keeps {A} (c : M A) st a st' :
  stack_blind c -> c st = Ok (a, st') -> list_stack st' = list_stack st.
Proof.
  intros Hc Hrun. specialize (Hc st (list_stack st)).
  rewrite set_stack_same, Hrun in Hc. injection Hc as Hc.
  rewrite Hc at 1. reflexivity.
Qed.

Lemma blind_moves {A} (c : M A) st a st' stack :
  stack_blind c -> c st = Ok (a, st') ->
  c (set_stack stack st) = Ok (a, set_stack stack st').
Proof. intros Hc Hrun. now rewrite Hc, Hrun. Qed.

Lemma on_stack_run f st :
  on_stack f st = Ok (fst (f (list_stack st)), set_stack (snd (f (list_stack st))) st).
Proof. unfold on_stack. now destruct (f (list_stack st)). Qed.

Lemma directive_begin e : is_directive (begin_line e) = true.
Proof. reflexivity. Qed.

Lemma directive_end state : is_directive (end_line state) = true.
Proof. reflexivity. Qed.

Lemma Forall_snoc_directive lines line :
  Forall (fun line => is_directive line = true) lines ->
  is_directive line = true ->
  Forall (fun line => is_directive line = true) (lines ++ [line]).
Proof. intros H1 H2. apply Forall_app; split; [exact H1 | now constructor]. Qed.

Lemma close_all_directives stack lines :
  emits_directives lines (Stack.close_all stack lines).
Proof.
  unfold emits_directives. revert lines.
  induction stack as [|state rest IH]; intros lines H; cbn [Stack.close_all];
    [exact H|].
  apply IH, Forall_snoc_directive; [exact H | apply directive_end].
Qed.

Lemma close_deeper_directives target stack lines :
  emits_directives lines (Stack.close_deeper target stack lines).
Proof.
  unfold emits_directives. revert lines.
  induction stack as [|top rest IH]; intros lines H; cbn [Stack.close_deeper];
    [exact H|].
  destruct (level top >? level target); [|exact H].
  apply IH, Forall_snoc_directive; [exact H | apply directive_end].
Qed.

Lemma close_same_level_directives target stack lines :
  emits_directives lines (Stack.close_same_level target stack lines).
Proof.
  unfold emits_directives, Stack.close_same_level. intros H.
  destruct stack as [|current rest]; [exact H|].
  destruct ((level current =? level target) && Stack.differs current target);
    [|exact H].
  apply Forall_snoc_directive; [exact H | apply directive_end].
Qed.

Lemma open_levels_directives target stack lines :
  emits_directives lines (open_levels target stack lines).
Proof.
  unfold emits_directives.
  funelim (open_levels target stack lines); intros Hl; [|exact Hl].
  apply H, Forall_snoc_directive; [exact Hl | apply directive_begin].
Qed.

Lemma sync_tail_directives target stack lines :
  emits_directives lines (sync_tail target stack lines).
Proof.
  unfold emits_directives, sync_tail. intros H.
  destruct stack as [|top rest].
  - apply Forall_snoc_directive; [exact H | apply directive_begin].
  - destruct (level top <? level target).
    + apply Forall_snoc_directive; [exact H | apply directive_begin].
    + destruct ((level top =? level target) && Stack.differs top target);
        [|exact H].
      repeat apply Forall_snoc_directive;
        [exact H | apply directive_end | apply directive_begin].
Qed.

Lemma sync_list_stack_directives target stack :
  Forall (fun line => is_directive line = true) (fst (sync_list_stack target stack)).
Proof.
  unfold sync_list_stack, close_all_lists.
  destruct target as [target|]; [|now apply close_all_directives].
  pose proof (close_deeper_directives target stack [] (Forall_nil_2 _)) as H1.
  destruct (Stack.close_deeper target stack []) as [l1 s1].
  pose proof (close_same_level_directives target s1 l1 H1) as H2.
  destruct (Stack.close_same_level target s1 l1) as [l2 s2].
  pose proof (open_levels_directives target s2 l2 H2) as H3.
  destruct (open_levels target s2 l2) as [l3 s3].
  now apply sync_tail_directives.
Qed.

Lemma directive_not_item line :
  is_directive line = true -> is_item line = false /\ line <> "".
Proof.
  unfold is_directive, is_open, is_close, is_item. intros H.
  split; [|intros ->; discriminate H].
  destruct line as [|c0 [|c1 rest]]; [reflexivity | |].
  - cbn. apply andb_false_r.
  - cbn [PyStr.startswith] in *.
    destruct (Ascii.eqb "\" c0); [|reflexivity]. cbn [andb] in *.
    destruct (Ascii.eqb_spec "i" c1) as [<-|]; [|reflexivity].
    cbn in H. discriminate H.
Qed.

End Blocks.

(** ** The block dispatcher and the stack *)

Section Dispatcher.
Import Spec.

Variable py_int : string -> option Z.
Variable path_name : string -> string.
Variable self : Converter.

Local Abbreviation convert_paragraph := (_convert_paragraph py_int path_name self).
Local Abbreviation convert_block := (_convert_block py_int path_name self).
Local Abbreviation extract_list_info := (_extract_list_info py_int self).

(** A body paragraph moves the stack as the machine does for its target. *)
Lemma convert_paragraph_stack paragraph suppress_list st lines st' :
  convert_paragraph paragraph false suppress_list st = Ok (lines, st') ->
  list_stack st'
  = snd (sync_list_stack
           (if suppress_list then None else extract_list_info paragraph)
           (list_stack st)).
Proof.
  unfold _convert_paragraph. cbn [negb].
  set (list_info := if suppress_list then None else extract_list_info paragraph).
  unfold mbind, M_bind, _sync_list_stack. rewrite on_stack_run.
  set (stack := snd (sync_list_stack list_info (list_stack st))).
  set (st1 := set_stack stack st).
  destruct (_collect_runs py_int path_name self paragraph st1)
    as [[[text_content block_fragments] st2]|e] eqn:Hruns; [|discriminate].
  apply (blind_keeps _ _ _ _ (blind_collect_runs _ _ _ _)) in Hruns.
  change (list_stack st1) with stack in Hruns.
  destruct list_info; [destruct (_ && _)|];
    unfold mret, M_ret; intros [= _ <-]; exact Hruns.
Qed.

Lemma close_all_lists_run st :
  _close_all_lists st
  = Ok (fst (close_all_lists (list_stack st)), set_stack [] st).
Proof.
  unfold _close_all_lists. rewrite on_stack_run. now rewrite close_all_lists_empty.
Qed.

(** A table is rendered on a drained stack: the closing directives come
    first, and the stack is empty afterwards. *)
Lemma table_drains element st lines st' :
  tag element = _q "w" "tbl" ->
  convert_block element st = Ok (lines, st') ->
  list_stack st' = []
  /\ exists table_lines,
       lines = (fst (close_all_lists (list_stack st)) ++ table_lines) ++ [""].
Proof.
  intros Htag. unfold _convert_block. rewrite Htag. cbn [String.eqb].
  replace (String.eqb (_q "w" "tbl") (_q "w" "p")) with false by reflexivity.
  rewrite String.eqb_refl.
  unfold mbind, M_bind. rewrite close_all_lists_run.
  destruct (_convert_table py_int path_name self element (set_stack [] st))
    as [[table_lines st2]|e] eqn:Htable; [|discriminate].
  apply (blind_keeps _ _ _ _ (blind_convert_table _ _ _ _)) in Htable.
  unfold mret, M_ret. intros [= <- <-]. split; [exact Htable | now eexists].
Qed.

Lemma section_break_drains element st lines st' :
  tag element = _q "w" "sectPr" ->
  convert_block element st = Ok (lines, st') ->
  list_stack st' = [] /\ lines = fst (close_all_lists (list_stack st)).
Proof.
  intros Htag. unfold _convert_block. rewrite Htag.
  replace (String.eqb (_q "w" "sectPr") (_q "w" "p")) with false by reflexivity.
  replace (String.eqb (_q "w" "sectPr") (_q "w" "tbl")) with false by reflexivity.
  rewrite String.eqb_refl, close_all_lists_run. now intros [= <- <-].
Qed.

Lemma plain_paragraph_drains element st lines st' :
  tag element = _q "w" "p" ->
  extract_list_info element = None ->
  convert_block element st = Ok (lines, st') ->
  list_stack st' = [].
Proof.
  intros Htag Hinfo. unfold _convert_block. rewrite Htag, String.eqb_refl.
  intros Hrun. apply convert_paragraph_stack in Hrun.
  rewrite Hrun, Hinfo. apply sync_absent_drains.
Qed.

(** Any other element is skipped, and the stack stays as it is. *)
Lemma unsupported_block_skipped element st :
  tag element <> _q "w" "p" ->
  tag element <> _q "w" "tbl" ->
  tag element <> _q "w" "sectPr" ->
  convert_block element st = Ok ([], st).
Proof.
  intros Hp Htbl Hsect. unfold _convert_block.
  apply String.eqb_neq in Hp, Htbl, Hsect. now rewrite Hp, Htbl, Hsect.
Qed.

(** The invariant of the stack holds along every run. *)
Lemma convert_block_levels_ok element st lines st' :
  levels_ok (list_stack st) ->
  convert_block element st = Ok (lines, st') ->
  levels_ok (list_stack st').
Proof.
  intros Hok Hrun.
  destruct (String.eqb_spec (tag element) (_q "w" "p")) as [Hp|Hp].
  { unfold _convert_block in Hrun. rewrite Hp, String.eqb_refl in Hrun.
    apply convert_paragraph_stack in Hrun. rewrite Hrun.
    now apply sync_list_stack_ok. }
  destruct (String.eqb_spec (tag element) (_q "w" "tbl")) as [Ht|Ht].
  { destruct (table_drains _ _ _ _ Ht Hrun) as [-> _]. exact I. }
  destruct (String.eqb_spec (tag element) (_q "w" "sectPr")) as [Hs|Hs].
  { destruct (section_break_drains _ _ _ _ Hs Hrun) as [-> _]. exact I. }
  rewrite unsupported_block_skipped in Hrun by assumption.
  now injection Hrun as _ <-.
Qed.

Lemma body_loop_levels_ok blocks acc st lines st' :
  levels_ok (list_stack st) ->
  for_ (fun child latex_lines =>
          block ← convert_block child; mret (latex_lines ++ block))
       blocks acc st = Ok (lines, st') ->
  levels_ok (list_stack st').
Proof.
  revert acc st. induction blocks as [|child rest IH]; intros acc st Hok; cbn [for_].
  - now intros [= _ <-].
  - unfold mbind, M_bind at 1. unfold mbind, M_bind at 1.
    destruct (convert_block child st) as [[block st1]|e] eqn:Hblock; [|discriminate].
    unfold mret, M_ret at 1. apply IH.
    eapply convert_block_levels_ok; eassumption.
Qed.

(** At the end of the document the stack is empty. *)
Lemma convert_body_drains body st lines st' :
  convert_body py_int path_name self body st = Ok (lines, st') ->
  list_stack st' = [].
Proof.
  unfold convert_body, mbind, M_bind.
  destruct (for_ _ (children body) [] st) as [[latex_lines st1]|e]; [|discriminate].
  rewrite close_all_lists_run. now intros [= _ <-].
Qed.

End Dispatcher.

(** C2.  The stack keeps its levels contiguous along every run, and it is
    drained before a plain paragraph, before a table, at a section break and
    at the end of the document (lemmas above).  It is NOT drained at a block
    element of any other kind, although the comment on that branch of
    [_convert_block] says that lists are closed there: after a list
    paragraph, an unsupported block leaves the stack at depth 1. *)
Theorem unsupported_block_leaves_list_open :
  let item := Sample.li "1" "0" [Sample.run [] "one"] in
  let other := Sample.elem (Sample.w "sdt") [] [] in
  let convert_block := _convert_block PyInt.parse PyPath.name Sample.conv in
  let st1 :=
    Spec.set_stack [ {| level := 0; env := "enumerate"; num_id := "1" |} ] Sample.st0 in
  convert_block item Sample.st0 = Ok (["\begin{enumerate}"; "\item one"], st1)
  /\ convert_block other st1 = Ok ([], st1)
  /\ length (list_stack st1) = 1%nat.
Proof. vm_compute. repeat split. Qed.

(** ** Hyperlinks *)

Section Hyperlinks.
Import Spec.

Variable py_int : string -> option Z.
Variable path_name : string -> string.
Variable self : Converter.

(** C10.  Let the runs of a hyperlink give the text parts [parts].  When the
    relationship identifier resolves but the concatenated text is empty, the
    empty text is returned without a hyperlink wrapper; the wrapper is
    produced when the identifier resolves and the text is not empty, and in
    no other case: an unresolved hyperlink yields the plain text. *)
Theorem hyperlink_wrapper_needs_text hyperlink st parts blocks st' :
  hyperlink_runs py_int path_name self hyperlink st = Ok ((parts, blocks), st') ->
  let text_value := PyStr.concat parts in
  let result := _convert_hyperlink py_int path_name self hyperlink st in
  (forall kind target,
      resolved_link self hyperlink = Some (kind, target) ->
      text_value = "" ->
      result = Ok (("", blocks), st'))
  /\ (forall kind target,
      resolved_link self hyperlink = Some (kind, target) ->
      text_value <> "" ->
      result = Ok ((href target text_value, blocks), st'))
  /\ (resolved_link self hyperlink = None ->
      result = Ok ((text_value, blocks), st')).
Proof.
  intros Hruns text_value result. subst result.
  unfold _convert_hyperlink, resolved_link, mbind, M_bind. rewrite Hruns.
  fold text_value. unfold mret, M_ret, href, PyStr.truthy.
  destruct (ET.get hyperlink (_q "r" "id")) as [rel_id|].
  2: { repeat split; intros; congruence. }
  destruct (String.eqb_spec rel_id ""); cbn [negb].
  { repeat split; intros; congruence. }
  destruct (relationships self !! rel_id) as [[kind target]|].
  2: { repeat split; intros; congruence. }
  destruct (String.eqb_spec text_value "") as [Hempty|Hfull]; cbn [negb].
  - repeat split; intros; try congruence.
  - repeat split; intros; try congruence.
Qed.

End Hyperlinks.

Lemma hyperlink_wrapper_needs_text_witness :
  _convert_hyperlink PyInt.parse PyPath.name Sample.conv (Sample.link "rId2" "")
    Sample.st0
  = Ok (("", []), Sample.st0)
  /\ _convert_hyperlink PyInt.parse PyPath.name Sample.conv (Sample.link "rId2" "a")
       Sample.st0
     = Ok ((Spec.href "http://example.org/a_b" "a", []), Sample.st0).
Proof.
  assert (hyperlink_runs PyInt.parse PyPath.name Sample.conv (Sample.link "rId2" "")
            Sample.st0 = Ok (([""], []), Sample.st0)) as Hempty
    by (vm_compute; reflexivity).
  assert (hyperlink_runs PyInt.parse PyPath.name Sample.conv (Sample.link "rId2" "a")
            Sample.st0 = Ok ((["a"], []), Sample.st0)) as Hfull
    by (vm_compute; reflexivity).
  pose proof (hyperlink_wrapper_needs_text _ _ _ _ _ _ _ _ Hempty) as (H1 & _ & _).
  pose proof (hyperlink_wrapper_needs_text _ _ _ _ _ _ _ _ Hfull) as (_ & H2 & _).
  split.
  - apply (H1 "http://schemas.openxmlformats.org/officeDocument/2006/relationships/hyperlink"
              "http://example.org/a_b");
      [vm_compute; reflexivity | reflexivity].
  - apply (H2 "http://schemas.openxmlformats.org/officeDocument/2006/relationships/hyperlink"
              "http://example.org/a_b");
      [vm_compute; reflexivity | discriminate].
Defined.

(** ** Defaults for missing and malformed attributes *)

Section Defaults.
Import Spec.

Variable py_int : string -> option Z.
Variable path_name : string -> string.
Variable self : Converter.

Local Abbreviation extract_list_info := (_extract_list_info py_int self).

(** C7.  (1) A list paragraph whose numbering identifier is not in the
    numbering map, or whose level has no entry there, gets the [itemize]
    environment.  (2) A list paragraph whose level element is missing, or
    whose level value does not parse (or is missing, ["0"] being read as 0),
    gets level 0.  (3) A cell whose span value does not parse gets span 1. *)
Theorem attributes_degrade_to_defaults :
  (forall paragraph target,
      extract_list_info paragraph = Some target ->
      (num_formats self !! num_id target = None
       \/ exists levels, num_formats self !! num_id target = Some levels
                         /\ levels !! level target = None) ->
      env target = "itemize")
  /\ (forall paragraph ppr num_pr num_id_elem id,
      ET.find paragraph (_q "w" "pPr") = Some ppr ->
      ET.find ppr (_q "w" "numPr") = Some num_pr ->
      ET.find num_pr (_q "w" "numId") = Some num_id_elem ->
      ET.get num_id_elem (_q "w" "val") = Some id ->
      id <> "" ->
      (ET.find num_pr (_q "w" "ilvl") = None
       \/ exists ilvl_elem,
            ET.find num_pr (_q "w" "ilvl") = Some ilvl_elem
            /\ (py_int (ET.get_or ilvl_elem (_q "w" "val") "0") = None
                \/ ET.get ilvl_elem (_q "w" "val") = None /\ py_int "0" = Some 0)) ->
      exists e, extract_list_info paragraph
                = Some {| level := 0; env := e; num_id := id |})
  /\ (forall tc cell_pr grid_span,
      ET.find tc (_q "w" "tcPr") = Some cell_pr ->
      ET.find cell_pr (_q "w" "gridSpan") = Some grid_span ->
      py_int (ET.get_or grid_span (_q "w" "val") "1") = None ->
      cell_span py_int tc = 1).
Proof.
  split; [|split].
  - intros paragraph target Hinfo Hmissing.
    unfold _extract_list_info in Hinfo.
    repeat match type of Hinfo with
           | match ?x with _ => _ end = _ => destruct x; [|discriminate Hinfo]
           | (if ?x then _ else _) = _ => destruct x; [discriminate Hinfo|]
           end.
    injection Hinfo as <-. cbn [env num_id level] in *.
    destruct Hmissing as [-> | (levels & -> & Hlevel)]; cbn [from_option]; unfold id.
    + now rewrite lookup_empty.
    + now rewrite Hlevel.
  - intros paragraph ppr num_pr num_id_elem id Hppr Hnum Hid Hval Hne Hlevel.
    unfold _extract_list_info. rewrite Hppr, Hnum, Hid, Hval.
    unfold PyStr.truthy. apply String.eqb_neq in Hne. rewrite Hne. cbn [negb].
    destruct Hlevel as [-> | (ilvl_elem & -> & [-> | [Hnone Hzero]])];
      [now eexists | now eexists |].
    unfold ET.get_or, ET.get in *. rewrite Hnone. cbn [default]. rewrite Hzero.
    now eexists.
  - intros tc cell_pr grid_span Hpr Hspan Hparse.
    unfold cell_span. now rewrite Hpr, Hspan, Hparse.
Qed.




End Defaults.

Lemma attributes_degrade_to_defaults_witness :
  (exists target,
      _extract_list_info PyInt.parse Sample.conv (Sample.li "9" "0" []) = Some target
      /\ env target = "itemize")
  /\ (exists e, _extract_list_info PyInt.parse Sample.conv (Sample.li "1" "two" [])
                = Some {| level := 0; env := e; num_id := "1" |})
  /\ cell_span PyInt.parse (Sample.tc "wide" []) = 1.
Proof.
  destruct (attributes_degrade_to_defaults PyInt.parse Sample.conv) as (H1 & H2 & H3).
  split; [|split].
  - exists {| level := 0; env := "itemize"; num_id := "9" |}.
    assert (_extract_list_info PyInt.parse Sample.conv (Sample.li "9" "0" [])
            = Some {| level := 0; env := "itemize"; num_id := "9" |}) as Hinfo
      by (vm_compute; reflexivity).
    split; [exact Hinfo|].
    apply (H1 _ _ Hinfo). left. vm_compute. reflexivity.
  - apply (H2 (Sample.li "1" "two" []) (Sample.pPr "1" "two") (Sample.numPr "1" "two")
              (Sample.numId "1") "1").
    + vm_compute. reflexivity.
    + vm_compute. reflexivity.
    + vm_compute. reflexivity.
    + vm_compute. reflexivity.
    + discriminate.
    + right. exists (Sample.ilvl "two"). split; [vm_compute; reflexivity|].
      left. vm_compute. reflexivity.
  - apply (H3 (Sample.tc "wide" []) (Sample.tcPr "wide") (Sample.gridSpan "wide")).
    + vm_compute. reflexivity.
    + vm_compute. reflexivity.
    + vm_compute. reflexivity.
Defined.


(** ** The table composer *)

Section Tables.
Import Spec.

Variable py_int : string -> option Z.
Variable path_name : string -> string.
Variable self : Converter.

(** the shape of a scanned row: one entry per cell, with the cell's span *)
Local Abbreviation row_of tr row :=
  (map snd row = map (cell_span py_int) (ET.findall tr (_q "w" "tc"))).

Lemma row_cells_scan tcs acc st cells st' :
  for_ (fun tc row_cells =>
          let span := cell_span py_int tc in
          cell_text ← _convert_table_cell py_int path_name self tc;
          mret (row_cells ++ [(cell_text, span)]))
       tcs acc st = Ok (cells, st') ->
  exists new, cells = acc ++ new /\ map snd new = map (cell_span py_int) tcs.
Proof.
  revert acc st. induction tcs as [|tc rest IH]; intros acc st; cbn [for_].
  - intros [= <- _]. exists []. now rewrite app_nil_r.
  - unfold mbind, M_bind at 1. unfold mbind, M_bind at 1.
    destruct (_convert_table_cell py_int path_name self tc st)
      as [[cell_text st1]|e]; [|discriminate].
    unfold mret, M_ret at 1. intros Hrest.
    destruct (IH _ _ Hrest) as (new & -> & Hnew).
    exists ((cell_text, cell_span py_int tc) :: new). split.
    + now rewrite <- app_assoc.
    + cbn [map snd]. now rewrite Hnew.
Qed.

Lemma table_scan trs rows_acc max_acc st rows_data max_cols st' :
  for_ (table_scan_row py_int path_name self) trs (rows_acc, max_acc) st
  = Ok ((rows_data, max_cols), st') ->
  exists new,
    rows_data = rows_acc ++ new
    /\ Forall2 (fun tr row => row_of tr row) trs new
    /\ max_cols = foldl (fun m row => Z.max m (span_total row)) max_acc new.
Proof.
  revert rows_acc max_acc st.
  induction trs as [|tr rest IH]; intros rows_acc max_acc st; cbn [for_].
  - intros [= <- <- _]. exists []. rewrite app_nil_r. repeat split. constructor.
  - unfold mbind, M_bind at 1. unfold table_scan_row at 1.
    unfold mbind, M_bind at 1.
    destruct (for_ _ (ET.findall tr (_q "w" "tc")) [] st)
      as [[row_cells st1]|e] eqn:Hrow; [|discriminate].
    unfold mret, M_ret at 1. intros Hrest.
    destruct (row_cells_scan _ _ _ _ _ Hrow) as (cells & -> & Hcells).
    destruct (IH _ _ _ Hrest) as (new & -> & Hshape & ->).
    exists (cells :: new). cbn [app] in *. split; [|split].
    + now rewrite <- app_assoc.
    + now constructor.
    + reflexivity.
Qed.

Lemma span_total_max row t :
  0 <= t -> Z.max 1 (Z.max t (span_total row)) = Z.max (row_span_sum row) (Z.max 1 t).
Proof.
  unfold span_total, row_span_sum.
  destruct (Z.eqb_spec (foldr Z.add 0 (map snd row)) 0) as [->|]; lia.
Qed.

Lemma scanned_max_cols rows t :
  0 <= t ->
  0 <= foldl (fun m row => Z.max m (span_total row)) t rows
  /\ Z.max 1 (foldl (fun m row => Z.max m (span_total row)) t rows)
     = Z.max (foldr Z.max 1 (map row_span_sum rows)) (Z.max 1 t).
Proof.
  revert t. induction rows as [|row rest IH]; intros t Ht; cbn [foldl foldr map].
  - split; lia.
  - destruct (IH (Z.max t (span_total row)) ltac:(lia)) as [H1 H2].
    split; [exact H1|]. rewrite H2, span_total_max by exact Ht. lia.
Qed.

Lemma final_max_cols rows :
  let max_cols := foldl (fun m row => Z.max m (span_total row)) 0 rows in
  (if max_cols =? 0 then 1 else max_cols) = column_count rows.
Proof.
  intros max_cols. unfold column_count.
  destruct (scanned_max_cols rows 0 ltac:(lia)) as [H1 H2]. fold max_cols in H1, H2.
  assert (1 <= foldr Z.max 1 (map row_span_sum rows)) as Hone.
  { clear. induction rows; cbn; lia. }
  destruct (Z.eqb_spec max_cols 0); lia.
Qed.

Lemma render_cell_wide max_cols text span :
  1 < span ->
  render_cell max_cols (text, span)
  = "\multicolumn{" +:+ PyStr.of_Z span +:+ "}{|p{" +:+ column_width max_cols
      +:+ "}|}{" +:+ cell_content text +:+ "}".
Proof.
  intros Hspan. unfold render_cell, cell_content, PyStr.truthy.
  replace (span >? 1) with true by (symmetry; apply Z.gtb_lt; lia).
  now destruct (String.eqb text "").
Qed.

Lemma render_cell_single max_cols text :
  render_cell max_cols (text, 1) = cell_content text.
Proof.
  unfold render_cell, cell_content, PyStr.truthy. cbn [Z.gtb Z.compare].
  now destruct (String.eqb text "").
Qed.

(** the cells of a scanned row are the cells as [_convert_table_cell] reads
    them, in order *)
Lemma row_cells_run tcs acc st cells st' :
  for_ (fun tc row_cells =>
          let span := cell_span py_int tc in
          cell_text ← _convert_table_cell py_int path_name self tc;
          mret (row_cells ++ [(cell_text, span)]))
       tcs acc st = Ok (cells, st') ->
  exists new,
    run_each (scan_cell py_int path_name self) tcs st = Ok (new, st')
    /\ cells = acc ++ new.
Proof.
  revert acc st. induction tcs as [|tc rest IH]; intros acc st H; cbn [for_] in H.
  - injection H as <- <-. exists []. now rewrite app_nil_r.
  - unfold mbind at 1, M_bind at 1 in H. unfold mbind at 1, M_bind at 1 in H.
    destruct (_convert_table_cell py_int path_name self tc st)
      as [[cell_text st1]|e] eqn:Hcell; [|discriminate].
    unfold mret at 1, M_ret at 1 in H.
    destruct (IH _ _ H) as (new & Hrun & ->).
    exists ((cell_text, cell_span py_int tc) :: new). split.
    + assert (scan_cell py_int path_name self tc st
              = Ok ((cell_text, cell_span py_int tc), st1)) as Hscan
        by (unfold scan_cell, mbind, M_bind; now rewrite Hcell).
      cbn [run_each]. unfold mbind, M_bind. now rewrite Hscan, Hrun.
    + now rewrite <- app_assoc.
Qed.

Lemma table_rows_run trs rows_acc max_acc st rows_data max_cols st' :
  for_ (table_scan_row py_int path_name self) trs (rows_acc, max_acc) st
  = Ok ((rows_data, max_cols), st') ->
  exists new,
    run_each (scan_row py_int path_name self) trs st = Ok (new, st')
    /\ rows_data = rows_acc ++ new.
Proof.
  revert rows_acc max_acc st.
  induction trs as [|tr rest IH]; intros rows_acc max_acc st H; cbn [for_] in H.
  - injection H as <- _ <-. exists []. now rewrite app_nil_r.
  - unfold mbind at 1, M_bind at 1 in H. unfold table_scan_row at 1 in H.
    unfold mbind at 1, M_bind at 1 in H.
    destruct (for_ _ (ET.findall tr (_q "w" "tc")) [] st)
      as [[row_cells st1]|e] eqn:Hrow; [|discriminate].
    unfold mret at 1, M_ret at 1 in H.
    destruct (row_cells_run _ _ _ _ _ Hrow) as (cells & Hcells & ->).
    destruct (IH _ _ _ H) as (new & Hrun & ->).
    exists (cells :: new). split.
    + change (scan_row py_int path_name self tr st = Ok (cells, st1)) in Hcells.
      cbn [run_each]. unfold mbind, M_bind. now rewrite Hcells, Hrun.
    + cbn [app]. now rewrite <- app_assoc.
Qed.

(** C6 (as the code has it).  The table has [N] columns, [N] being the
    maximum of the rows' span sums and at least 1: the column specification
    lists [N] columns of the per-column width, and every row is rendered
    from its own cells only, joined by [" & "], with no cell added to a row
    whose span sum is below [N].  The cells of a row are the cells of the
    table's row, in order, each with the text [_convert_table_cell] returns
    for it and with its span.  A cell of span 1 shows this text (the
    placeholder when it is empty); a cell of span above 1 is a merge
    directive over [span] columns whose paragraph width is the per-column
    width itself, around this text. *)
Theorem table_layout table st lines st' :
  _convert_table py_int path_name self table st = Ok (lines, st') ->
  exists rows_data,
    let N := column_count rows_data in
    run_each (scan_row py_int path_name self) (ET.findall table (_q "w" "tr")) st
    = Ok (rows_data, st')
    /\ Forall2 (fun tr row => row_of tr row) (ET.findall table (_q "w" "tr")) rows_data
    /\ 1 <= N
    /\ lines
       = [ "\begin{longtable}{|"
             +:+ PyStr.join "|" (replicate (Z.to_nat N) ("p{" +:+ column_width N +:+ "}"))
             +:+ "|}";
           "\hline" ]
         ++ concat (map (fun row =>
                           [ PyStr.join " & " (map (render_cell N) row) +:+ " \\";
                             "\hline" ])
                        rows_data)
         ++ [ "\end{longtable}" ]
    /\ (forall text, render_cell N (text, 1) = cell_content text)
    /\ (forall text span,
          1 < span ->
          render_cell N (text, span)
          = "\multicolumn{" +:+ PyStr.of_Z span +:+ "}{|p{" +:+ column_width N
              +:+ "}|}{" +:+ cell_content text +:+ "}").
Proof.
  unfold _convert_table, mbind, M_bind.
  destruct (for_ _ (ET.findall table (_q "w" "tr")) ([], 0) st)
    as [[[rows_data max_cols] st1]|e] eqn:Hscan; [|discriminate].
  unfold mret, M_ret. intros [= <- <-].
  destruct (table_scan _ _ _ _ _ _ _ Hscan) as (new & Hrows & Hshape & Hmax).
  cbn [app] in Hrows. subst new. exists rows_data.
  pose proof (final_max_cols rows_data) as Hfinal. cbv zeta in Hfinal.
  rewrite <- Hmax in Hfinal.
  split.
  { destruct (table_rows_run _ _ _ _ _ _ _ Hscan) as (new & Hrun & Hnew).
    cbn [app] in Hnew. now subst new. }
  split; [exact Hshape|]. split.
  { unfold column_count. clear. induction rows_data; cbn; lia. }
  split; [|split].
  - unfold render_table, render_row, column_spec. rewrite Hfinal.
    rewrite <- app_assoc. f_equal. f_equal.
    rewrite !string_app_assoc. reflexivity.
  - apply render_cell_single.
  - apply render_cell_wide.
Qed.

End Tables.

(** span sums 2, 3 and 1 give three columns; the first row keeps its one
    cell *)
Example table_span_sums_2_3_1 :
  let cell span text := Sample.tc span [Sample.p [Sample.run [] text]] in
  let table :=
    Sample.tbl [ Sample.tr [cell "2" "a"];
                 Sample.tr [cell "1" "b"; cell "2" ""];
                 Sample.tr [cell "1" "c"] ] in
  Spec.column_count [ [("a", 2)]; [("b", 1); ("", 2)]; [("c", 1)] ] = 3
  /\ _convert_table PyInt.parse PyPath.name Sample.conv table Sample.st0
     = Ok ([ "\begin{longtable}{|p{\dimexpr\linewidth/3-2\tabcolsep\relax}|p{\dimexpr\linewidth/3-2\tabcolsep\relax}|p{\dimexpr\linewidth/3-2\tabcolsep\relax}|}";
             "\hline";
             "\multicolumn{2}{|p{\dimexpr\linewidth/3-2\tabcolsep\relax}|}{a} \\";
             "\hline";
             "b & \multicolumn{2}{|p{\dimexpr\linewidth/3-2\tabcolsep\relax}|}{\quad{}} \\";
             "\hline";
             "c \\";
             "\hline";
             "\end{longtable}" ], Sample.st0).
Proof. vm_compute. split; reflexivity. Qed.

Lemma table_layout_witness :
  let cell span text := Sample.tc span [Sample.p [Sample.run [] text]] in
  let table :=
    Sample.tbl [ Sample.tr [cell "2" "a"];
                 Sample.tr [cell "1" "b"; cell "2" ""];
                 Sample.tr [cell "1" "c"] ] in
  let lines :=
    [ "\begin{longtable}{|p{\dimexpr\linewidth/3-2\tabcolsep\relax}|p{\dimexpr\linewidth/3-2\tabcolsep\relax}|p{\dimexpr\linewidth/3-2\tabcolsep\relax}|}";
      "\hline";
      "\multicolumn{2}{|p{\dimexpr\linewidth/3-2\tabcolsep\relax}|}{a} \\";
      "\hline";
      "b & \multicolumn{2}{|p{\dimexpr\linewidth/3-2\tabcolsep\relax}|}{\quad{}} \\";
      "\hline";
      "c \\";
      "\hline";
      "\end{longtable}" ] in
  _convert_table PyInt.parse PyPath.name Sample.conv table Sample.st0
  = Ok (lines, Sample.st0)
  /\ exists rows_data,
       let N := Spec.column_count rows_data in
       rows_data = [ [("a", 2)]; [("b", 1); ("", 2)]; [("c", 1)] ]
       /\ N = 3
       /\ Spec.run_each (Spec.scan_row PyInt.parse PyPath.name Sample.conv)
            (ET.findall table (_q "w" "tr")) Sample.st0
          = Ok (rows_data, Sample.st0)
       /\ Forall2 (fun tr row =>
                     map snd row
                     = map (cell_span PyInt.parse) (ET.findall tr (_q "w" "tc")))
                  (ET.findall table (_q "w" "tr")) rows_data
       /\ lines
          = [ "\begin{longtable}{|"
                +:+ PyStr.join "|"
                      (replicate (Z.to_nat N) ("p{" +:+ column_width N +:+ "}"))
                +:+ "|}";
              "\hline" ]
            ++ concat (map (fun row =>
                              [ PyStr.join " & " (map (render_cell N) row) +:+ " \\";
                                "\hline" ])
                           rows_data)
            ++ [ "\end{longtable}" ].
Proof.
  intros cell table lines.
  assert (_convert_table PyInt.parse PyPath.name Sample.conv table Sample.st0
          = Ok (lines, Sample.st0)) as Hrun by reflexivity.
  split; [exact Hrun|].
  destruct (table_layout PyInt.parse PyPath.name Sample.conv table Sample.st0 lines
              Sample.st0 Hrun) as (rows_data & Hcells & Hspans & _ & Hlines & _).
  exists rows_data.
  assert (rows_data = [ [("a", 2)]; [("b", 1); ("", 2)]; [("c", 1)] ]) as Hrows.
  { assert (Spec.run_each (Spec.scan_row PyInt.parse PyPath.name Sample.conv)
              (ET.findall table (_q "w" "tr")) Sample.st0
            = Ok ([ [("a", 2)]; [("b", 1); ("", 2)]; [("c", 1)] ], Sample.st0)) as Hlit
      by reflexivity.
    rewrite Hlit in Hcells. now injection Hcells as <-. }
  split; [exact Hrows|]. split; [now rewrite Hrows|].
  split; [exact Hcells|]. split; [exact Hspans | exact Hlines].
Defined.

(** C6 (as stated) fails where it sizes the merge directive to [span] times
    the per-column width: the directive of a cell of span 2 in a table of two
    columns carries the width of ONE column, the very expression of the
    column specification; read as a length it is not twice that width. *)
Lemma merge_directive_width_counterexample :
  let page := {| Spec.linewidth := 10; Spec.tabcolsep := 1 |} in
  render_table [ [("a", 2)] ] 2
  = [ "\begin{longtable}{|p{\dimexpr\linewidth/2-2\tabcolsep\relax}|p{\dimexpr\linewidth/2-2\tabcolsep\relax}|}";
      "\hline";
      "\multicolumn{2}{|p{\dimexpr\linewidth/2-2\tabcolsep\relax}|}{a} \\";
      "\hline";
      "\end{longtable}" ]
  /\ render_cell 2 ("a", 2) = "\multicolumn{2}{|p{" +:+ column_width 2 +:+ "}|}{a}"
  /\ ~ (Spec.column_width_value page 2 == 2 * Spec.column_width_value page 2)%Q.
Proof.
  intros page. split; [reflexivity|]. split; [reflexivity|].
  vm_compute. discriminate.
Qed.

(** ** White space in paragraphs and in table cells *)

Section WhiteSpace.
Import Spec.

Lemma rstrip_cons c s :
  PyStr.is_space c = false -> PyStr.rstrip (String c s) = String c (PyStr.rstrip s).
Proof. intros Hc. cbn [PyStr.rstrip]. rewrite Hc. now destruct (PyStr.rstrip s). Qed.

Lemma lstrip_sub_spaces_true s :
  PyStr.lstrip (PyStr.sub_spaces_from true s) = PyStr.sub_spaces_from true s.
Proof.
  induction s as [|c r IH]; cbn [PyStr.sub_spaces_from]; [reflexivity|].
  destruct (PyStr.is_space c) eqn:Hc; [exact IH|].
  cbn [PyStr.lstrip]. now rewrite Hc.
Qed.

Lemma lstrip_sub_spaces s :
  PyStr.lstrip (PyStr.sub_spaces s) = PyStr.sub_spaces_from true s.
Proof.
  unfold PyStr.sub_spaces.
  destruct s as [|c r]; cbn [PyStr.sub_spaces_from]; [reflexivity|].
  destruct (PyStr.is_space c) eqn:Hc; cbn [PyStr.lstrip].
  - change (PyStr.is_space " ") with true. cbv iota. apply lstrip_sub_spaces_true.
  - now rewrite Hc.
Qed.

Lemma words_nonempty_strings s : Forall (fun w => w <> "") (words s).
Proof.
  induction s as [|c r IH]; cbn [words]; [constructor|].
  destruct (PyStr.is_space c); [exact IH|].
  destruct r as [|c' r']; [now repeat constructor|].
  destruct (PyStr.is_space c'); [now constructor|].
  destruct (words (String c' r')) as [|w ws]; [now repeat constructor|].
  inversion IH; subst. now constructor.
Qed.

Lemma join_words_empty s : PyStr.join " " (words s) = "" -> words s = [].
Proof.
  pose proof (words_nonempty_strings s) as H.
  destruct (words s) as [|w ws]; [reflexivity|].
  inversion H as [|? ? Hw _]; subst.
  destruct w as [|a w]; [contradiction|].
  unfold PyStr.join. cbn [String.concat]. destruct ws; discriminate.
Qed.

Lemma join_cons_char c w ws :
  PyStr.join " " (String c w :: ws) = String c (PyStr.join " " (w :: ws)).
Proof. unfold PyStr.join. cbn [String.concat]. now destruct ws. Qed.

(** what is left of a text once its white space is collapsed and its end is
    trimmed, when scanning starts inside ([true]) or outside ([false]) a run
    of white space *)
Lemma rstrip_sub_spaces_words s :
  PyStr.rstrip (PyStr.sub_spaces_from true s) = PyStr.join " " (words s)
  /\ PyStr.rstrip (PyStr.sub_spaces_from false s)
     = (if starts_with_space s
        then (if words s is [] then "" else String " " (PyStr.join " " (words s)))
        else PyStr.join " " (words s)).
Proof.
  induction s as [|c r [IHtrue IHfalse]]; [now split|].
  cbn [PyStr.sub_spaces_from starts_with_space].
  destruct (PyStr.is_space c) eqn:Hc.
  - assert (words (String c r) = words r) as Hw by (cbn [words]; now rewrite Hc).
    rewrite Hw. split; [exact IHtrue|].
    cbn [PyStr.rstrip]. rewrite IHtrue.
    change (PyStr.is_space " ") with true. cbv iota.
    destruct (PyStr.join " " (words r)) eqn:Hj.
    + now rewrite (join_words_empty _ Hj).
    + destruct (words r); [discriminate Hj | reflexivity].
  - rewrite (rstrip_cons _ _ Hc), IHfalse.
    assert (String c (if starts_with_space r
                      then if words r is [] then "" else String " " (PyStr.join " " (words r))
                      else PyStr.join " " (words r))
            = PyStr.join " " (words (String c r))) as Hgoal.
    { cbn [words]. rewrite Hc.
      destruct r as [|c' r']; [reflexivity|].
      cbn [starts_with_space].
      destruct (PyStr.is_space c') eqn:Hc'.
      - unfold PyStr.join at 2. cbn [String.concat].
        destruct (words (String c' r')); reflexivity.
      - pose proof (words_nonempty_strings (String c' r')) as Hne.
        assert (words (String c' r') <> []) as Hnil.
        { cbn [words]. rewrite Hc'. destruct r' as [|c2 r2]; [discriminate|].
          destruct (PyStr.is_space c2); [discriminate|].
          destruct (words (String c2 r2)); discriminate. }
        destruct (words (String c' r')) as [|w ws]; [contradiction|].
        now rewrite join_cons_char. }
    now split.
Qed.

(** the normalization is Python's [" ".join(text.split())] *)
Lemma normalize_whitespace_words text :
  normalize_whitespace text = PyStr.join " " (words text).
Proof.
  unfold normalize_whitespace, PyStr.strip.
  rewrite lstrip_sub_spaces. apply rstrip_sub_spaces_words.
Qed.

Lemma lstrip_split s :
  exists l, s = l +:+ PyStr.lstrip s
            /\ all_space l = true
            /\ starts_with_space (PyStr.lstrip s) = false.
Proof.
  induction s as [|c r (l & Hs & Hl & Hstart)]; [now exists ""|].
  cbn [PyStr.lstrip]. destruct (PyStr.is_space c) eqn:Hc.
  - exists (String c l). cbn. rewrite Hc, Hl, <- Hs. now repeat split.
  - exists "". cbn. now rewrite Hc.
Qed.

Lemma rstrip_split s :
  exists r, s = PyStr.rstrip s +:+ r
            /\ all_space r = true
            /\ ends_with_space (PyStr.rstrip s) = false.
Proof.
  induction s as [|c t (r & Ht & Hr & Hend)]; [now exists ""|].
  cbn [PyStr.rstrip]. destruct (PyStr.rstrip t) as [|a b] eqn:Hstrip.
  - cbn in Ht. subst t. destruct (PyStr.is_space c) eqn:Hc.
    + exists (String c r). cbn. rewrite Hc, Hr. now repeat split.
    + exists r. cbn. rewrite Hc. now repeat split.
  - exists r. split; [now rewrite Ht at 1|]. split; [exact Hr | exact Hend].
Qed.

Lemma rstrip_keeps_start s :
  starts_with_space s = false -> starts_with_space (PyStr.rstrip s) = false.
Proof.
  destruct s as [|c t]; [trivial|]. cbn [starts_with_space]. intros Hc.
  now rewrite (rstrip_cons _ _ Hc).
Qed.

(** trimming removes white space at both ends and nothing else *)
Lemma strip_split text :
  exists l r,
    text = l +:+ PyStr.strip text +:+ r
    /\ all_space l = true /\ all_space r = true
    /\ starts_with_space (PyStr.strip text) = false
    /\ ends_with_space (PyStr.strip text) = false.
Proof.
  unfold PyStr.strip.
  destruct (lstrip_split text) as (l & Hl & Hlspace & Hstart).
  destruct (rstrip_split (PyStr.lstrip text)) as (r & Hr & Hrspace & Hend).
  exists l, r. rewrite <- Hr, <- Hl.
  repeat split; try assumption. now apply rstrip_keeps_start.
Qed.

End WhiteSpace.

Section ParagraphAndCell.
Import Spec.

Variable py_int : string -> option Z.
Variable path_name : string -> string.
Variable self : Converter.

Local Abbreviation collect_runs := (_collect_runs py_int path_name self).

(** every paragraph outside a table: the lines of the list machine, then the
    lines made of the normalized text, then the blocks, then the blank line *)
Lemma paragraph_text paragraph (suppress_list : bool) st text block_fragments st1 :
  collect_runs paragraph st = Ok ((text, block_fragments), st1) ->
  let list_info : option ListState :=
    if suppress_list then None else _extract_list_info py_int self paragraph in
  let sync := sync_list_stack list_info (list_stack st) in
  let lines :=
    fst sync
    ++ text_lines list_info (_paragraph_style paragraph)
         (normalize_whitespace text) block_fragments
    ++ block_fragments in
  _convert_paragraph py_int path_name self paragraph false suppress_list st
  = Ok (lines ++ blank_after list_info lines, set_stack (snd sync) st1).
Proof.
  intros Hruns list_info sync lines. subst lines.
  unfold _convert_paragraph. fold list_info. cbn [negb].
  unfold mbind, M_bind, _sync_list_stack. rewrite on_stack_run. fold sync.
  rewrite (blind_moves _ _ _ _ (snd sync) (blind_collect_runs _ _ _ _) Hruns).
  generalize (fst sync) as sync_lines. intros sync_lines.
  unfold mret, M_ret, text_lines, blank_after.
  destruct list_info as [state|].
  - destruct (PyStr.truthy (normalize_whitespace text)); cbn [negb andb].
    + now rewrite app_nil_r, <- app_assoc.
    + destruct block_fragments as [|block blocks]; cbn [app].
      * now rewrite !app_nil_r.
      * now rewrite app_nil_r, <- app_assoc.
  - unfold plain_paragraph_lines.
    destruct (PyStr.truthy (normalize_whitespace text));
      cbn [negb]; rewrite ?andb_true_r, ?andb_false_r;
      repeat match goal with
             | |- context [if ?c then _ else _] => destruct c
             end;
      rewrite <- ?app_assoc; cbn [app];
      match goal with
      | |- context [last ?L] => destruct (last L) as [l|]
      end;
      try (destruct (PyStr.truthy l)); cbn [negb];
      rewrite ?app_nil_r, <- ?app_assoc; reflexivity.
Qed.

(** a cell: the paragraphs are read in turn, and each gives its trimmed
    text and its blocks *)
Lemma cell_paragraphs paragraphs parts st :
  for_ (table_cell_paragraph py_int path_name self) paragraphs parts st
  = (results ← run_each collect_runs paragraphs;
     mret (parts ++ concat (map cell_parts results))) st.
Proof.
  revert parts st. induction paragraphs as [|paragraph rest IH]; intros parts st.
  - cbn [for_ run_each]. unfold mbind, M_bind, mret, M_ret. cbn [map concat].
    now rewrite app_nil_r.
  - cbn [for_ run_each]. unfold mbind at 1 3, M_bind at 1 3.
    unfold table_cell_paragraph at 1. unfold mbind at 1 2, M_bind at 1 2.
    destruct (collect_runs paragraph st) as [[[text blocks] st1]|e]; [|reflexivity].
    unfold mret at 1, M_ret at 1. rewrite IH. unfold mbind, M_bind.
    destruct (run_each collect_runs rest st1) as [[results st2]|e]; [|reflexivity].
    unfold mret, M_ret. cbn [map concat]. unfold cell_parts. cbn [fst snd].
    destruct (PyStr.truthy (PyStr.strip text)); now rewrite <- !app_assoc.
Qed.

Lemma table_cell_text cell st :
  _convert_table_cell py_int path_name self cell st
  = (results ← run_each collect_runs (ET.findall cell (_q "w" "p"));
     mret (PyStr.join " \\ "
             (List.filter PyStr.truthy (concat (map cell_parts results))))) st.
Proof.
  unfold _convert_table_cell. unfold mbind at 1, M_bind at 1.
  rewrite cell_paragraphs. unfold mbind, M_bind.
  now destruct (run_each collect_runs _ st) as [[results st1]|e].
Qed.

(** C4 (as the code has it).  The text of every paragraph outside a table
    is normalized before anything is made of it: whether the paragraph is a
    list item, a heading, a title or plain text, with blocks or without,
    what it emits is the lines of the list machine, the lines made of the
    normalized text of its runs, its blocks, and the blank line; and the
    normalized text is the words of the text joined by single spaces.  The
    text of a paragraph in a table cell is only trimmed, by the string's own
    trimming and not by the normalization function: every paragraph of the
    cell gives the text of its runs with the white space at both ends
    removed and the text between kept as it is, then its blocks, and the
    cell is these parts, the empty ones left out, joined by a break. *)
Theorem whitespace_paragraph_and_cell :
  (forall paragraph (suppress_list : bool) st text block_fragments st1,
      collect_runs paragraph st = Ok ((text, block_fragments), st1) ->
      let list_info : option ListState :=
        if suppress_list then None else _extract_list_info py_int self paragraph in
      let sync := sync_list_stack list_info (list_stack st) in
      let lines :=
        fst sync
        ++ text_lines list_info (_paragraph_style paragraph)
             (normalize_whitespace text) block_fragments
        ++ block_fragments in
      _convert_paragraph py_int path_name self paragraph false suppress_list st
      = Ok (lines ++ blank_after list_info lines, set_stack (snd sync) st1))
  /\ (forall text, normalize_whitespace text = PyStr.join " " (words text))
  /\ (forall cell st,
      _convert_table_cell py_int path_name self cell st
      = (results ← run_each collect_runs (ET.findall cell (_q "w" "p"));
         mret (PyStr.join " \\ "
                 (List.filter PyStr.truthy (concat (map cell_parts results))))) st)
  /\ (forall text,
      exists l r,
        text = l +:+ PyStr.strip text +:+ r
        /\ all_space l = true /\ all_space r = true
        /\ starts_with_space (PyStr.strip text) = false
        /\ ends_with_space (PyStr.strip text) = false).
Proof.
  split; [exact paragraph_text|].
  split; [exact normalize_whitespace_words|].
  split; [exact table_cell_text | exact strip_split].
Qed.

End ParagraphAndCell.

Lemma whitespace_paragraph_and_cell_witness :
  let heading :=
    Sample.elem (Sample.w "p") []
      [ Sample.elem (Sample.w "pPr") []
          [Sample.elem (Sample.w "pStyle") (Sample.val "Heading1") []];
        Sample.run [] "  a   b " ] in
  let item := Sample.li "1" "0" [Sample.run [] "  a   b "] in
  let cell :=
    Sample.tc "1" [Sample.p [Sample.run [] "  a   b "]; Sample.p [Sample.run [] " c  d"]] in
  _convert_paragraph PyInt.parse PyPath.name Sample.conv heading false false Sample.st0
  = Ok (["\section{a b}"; ""], Sample.st0)
  /\ _convert_paragraph PyInt.parse PyPath.name Sample.conv item false false Sample.st0
     = Ok (["\begin{enumerate}"; "\item a b"],
           Spec.set_stack [ {| level := 0; env := "enumerate"; num_id := "1" |} ]
             Sample.st0)
  /\ _convert_table_cell PyInt.parse PyPath.name Sample.conv cell Sample.st0
     = Ok ("a   b \\ c  d", Sample.st0).
Proof.
  intros heading item cell.
  destruct (whitespace_paragraph_and_cell PyInt.parse PyPath.name Sample.conv)
    as (Hparagraph & _ & Hcell & _).
  split; [|split].
  - exact (Hparagraph heading false Sample.st0 "  a   b " [] Sample.st0 eq_refl).
  - exact (Hparagraph item false Sample.st0 "  a   b " [] Sample.st0 eq_refl).
  - exact (Hcell cell Sample.st0).
Defined.

(** C4 (as stated) fails where it has the cell reuse the normalization
    function: a cell whose text has two spaces between its words keeps both,
    where the normalization leaves one. *)
Lemma cell_text_not_normalized_counterexample :
  let paragraph := Sample.p [Sample.run [] "a  b"] in
  let cell := Sample.tc "1" [paragraph] in
  _collect_runs PyInt.parse PyPath.name Sample.conv paragraph Sample.st0
  = Ok (("a  b", []), Sample.st0)
  /\ _convert_table_cell PyInt.parse PyPath.name Sample.conv cell Sample.st0
     = Ok ("a  b", Sample.st0)
  /\ normalize_whitespace "a  b" = "a b"
  /\ _convert_table_cell PyInt.parse PyPath.name Sample.conv cell Sample.st0
     <> Ok (normalize_whitespace "a  b", Sample.st0).
Proof. vm_compute. repeat split. discriminate. Qed.

(** ** A whole body

    A first-level heading, two items of a numbered list, a table of two rows
    and two columns, and a plain paragraph: the list is opened once, closed
    before the table, and nothing is left to close at the end. *)

Example heading_list_table_paragraph :
  let heading :=
    Sample.elem (Sample.w "p") []
      [ Sample.elem (Sample.w "pPr") []
          [Sample.elem (Sample.w "pStyle") (Sample.val "Heading1") []];
        Sample.run [] "Intro" ] in
  let cell text := Sample.tc "1" [Sample.p [Sample.run [] text]] in
  convert_body PyInt.parse PyPath.name Sample.conv
    (Sample.body
       [ heading;
         Sample.li "1" "0" [Sample.run [] "first"];
         Sample.li "1" "0" [Sample.run [] "second"];
         Sample.tbl [ Sample.tr [cell "a"; cell "b"]; Sample.tr [cell "c"; cell "d"] ];
         Sample.p [Sample.run [] "The end."] ])
    Sample.st0
  = Ok ([ "\section{Intro}"; "";
          "\begin{enumerate}"; "\item first"; "\item second"; "\end{enumerate}";
          "\begin{longtable}{|p{\dimexpr\linewidth/2-2\tabcolsep\relax}|p{\dimexpr\linewidth/2-2\tabcolsep\relax}|}";
          "\hline"; "a & b \\"; "\hline"; "c & d \\"; "\hline";
          "\end{longtable}"; "";
          "The end."; "";
          "\end{document}" ], Sample.st0).
Proof. vm_compute. reflexivity. Qed.

(** * Further properties *)

(** ** The escaper, continued *)

Section EscaperLaws.
Import Spec.

Lemma escape_char_head ch :
  exists a b, escape_char ch = String a b
              /\ (is_meta ch = true -> a = "\"%char)
              /\ (is_meta ch = false -> a = ch /\ b = "").
Proof.
  destruct (is_meta ch) eqn:Hc.
  - destruct ch as [[] [] [] [] [] [] [] []]; try discriminate Hc;
      vm_compute; eexists _, _; (split; [reflexivity|]); split; congruence.
  - rewrite (escape_char_plain _ Hc). exists ch, "". repeat split; congruence.
Qed.

Lemma meta_cases ch : is_meta ch = true -> In ch metachars.
Proof.
  unfold is_meta. intros (x & Hin & Heq)%existsb_exists.
  apply Ascii.eqb_eq in Heq. now subst.
Qed.

(** the images of the characters form a prefix code *)
Lemma escape_char_prefix_free c1 c2 r1 r2 :
  escape_char c1 +:+ r1 = escape_char c2 +:+ r2 -> c1 = c2 /\ r1 = r2.
Proof.
  destruct (is_meta c1) eqn:H1, (is_meta c2) eqn:H2.
  - apply meta_cases in H1, H2. unfold metachars in H1, H2. cbn [In] in H1, H2.
    repeat (destruct H1 as [<-|H1]; [|]); try contradiction;
      repeat (destruct H2 as [<-|H2]; [|]); try contradiction;
      vm_compute; intros Heq; try discriminate Heq;
      injection Heq as ->; split; reflexivity.
  - rewrite (escape_char_plain _ H2).
    destruct (escape_char_head c1) as (a & b & -> & Hmeta & _).
    rewrite (Hmeta H1). cbn. intros [= <- _]. discriminate H2.
  - rewrite (escape_char_plain _ H1).
    destruct (escape_char_head c2) as (a & b & -> & Hmeta & _).
    rewrite (Hmeta H2). cbn. intros [= -> _]. discriminate H1.
  - rewrite (escape_char_plain _ H1), (escape_char_plain _ H2). cbn.
    now intros [= -> ->].
Qed.

(** X1.  Escaping a concatenation is concatenating the escaped parts: it
    does not matter whether fragments are escaped before or after they are
    joined. *)
Theorem escape_latex_app a b :
  escape_latex (a +:+ b) = escape_latex a +:+ escape_latex b.
Proof.
  induction a as [|ch a IH]; cbn [String.append escape_latex]; [reflexivity|].
  now rewrite IH, string_app_assoc.
Qed.

(** X2.  The escaper loses nothing: two different texts never have the same
    escaped form. *)
Theorem escape_latex_injective s1 s2 :
  escape_latex s1 = escape_latex s2 -> s1 = s2.
Proof.
  revert s2. induction s1 as [|c1 s1 IH]; intros [|c2 s2]; cbn [escape_latex].
  - reflexivity.
  - destruct (escape_char_head c2) as (a & b & -> & _). discriminate.
  - destruct (escape_char_head c1) as (a & b & -> & _). discriminate.
  - intros [-> Hrest]%escape_char_prefix_free. now rewrite (IH _ Hrest).
Qed.

Lemma escape_latex_injective_witness : "50% & $5" = "50% & $5".
Proof. apply escape_latex_injective. vm_compute. reflexivity. Defined.

End EscaperLaws.

(** ** The normalization, continued *)

Section NormalizeLaws.
Import Spec Laws.

Lemma words_are_words s : Forall is_word (words s).
Proof.
  unfold is_word.
  induction s as [|c r IH]; cbn [words]; [constructor|].
  destruct (PyStr.is_space c) eqn:Hc; [exact IH|].
  assert (no_space (String c "") = true) as Hone by (cbn; now rewrite Hc).
  destruct r as [|c' r']; [now repeat constructor|].
  destruct (PyStr.is_space c'); [now constructor|].
  destruct (words (String c' r')) as [|w ws]; [now repeat constructor|].
  inversion IH as [|? ? [_ Hw] Hws]; subst. constructor; [|exact Hws].
  split; [discriminate|]. cbn. now rewrite Hc.
Qed.

Lemma words_of_word w : is_word w -> words w = [w].
Proof.
  intros [Hne Hw]. induction w as [|c r IH]; [contradiction|].
  cbn in Hw. apply andb_prop in Hw as [Hc Hr]. apply negb_true_iff in Hc.
  cbn [words]. rewrite Hc.
  destruct r as [|c' r']; [reflexivity|].
  pose proof Hr as Hr'. cbn in Hr'. apply andb_prop in Hr' as [Hc' _].
  apply negb_true_iff in Hc'. rewrite Hc'.
  now rewrite IH.
Qed.

Lemma words_of_word_space w t :
  is_word w -> words (w +:+ String " " t) = w :: words t.
Proof.
  intros [Hne Hw]. induction w as [|c r IH]; [contradiction|].
  cbn in Hw. apply andb_prop in Hw as [Hc Hr]. apply negb_true_iff in Hc.
  cbn [String.append words]. rewrite Hc.
  destruct r as [|c' r'].
  - cbn [String.append]. change (PyStr.is_space " ") with true. cbv iota.
    cbn [words]. change (PyStr.is_space " ") with true. reflexivity.
  - pose proof Hr as Hr'. cbn in Hr'. apply andb_prop in Hr' as [Hc' _].
    apply negb_true_iff in Hc'.
    cbn [String.append]. rewrite Hc'.
    change (String c' (r' +:+ String " " t)) with (String c' r' +:+ String " " t).
    now rewrite IH.
Qed.

Lemma words_of_joined ws :
  Forall is_word ws -> words (PyStr.join " " ws) = ws.
Proof.
  unfold PyStr.join.
  induction ws as [|w ws IH]; intros Hws; [reflexivity|].
  inversion Hws as [|? ? Hw Hrest]; subst.
  cbn [String.concat]. destruct ws as [|w' ws'].
  - now apply words_of_word.
  - change (w +:+ " " +:+ String.concat " " (w' :: ws'))
      with (w +:+ String " " (String.concat " " (w' :: ws'))).
    rewrite (words_of_word_space _ _ Hw). now rewrite (IH Hrest).
Qed.

Lemma words_none s : words s = [] <-> all_space s = true.
Proof.
  induction s as [|c r IH]; cbn [words all_space]; [easy|].
  destruct (PyStr.is_space c); cbn [andb]; [exact IH|].
  split; [|discriminate].
  destruct r as [|c' r']; [discriminate|].
  destruct (PyStr.is_space c'); [discriminate|].
  destruct (words (String c' r')); discriminate.
Qed.

(** X3.  Normalizing again changes nothing. *)
Theorem normalize_whitespace_idempotent text :
  normalize_whitespace (normalize_whitespace text) = normalize_whitespace text.
Proof.
  rewrite !normalize_whitespace_words.
  now rewrite words_of_joined by apply words_are_words.
Qed.

(** X4.  The normalized text is empty exactly when the text is made of white
    space only (the empty text included). *)
Theorem normalize_whitespace_empty text :
  normalize_whitespace text = "" <-> all_space text = true.
Proof.
  rewrite normalize_whitespace_words, <- words_none. split.
  - apply join_words_empty.
  - now intros ->.
Qed.

End NormalizeLaws.

(** ** The line cleaner *)

Section CleanLines.
Import Spec Laws.

Lemma rstrip_fixed s : ends_with_space s = false -> PyStr.rstrip s = s.
Proof.
  induction s as [|c r IH]; [reflexivity|].
  cbn [ends_with_space PyStr.rstrip]. destruct r as [|c' r'].
  - cbn. now intros ->.
  - intros H. rewrite (IH H). reflexivity.
Qed.

Lemma rstrip_idempotent s : PyStr.rstrip (PyStr.rstrip s) = PyStr.rstrip s.
Proof.
  destruct (rstrip_split s) as (r & _ & _ & Hend). now apply rstrip_fixed.
Qed.

Lemma truthy_false s : PyStr.truthy s = false <-> s = "".
Proof.
  unfold PyStr.truthy. destruct (String.eqb_spec s ""); cbn; split; congruence.
Qed.

Lemma clean_lines_from_cleaned previous_blank lines :
  cleaned previous_blank (clean_lines_from previous_blank lines).
Proof.
  unfold cleaned. revert previous_blank.
  induction lines as [|line rest IH]; intros previous_blank; cbn [clean_lines_from].
  - repeat split; [constructor | discriminate].
  - cbv zeta. destruct (PyStr.truthy (PyStr.rstrip line)) eqn:Hline; cbn [negb].
    + destruct (IH false) as (Hall & Hblank & _).
      assert (PyStr.rstrip line <> "") as Hne.
      { intros Heq. rewrite Heq in Hline. discriminate Hline. }
      repeat split.
      * constructor; [apply rstrip_idempotent | exact Hall].
      * cbn [no_double_blank].
        destruct (clean_lines_from false rest); [exact I|].
        split; [now intros [? _] | exact Hblank].
      * cbn. congruence.
    + destruct (IH true) as (Hall & Hblank & Hhead).
      destruct previous_blank; [now repeat split|].
      repeat split.
      * constructor; [reflexivity | exact Hall].
      * cbn [no_double_blank].
        destruct (clean_lines_from true rest) as [|l2 ?]; [exact I|].
        split; [|exact Hblank]. intros [_ ->]. now apply Hhead.
      * discriminate.
Qed.

Lemma cleaned_fixed previous_blank lines :
  cleaned previous_blank lines -> clean_lines_from previous_blank lines = lines.
Proof.
  unfold cleaned. revert previous_blank.
  induction lines as [|line rest IH]; intros previous_blank (Hall & Hblank & Hhead);
    [reflexivity|].
  inversion Hall as [|? ? Hline Hrest]; subst.
  cbn [clean_lines_from]. cbv zeta. rewrite Hline.
  destruct (PyStr.truthy line) eqn:Htruthy; cbn [negb].
  - f_equal. apply IH. repeat split; [exact Hrest | | discriminate].
    destruct rest; [exact I | apply Hblank].
  - apply truthy_false in Htruthy. subst line.
    destruct previous_blank; [now exfalso; apply Hhead|].
    f_equal. apply IH. repeat split; [exact Hrest | |].
    + destruct rest; [exact I | apply Hblank].
    + intros _ Hnext. destruct rest as [|l2 ?]; [discriminate|].
      injection Hnext as ->. cbn in Hblank. now apply (proj1 Hblank).
Qed.

(** X5.  In the cleaned lines no line ends in white space and no blank line
    follows a blank line. *)
Theorem clean_lines_trimmed_and_single_blanks lines :
  Forall (fun line => PyStr.rstrip line = line /\ ends_with_space line = false)
         (_clean_lines lines)
  /\ no_double_blank (_clean_lines lines).
Proof.
  destruct (clean_lines_from_cleaned false lines) as (Hall & Hblank & _).
  split; [|exact Hblank].
  eapply Forall_impl; [exact Hall|]. intros line Hline. split; [exact Hline|].
  rewrite <- Hline. now destruct (rstrip_split line) as (? & _ & _ & ?).
Qed.

(** X6.  Cleaning cleaned lines changes nothing. *)
Theorem clean_lines_idempotent lines :
  _clean_lines (_clean_lines lines) = _clean_lines lines.
Proof. apply cleaned_fixed, clean_lines_from_cleaned. Qed.

Lemma clean_lines_from_content previous_blank lines :
  List.filter PyStr.truthy (clean_lines_from previous_blank lines)
  = List.filter PyStr.truthy (map PyStr.rstrip lines).
Proof.
  revert previous_blank.
  induction lines as [|line rest IH]; intros previous_blank; [reflexivity|].
  cbn [clean_lines_from map List.filter]. cbv zeta.
  destruct (PyStr.truthy (PyStr.rstrip line)) eqn:Hline; cbn [negb].
  - cbn [List.filter]. now rewrite Hline, IH.
  - destruct previous_blank; [apply IH|].
    cbn [List.filter]. change (PyStr.truthy "") with false. apply IH.
Qed.

(** X7.  Cleaning only removes blank lines and trailing white space: the
    lines that are not blank are kept, in their order, each with its trailing
    white space removed. *)
Theorem clean_lines_keeps_content lines :
  List.filter PyStr.truthy (_clean_lines lines)
  = List.filter PyStr.truthy (map PyStr.rstrip lines).
Proof. apply clean_lines_from_content. Qed.

End CleanLines.

(** ** The list state machine, continued *)

Section MachineLaws.
Import Spec Laws.

Lemma levels_ok_nonneg stack :
  levels_ok stack -> Forall (fun state => 0 <= level state) stack.
Proof.
  induction stack as [|top rest IH]; [constructor|].
  intros [Htop Hrest]. constructor; [lia | now apply IH].
Qed.

Lemma close_all_shape stack lines :
  Stack.close_all stack lines = (lines ++ map end_line stack, []).
Proof.
  revert lines. induction stack as [|state rest IH]; intros lines;
    cbn [Stack.close_all map].
  - now rewrite app_nil_r.
  - now rewrite IH, <- app_assoc.
Qed.

Lemma close_deeper_shape target stack lines :
  exists popped,
    stack = popped ++ snd (Stack.close_deeper target stack lines)
    /\ fst (Stack.close_deeper target stack lines) = lines ++ map end_line popped
    /\ Forall (fun state => level target < level state) popped
    /\ below_target target (snd (Stack.close_deeper target stack lines)).
Proof.
  revert lines. induction stack as [|top rest IH]; intros lines;
    cbn [Stack.close_deeper].
  - exists []. cbn. now rewrite app_nil_r.
  - destruct (Z.gtb_spec (level top) (level target)) as [Hdeep|Hshallow].
    + destruct (IH (lines ++ [end_line top])) as (popped & Hstack & Hlines & Hall & Hbelow).
      exists (top :: popped). repeat split.
      * cbn [app]. now rewrite <- Hstack.
      * rewrite Hlines, <- app_assoc. reflexivity.
      * constructor; [lia | exact Hall].
      * exact Hbelow.
    + exists []. cbn. rewrite app_nil_r. repeat split; [constructor | lia].
Qed.

Lemma close_same_level_shape target stack lines :
  levels_ok stack ->
  below_target target stack ->
  exists popped,
    stack = popped ++ snd (Stack.close_same_level target stack lines)
    /\ fst (Stack.close_same_level target stack lines) = lines ++ map end_line popped
    /\ below_target target (snd (Stack.close_same_level target stack lines))
    /\ agrees_at_level target (snd (Stack.close_same_level target stack lines)).
Proof.
  unfold Stack.close_same_level. intros Hok Hbelow.
  destruct stack as [|current rest].
  - exists []. cbn. now rewrite app_nil_r.
  - destruct (Z.eqb_spec (level current) (level target)) as [Heq|Hne]; cbn [andb].
    + destruct (Stack.differs current target) eqn:Hdiff.
      * exists [current]. cbn [fst snd app map]. repeat split.
        -- destruct rest as [|next rest']; [exact I|].
           cbn in Hok |- *. destruct Hok as (Htop & Hnext & _). lia.
        -- destruct rest as [|next rest']; [exact I|].
           cbn in Hok |- *. destruct Hok as (Htop & Hnext & _). lia.
      * exists []. cbn [fst snd app map]. rewrite app_nil_r.
        repeat split; [exact Hbelow | now intros _].
    + exists []. cbn [fst snd app map]. rewrite app_nil_r.
      repeat split; [exact Hbelow | now intros ?].
Qed.

Lemma differs_pushed target (stack : list ListState) :
  Stack.differs
    {| level := Z.of_nat (length stack); env := env target; num_id := num_id target |}
    target = false.
Proof. unfold Stack.differs. cbn. now rewrite !String.eqb_refl. Qed.

Lemma open_levels_shape target stack lines :
  levels_ok stack ->
  agrees_at_level target stack ->
  exists new,
    snd (open_levels target stack lines) = new ++ stack
    /\ fst (open_levels target stack lines)
       = lines ++ replicate (length new) (begin_line (env target))
    /\ Forall (opened_for target) new
    /\ agrees_at_level target (snd (open_levels target stack lines))
    /\ (0 <= level target -> below_target target stack ->
        below_target target (snd (open_levels target stack lines))).
Proof.
  funelim (open_levels target stack lines); intros Hok Hagree.
  - assert (levels_ok (Stack.pushed target stack)) as Hok' by now split.
    assert (agrees_at_level target (Stack.pushed target stack)) as Hpushed
      by (cbn; intros _; apply differs_pushed).
    destruct (H Hok' Hpushed) as (new & Hstack & Hlines & Hnew & Hagree' & Hbelow').
    exists (new ++ [ {| level := Z.of_nat (length stack); env := env target;
                        num_id := num_id target |} ]).
    repeat split.
    + rewrite Hstack. unfold Stack.pushed. now rewrite <- app_assoc.
    + rewrite Hlines, <- app_assoc, length_app. cbn [length].
      rewrite Nat.add_1_r. reflexivity.
    + apply Forall_app. split; [exact Hnew|]. now repeat constructor.
    + exact Hagree'.
    + intros Hlevel Hbelow. apply Hbelow'; [exact Hlevel|].
      unfold Stack.pushed. cbn [below_target level].
      destruct stack as [|top rest]; [cbn; lia|].
      pose proof (proj1 (Z.ltb_lt _ _) Hopen) as Hlt.
      cbn in Hok |- *. lia.
  - exists []. cbn [fst snd app length replicate]. rewrite app_nil_r.
    repeat split; [constructor | exact Hagree | now intros _ ?].
Qed.

Lemma sync_tail_idle target stack lines :
  Stack.must_open target stack = false ->
  agrees_at_level target stack ->
  sync_tail target stack lines = (lines, stack).
Proof.
  unfold sync_tail, Stack.must_open, agrees_at_level.
  destruct stack as [|top rest]; [discriminate|].
  intros -> Hagree.
  destruct (Z.eqb_spec (level top) (level target)) as [Heq|]; [|reflexivity].
  now rewrite (Hagree Heq).
Qed.

(** the machine on a stack that satisfies the invariant, stage by stage *)
Lemma sync_stages target stack :
  levels_ok stack ->
  exists popped kept new,
    stack = popped ++ kept
    /\ sync_list_stack (Some target) stack
       = (map end_line popped ++ replicate (length new) (begin_line (env target)),
          new ++ kept)
    /\ Forall (opened_for target) new
    /\ Stack.must_open target (new ++ kept) = false
    /\ agrees_at_level target (new ++ kept)
    /\ (0 <= level target -> below_target target (new ++ kept)).
Proof.
  intros Hok. unfold sync_list_stack.
  destruct (close_deeper_shape target stack []) as (p1 & Hs1 & Hl1 & _ & Hb1).
  pose proof (close_deeper_ok target stack [] Hok) as Hok1.
  destruct (Stack.close_deeper target stack []) as [l1 s1]. cbn [fst snd] in *.
  destruct (close_same_level_shape target s1 l1 Hok1 Hb1) as (p2 & Hs2 & Hl2 & Hb2 & Ha2).
  pose proof (close_same_level_ok target s1 l1 Hok1) as Hok2.
  destruct (Stack.close_same_level target s1 l1) as [l2 s2]. cbn [fst snd] in *.
  destruct (open_levels_shape target s2 l2 Hok2 Ha2) as (new & Hs3 & Hl3 & Hnew & Ha3 & Hb3).
  pose proof (open_levels_closed target s2 l2) as Hclosed.
  destruct (open_levels target s2 l2) as [l3 s3]. cbn [fst snd] in *.
  rewrite (sync_tail_idle _ _ _ Hclosed Ha3).
  exists (p1 ++ p2), s2, new. subst. repeat split; try assumption.
  - now rewrite <- app_assoc.
  - now rewrite map_app.
  - intros Hlevel. now apply Hb3.
Qed.

(** X8.  On a stack that satisfies the invariant, the machine pops some
    entries from the top, keeps the rest untouched and pushes new entries for
    the target; its lines are one close directive per popped entry,
    innermost first, followed by one open directive per pushed entry: it
    never opens before it has finished closing. *)
Theorem sync_closes_then_opens target stack :
  levels_ok stack ->
  exists popped kept new,
    stack = popped ++ kept
    /\ sync_list_stack (Some target) stack
       = (map end_line popped ++ replicate (length new) (begin_line (env target)),
          new ++ kept)
    /\ Forall (opened_for target) new.
Proof.
  intros Hok. destruct (sync_stages target stack Hok)
    as (popped & kept & new & Hstack & Hsync & Hnew & _).
  now exists popped, kept, new.
Qed.

Lemma sync_reaches target stack :
  levels_ok stack ->
  0 <= level target ->
  exists rest,
    snd (sync_list_stack (Some target) stack) = target :: rest
    /\ length rest = Z.to_nat (level target).
Proof.
  intros Hok Hlevel.
  pose proof (sync_list_stack_ok (Some target) stack Hok) as Hok'.
  destruct (sync_stages target stack Hok)
    as (popped & kept & new & _ & Hsync & _ & Hclosed & Hagree & Hbelow).
  rewrite Hsync in Hok' |- *. cbn [snd] in *.
  specialize (Hbelow Hlevel).
  destruct (new ++ kept) as [|top rest]; [discriminate Hclosed|].
  cbn in Hclosed, Hagree, Hbelow, Hok'. apply Z.ltb_ge in Hclosed.
  assert (level top = level target) as Heq by lia.
  specialize (Hagree Heq). unfold Stack.differs in Hagree.
  apply orb_false_elim in Hagree as [Henv Hid].
  apply negb_false_iff, String.eqb_eq in Henv, Hid.
  exists rest. split; [|lia].
  f_equal. destruct top, target. cbn in *. congruence.
Qed.

(** X9.  On a stack that satisfies the invariant, a target of level [n >= 0]
    ends on top of the stack, at depth [n + 1]. *)
Theorem sync_reaches_target target stack :
  levels_ok stack ->
  0 <= level target ->
  head (snd (sync_list_stack (Some target) stack)) = Some target
  /\ length (snd (sync_list_stack (Some target) stack))
     = S (Z.to_nat (level target)).
Proof.
  intros Hok Hlevel.
  destruct (sync_reaches target stack Hok Hlevel) as (rest & -> & Hlen).
  cbn. now rewrite Hlen.
Qed.

(** X10.  Two consecutive paragraphs with the same target: the second one
    emits no directive and leaves the stack as the first one set it. *)
Theorem sync_twice_is_silent target stack :
  levels_ok stack ->
  0 <= level target ->
  sync_list_stack (Some target) (snd (sync_list_stack (Some target) stack))
  = ([], snd (sync_list_stack (Some target) stack)).
Proof.
  intros Hok Hlevel.
  destruct (sync_reaches target stack Hok Hlevel) as (rest & -> & _).
  apply sync_same_target.
Qed.

Lemma close_deeper_all target stack lines :
  Forall (fun state => level target < level state) stack ->
  Stack.close_deeper target stack lines = (lines ++ map end_line stack, []).
Proof.
  revert lines. induction stack as [|top rest IH]; intros lines Hall;
    cbn [Stack.close_deeper map].
  - now rewrite app_nil_r.
  - inversion Hall as [|? ? Htop Hrest]; subst.
    replace (level top >? level target) with true by (symmetry; apply Z.gtb_lt; lia).
    now rewrite (IH _ Hrest), <- app_assoc.
Qed.

(** X11.  A negative level (a level value such as ["-1"] parses) closes every
    open list and opens one list at level 0.  A second paragraph with the
    same negative level therefore closes that list and opens it again. *)
Theorem sync_negative_level target stack :
  levels_ok stack ->
  level target < 0 ->
  sync_list_stack (Some target) stack
  = (map end_line stack ++ [begin_line (env target)],
     [ {| level := 0; env := env target; num_id := num_id target |} ]).
Proof.
  intros Hok Hneg. unfold sync_list_stack.
  rewrite close_deeper_all.
  2: { eapply Forall_impl; [apply levels_ok_nonneg, Hok|]. cbn. intros; lia. }
  cbn [Stack.close_same_level app].
  rewrite open_levels_step by reflexivity.
  rewrite open_levels_done.
  2: { cbn. apply Z.ltb_ge. lia. }
  unfold Stack.pushed, sync_tail. cbn [level].
  change (Z.of_nat (length (@nil ListState))) with 0.
  replace (0 <? level target) with false by (symmetry; apply Z.ltb_ge; lia).
  replace (0 =? level target) with false by (symmetry; apply Z.eqb_neq; lia).
  reflexivity.
Qed.

End MachineLaws.

Lemma sync_closes_then_opens_witness :
  exists popped kept new,
    [ {| level := 1; env := "itemize"; num_id := "2" |};
      {| level := 0; env := "enumerate"; num_id := "1" |} ] = popped ++ kept
    /\ sync_list_stack (Some {| level := 1; env := "enumerate"; num_id := "1" |})
         [ {| level := 1; env := "itemize"; num_id := "2" |};
           {| level := 0; env := "enumerate"; num_id := "1" |} ]
       = (map end_line popped
            ++ replicate (length new) (begin_line "enumerate"),
          new ++ kept)
    /\ Forall (Laws.opened_for {| level := 1; env := "enumerate"; num_id := "1" |}) new.
Proof.
  apply (sync_closes_then_opens {| level := 1; env := "enumerate"; num_id := "1" |}).
  cbn. repeat split.
Defined.

Lemma sync_reaches_target_witness :
  let target := {| level := 2; env := "itemize"; num_id := "5" |} in
  head (snd (sync_list_stack (Some target) [])) = Some target
  /\ length (snd (sync_list_stack (Some target) [])) = S (Z.to_nat (level target)).
Proof.
  intros target. apply sync_reaches_target; [exact I | cbn; lia].
Defined.

Lemma sync_twice_is_silent_witness :
  let target := {| level := 2; env := "itemize"; num_id := "5" |} in
  sync_list_stack (Some target) (snd (sync_list_stack (Some target) []))
  = ([], snd (sync_list_stack (Some target) [])).
Proof.
  intros target. apply sync_twice_is_silent; [exact I | cbn; lia].
Defined.

Lemma sync_negative_level_witness :
  let target := {| level := -1; env := "itemize"; num_id := "5" |} in
  let stack := [ {| level := 0; env := "itemize"; num_id := "5" |} ] in
  sync_list_stack (Some target) stack
  = (map end_line stack ++ [begin_line (env target)],
     [ {| level := 0; env := env target; num_id := num_id target |} ]).
Proof.
  intros target stack. apply sync_negative_level; [cbn; repeat split | cbn; lia].
Defined.

(** ** List items without text *)

Section EmptyItems.
Import Spec Laws.

Variable py_int : string -> option Z.
Variable path_name : string -> string.
Variable self : Converter.

Local Abbreviation collect_runs := (_collect_runs py_int path_name self).
Local Abbreviation convert_paragraph := (_convert_paragraph py_int path_name self).
Local Abbreviation extract_list_info := (_extract_list_info py_int self).

(** C9.  A list paragraph whose normalized text is empty and which has no
    block fragments emits exactly the machine's open and close directives
    for its target: no item line and no empty line; and the stack it leaves
    for the following paragraphs is the one the machine reached.  On a stack
    that satisfies the invariant these directives are one close directive
    per entry popped, then one open directive per entry pushed for the
    target; when the level is not negative the target ends on top of the
    stack, at depth level + 1, so that a following item of the same list
    opens and closes nothing.  From the empty stack, at level 0, the
    paragraph emits the one open directive of its environment and leaves its
    target as the only entry. *)
Theorem empty_list_item_only_syncs paragraph target st text st1 :
  extract_list_info paragraph = Some target ->
  collect_runs paragraph st = Ok ((text, []), st1) ->
  normalize_whitespace text = "" ->
  (let '(sync_lines, stack) := sync_list_stack (Some target) (list_stack st) in
   convert_paragraph paragraph false false st = Ok (sync_lines, set_stack stack st1)
   /\ Forall (fun line => is_item line = false /\ line <> "") sync_lines
   /\ Forall (fun line => is_directive line = true) sync_lines
   /\ balance sync_lines
      = Z.of_nat (length stack) - Z.of_nat (length (list_stack st)))
  /\ (levels_ok (list_stack st) ->
      exists popped kept new,
        list_stack st = popped ++ kept
        /\ convert_paragraph paragraph false false st
           = Ok (map end_line popped
                   ++ replicate (length new) (begin_line (env target)),
                 set_stack (new ++ kept) st1)
        /\ Forall (opened_for target) new
        /\ (0 <= level target ->
            head (new ++ kept) = Some target
            /\ length (new ++ kept) = S (Z.to_nat (level target))
            /\ sync_list_stack (Some target) (new ++ kept) = ([], new ++ kept)))
  /\ (list_stack st = [] -> level target = 0 ->
      convert_paragraph paragraph false false st
      = Ok ([begin_line (env target)], set_stack [target] st1)).
Proof.
  intros Hinfo Hruns Hempty.
  assert (convert_paragraph paragraph false false st
          = Ok (fst (sync_list_stack (Some target) (list_stack st)),
                set_stack (snd (sync_list_stack (Some target) (list_stack st))) st1))
    as Hrun.
  { unfold _convert_paragraph. rewrite Hinfo. cbn [negb].
    unfold mbind, M_bind, _sync_list_stack. rewrite on_stack_run.
    rewrite (blind_moves _ _ _ _ _ (blind_collect_runs _ _ _ _) Hruns).
    now rewrite Hempty. }
  assert (levels_ok (list_stack st) ->
          exists popped kept new,
            list_stack st = popped ++ kept
            /\ convert_paragraph paragraph false false st
               = Ok (map end_line popped
                       ++ replicate (length new) (begin_line (env target)),
                     set_stack (new ++ kept) st1)
            /\ Forall (opened_for target) new
            /\ (0 <= level target ->
                head (new ++ kept) = Some target
                /\ length (new ++ kept) = S (Z.to_nat (level target))
                /\ sync_list_stack (Some target) (new ++ kept) = ([], new ++ kept)))
    as Hshape.
  { intros Hok.
    destruct (sync_stages target (list_stack st) Hok)
      as (popped & kept & new & Hsplit & Hsync & Hnew & _).
    exists popped, kept, new. split; [exact Hsplit|]. split; [|split; [exact Hnew|]].
    - rewrite Hrun. now rewrite Hsync.
    - intros Hlevel.
      destruct (sync_reaches target (list_stack st) Hok Hlevel) as (rest & Htop & Hrest).
      rewrite Hsync in Htop. cbn [snd] in Htop.
      rewrite Htop. cbn [head length]. rewrite Hrest.
      split; [reflexivity|]. split; [reflexivity | apply sync_same_target]. }
  split; [|split; [exact Hshape|]].
  - pose proof (sync_list_stack_directives (Some target) (list_stack st)) as Hdir.
    pose proof (sync_list_stack_tracks (Some target) (list_stack st)) as Hbal.
    destruct (sync_list_stack (Some target) (list_stack st)) as [sync_lines stack].
    cbn [fst snd] in *.
    split; [exact Hrun|]. split; [|split; [exact Hdir|]].
    + eapply Forall_impl; [exact Hdir | apply directive_not_item].
    + unfold tracks_depth in Hbal. cbn [fst snd] in Hbal.
      rewrite balance_nil in Hbal. lia.
  - intros Hstack Hzero.
    destruct Hshape as (popped & kept & new & Hsplit & Heq & _ & Hreach);
      [rewrite Hstack; exact I|].
    rewrite Hstack in Hsplit. symmetry in Hsplit.
    apply app_eq_nil in Hsplit as [-> ->].
    destruct Hreach as (Htop & Hlength & _); [lia|].
    rewrite app_nil_r in *. rewrite Hzero in Hlength. cbn in Hlength.
    destruct new as [|state [|? ?]]; try discriminate Hlength.
    injection Htop as ->. exact Heq.
Qed.

End EmptyItems.

Lemma empty_list_item_only_syncs_witness :
  let paragraph := Sample.li "1" "0" [] in
  let target := {| level := 0; env := "enumerate"; num_id := "1" |} in
  _convert_paragraph PyInt.parse PyPath.name Sample.conv paragraph false false Sample.st0
  = Ok (["\begin{enumerate}"], Spec.set_stack [target] Sample.st0)
  /\ Forall (fun line => Spec.is_item line = false /\ line <> "") ["\begin{enumerate}"]
  /\ sync_list_stack (Some target) [target] = ([], [target]).
Proof.
  intros paragraph target.
  destruct (empty_list_item_only_syncs PyInt.parse PyPath.name Sample.conv
              paragraph target Sample.st0 "" Sample.st0 eq_refl eq_refl eq_refl)
    as (Hsync & Hshape & Hfirst).
  pose proof (Hfirst eq_refl eq_refl) as Hrun.
  split; [exact Hrun|]. split.
  - destruct Hsync as (Heq & Hitems & _). exact Hitems.
  - destruct (Hshape I) as (popped & kept & new & _ & Heq & _ & Hreach).
    rewrite Hrun in Heq. injection Heq as _ Hstack.
    destruct (Hreach ltac:(cbn; lia)) as (_ & _ & Hsilent).
    now rewrite <- Hstack in Hsilent.
Defined.

(** ** State: the stack and the media directory *)

Section StateLaws.
Import Spec Laws.

Variable py_int : string -> option Z.
Variable path_name : string -> string.
Variable self : Converter.

(** X12.  Draining emits one close directive per open list, innermost
    first, and leaves the stack empty and the media directory as it was. *)
Theorem close_all_lists_closes_each st :
  _close_all_lists st = Ok (map end_line (list_stack st), set_stack [] st).
Proof.
  unfold _close_all_lists. rewrite on_stack_run. unfold close_all_lists.
  now rewrite close_all_shape.
Qed.

(** X13.  Text runs, hyperlinks, fields, table cells and tables never read
    or change the list stack: started on another stack they give the same
    result and leave that stack as it was. *)
Theorem inline_and_tables_leave_stack element :
  stack_blind (_collect_runs py_int path_name self element)
  /\ stack_blind (_convert_hyperlink py_int path_name self element)
  /\ stack_blind (_convert_run py_int path_name self element)
  /\ stack_blind (_convert_table_cell py_int path_name self element)
  /\ stack_blind (_convert_table py_int path_name self element).
Proof.
  repeat split;
    [ apply blind_collect_runs | apply blind_convert_hyperlink
    | apply blind_convert_run | apply blind_convert_table_cell
    | apply blind_convert_table ].
Qed.

Lemma media_grows_same st st' :
  media_files st' = media_files st -> media_grows self st st'.
Proof.
  intros Hsame. split.
  - intros name data. now rewrite Hsame.
  - intros name data. rewrite Hsame. now left.
Qed.

Lemma media_grows_refl st : media_grows self st st.
Proof. now apply media_grows_same. Qed.

Lemma media_grows_trans st1 st2 st3 :
  media_grows self st1 st2 -> media_grows self st2 st3 -> media_grows self st1 st3.
Proof.
  intros [Hk1 Hn1] [Hk2 Hn2]. split.
  - intros name data H. now apply Hk2, Hk1.
  - intros name data H. destruct (Hn2 _ _ H) as [H'|H']; [now apply Hn1 | now right].
Qed.

Lemma safe_ret {A} (a : A) : media_safe self (mret a).
Proof. intros st a' st' [= _ <-]. apply media_grows_refl. Qed.

Lemma safe_bind {A B} (c : M A) (k : A -> M B) :
  media_safe self c -> (forall a, media_safe self (k a)) -> media_safe self (c ≫= k).
Proof.
  intros Hc Hk st b st'. unfold mbind, M_bind.
  destruct (c st) as [[a st1]|e] eqn:Hrun; [|discriminate].
  intros Hrest. eapply media_grows_trans; [eapply Hc | eapply Hk]; eassumption.
Qed.

Lemma safe_for {A S} (body : A -> S -> M S) (l : list A) (acc : S) :
  (forall x a, media_safe self (body x a)) -> media_safe self (for_ body l acc).
Proof.
  intros Hbody. revert acc. induction l as [|x l IH]; intros acc; cbn [for_].
  - apply safe_ret.
  - apply safe_bind; [apply Hbody | exact IH].
Qed.

Lemma safe_lift_result {A} (r : result A) : media_safe self (lift_result r).
Proof.
  intros st a st'. unfold lift_result. destruct r; [|discriminate].
  intros [= _ <-]. apply media_grows_refl.
Qed.

Lemma safe_on_stack f : media_safe self (on_stack f).
Proof.
  intros st a st'. unfold on_stack. destruct (f (list_stack st)).
  intros [= _ <-]. now apply media_grows_same.
Qed.

Lemma safe_write name data member :
  zip_files self !! member = Some data ->
  media_safe self (write_if_absent name data).
Proof.
  intros Hmember st [] st'. unfold write_if_absent. intros [= <-].
  destruct (PyStr.truthy name); [|now apply media_grows_same].
  destruct (media_files st !! name) as [old|] eqn:Hold;
    [now apply media_grows_same|].
  split; [unfold keeps_media|]; cbn [media_files]; intros name' data'.
  - intros H. destruct (decide (name = name')) as [<-|Hne].
    + congruence.
    + now rewrite lookup_insert_ne.
  - destruct (decide (name = name')) as [<-|Hne].
    + rewrite lookup_insert_eq. intros [= <-]. right. now exists member.
    + rewrite lookup_insert_ne by exact Hne. now left.
Qed.

Ltac safe :=
  repeat first
    [ apply safe_ret
    | apply safe_lift_result
    | apply safe_on_stack
    | match goal with H : forall _, media_safe _ _ |- _ => apply H end
    | match goal with H : forall _ _ _, media_safe _ _ |- _ => apply H end
    | apply safe_bind; [|intros; cbv beta]
    | apply safe_for; intros; cbv beta
    | match goal with
      | |- media_safe _ (match ?x with _ => _ end) => destruct x eqn:?
      end ].

Lemma safe_convert_drawing drawing :
  media_safe self (_convert_drawing py_int path_name self drawing).
Proof.
  unfold _convert_drawing.
  repeat match goal with
         | |- media_safe _ (match ?x with _ => _ end) => destruct x eqn:?
         end; try apply safe_ret.
  apply safe_bind; [eapply safe_write; eassumption|]. intros _. safe.
Qed.

Lemma safe_convert_run run :
  media_safe self (_convert_run py_int path_name self run).
Proof.
  unfold _convert_run, convert_run_child. pose proof safe_convert_drawing. safe.
Qed.

Lemma safe_convert_hyperlink hyperlink :
  media_safe self (_convert_hyperlink py_int path_name self hyperlink).
Proof.
  unfold _convert_hyperlink, hyperlink_runs. pose proof safe_convert_run. safe.
Qed.

Lemma safe_collect_runs paragraph :
  media_safe self (_collect_runs py_int path_name self paragraph).
Proof.
  unfold _collect_runs, collect_runs_child.
  pose proof safe_convert_run. pose proof safe_convert_hyperlink. safe.
Qed.

Lemma safe_convert_table table :
  media_safe self (_convert_table py_int path_name self table).
Proof.
  unfold _convert_table, table_scan_row, _convert_table_cell, table_cell_paragraph.
  pose proof safe_collect_runs. safe.
Qed.

Lemma safe_convert_paragraph paragraph in_table suppress_list :
  media_safe self
    (_convert_paragraph py_int path_name self paragraph in_table suppress_list).
Proof.
  unfold _convert_paragraph, _sync_list_stack.
  pose proof safe_collect_runs. safe.
Qed.

Lemma safe_convert_block element :
  media_safe self (_convert_block py_int path_name self element).
Proof.
  unfold _convert_block, _close_all_lists.
  pose proof safe_convert_paragraph. pose proof safe_convert_table. safe.
Qed.

(** X14.  First write wins, over a whole body: a file that is in the media
    directory is never removed or overwritten, and every file that appears
    there holds the bytes of a member of the package. *)
Theorem convert_body_media_grows body st lines st' :
  convert_body py_int path_name self body st = Ok (lines, st') ->
  media_grows self st st'.
Proof.
  revert st lines st'. change (media_safe self (convert_body py_int path_name self body)).
  unfold convert_body, _close_all_lists. pose proof safe_convert_block. safe.
Qed.

End StateLaws.

Lemma convert_body_media_grows_witness :
  Laws.media_grows Sample.conv Sample.st0
    {| list_stack := []; media_files := {[ "image1.png" := "PNG" ]} |}.
Proof.
  apply (convert_body_media_grows PyInt.parse PyPath.name Sample.conv
           (Sample.body
              [Sample.p [Sample.elem (Sample.w "r") []
                           [Sample.drawing "rId1" (Some "914400")]]])
           Sample.st0
           [ "\begin{figure}[h]"; "\centering";
             "\includegraphics[width=1.00in]{out\_media/image1.png}";
             "\end{figure}"; ""; "\end{document}" ]).
  vm_compute. reflexivity.
Defined.

(** ** Drawings, continued *)

Section DrawingLaws.
Import Spec Laws.

Variable py_int : string -> option Z.
Variable path_name : string -> string.
Variable self : Converter.


(** X16.  An extent whose [cx] is missing, empty or not an integer gives the
    default width, 70% of the line width, and no exception. *)
Theorem width_option_falls_back container extent :
  ET.find container (_q "wp" "extent") = Some extent ->
  (ET.get extent "cx" = None
   \/ ET.get extent "cx" = Some ""
   \/ exists cx, ET.get extent "cx" = Some cx /\ py_int cx = None) ->
  width_option py_int container = Ok "width=0.7\linewidth".
Proof.
  intros Hextent Hcx. unfold width_option. rewrite Hextent.
  destruct Hcx as [-> | [-> | (cx & -> & Hparse)]]; [reflexivity | reflexivity |].
  rewrite Hparse. now destruct (PyStr.truthy cx).
Qed.

End DrawingLaws.

Lemma width_option_falls_back_witness :
  width_option PyInt.parse (Sample.inline "rId1" (Some "1in")) = Ok "width=0.7\linewidth".
Proof.
  apply (width_option_falls_back PyInt.parse _ (Sample.extent "1in")).
  - vm_compute. reflexivity.
  - right. right. exists "1in". split; vm_compute; reflexivity.
Defined.

(** ** The relationship manifest *)

Section RelationshipLaws.
Import Spec Laws.

Lemma add_relationship_entry relationships rel :
  add_relationship relationships rel
  = match relationship_entry rel with
    | Some (rel_id, entry) => <[rel_id := entry]> relationships
    | None => relationships
    end.
Proof.
  unfold add_relationship, relationship_entry.
  destruct (ET.get rel "Id"), (ET.get rel "Type"), (ET.get rel "Target");
    try reflexivity.
  now destruct (_ && _).
Qed.

Lemma relationship_entry_complete rel rel_id rel_type target :
  relationship_entry rel = Some (rel_id, (rel_type, target))
  <-> complete_relationship rel rel_id rel_type target.
Proof.
  unfold relationship_entry, complete_relationship, PyStr.truthy.
  destruct (ET.get rel "Id") as [i|], (ET.get rel "Type") as [t|],
    (ET.get rel "Target") as [g|];
    try (split; [discriminate | intros (? & ? & ? & _); discriminate]).
  destruct (String.eqb_spec i ""), (String.eqb_spec t ""), (String.eqb_spec g "");
    cbn; split;
    try discriminate;
    try (intros ([= ->] & [= ->] & [= ->] & ? & ? & ?); congruence).
  intros [= -> -> ->]. now repeat split.
Qed.

Lemma load_relationships_origin rels relationships rel_id entry :
  foldl add_relationship relationships rels !! rel_id = Some entry ->
  relationships !! rel_id = Some entry
  \/ exists rel, In rel rels /\ relationship_entry rel = Some (rel_id, entry).
Proof.
  revert relationships.
  induction rels as [|rel rest IH]; intros relationships; cbn [foldl]; [now left|].
  intros H. destruct (IH _ H) as [Hhere | (rel' & Hin & Hentry)].
  - rewrite add_relationship_entry in Hhere.
    destruct (relationship_entry rel) as [[k v]|] eqn:Hrel; [|now left].
    destruct (decide (k = rel_id)) as [->|Hne].
    + rewrite lookup_insert_eq in Hhere. injection Hhere as ->.
      right. exists rel. split; [now left | exact Hrel].
    + rewrite lookup_insert_ne in Hhere by exact Hne. now left.
  - right. exists rel'. split; [now right | exact Hentry].
Qed.

Lemma load_relationships_stays rels relationships rel_id entry :
  relationships !! rel_id = Some entry ->
  (forall rel, In rel rels -> ET.get rel "Id" <> Some rel_id) ->
  foldl add_relationship relationships rels !! rel_id = Some entry.
Proof.
  revert relationships.
  induction rels as [|rel rest IH]; intros relationships Hhere Hlater;
    cbn [foldl]; [exact Hhere|].
  apply IH; [|intros r Hr; apply Hlater; now right].
  rewrite add_relationship_entry.
  destruct (relationship_entry rel) as [[k [t g]]|] eqn:Hrel; [|exact Hhere].
  apply relationship_entry_complete in Hrel as (Hid & _).
  rewrite lookup_insert_ne; [exact Hhere|].
  intros ->. apply (Hlater rel); [now left | exact Hid].
Qed.

(** X17.  Whatever the relationship map resolves comes from an element of
    the manifest that carries this identifier, kind and target, none of them
    empty; without a manifest nothing resolves. *)
Theorem load_relationships_sound rels_root rel_id rel_type target :
  _load_relationships rels_root !! rel_id = Some (rel_type, target) ->
  exists root rel,
    rels_root = Some root
    /\ In rel (children root)
    /\ complete_relationship rel rel_id rel_type target.
Proof.
  unfold _load_relationships. destruct rels_root as [root|].
  - intros H. apply load_relationships_origin in H as [H | (rel & Hin & Hentry)].
    + now rewrite lookup_empty in H.
    + exists root, rel. split; [reflexivity|]. split; [exact Hin|].
      now apply relationship_entry_complete.
  - now rewrite lookup_empty.
Qed.

(** X18.  When several elements of the manifest carry the same identifier,
    the last complete one is the one the map resolves. *)
Theorem load_relationships_last_wins root before rel after rel_id rel_type target :
  children root = before ++ rel :: after ->
  complete_relationship rel rel_id rel_type target ->
  (forall later, In later after -> ET.get later "Id" <> Some rel_id) ->
  _load_relationships (Some root) !! rel_id = Some (rel_type, target).
Proof.
  intros Hchildren Hrel Hlater. unfold _load_relationships.
  rewrite Hchildren, foldl_app. cbn [foldl].
  apply load_relationships_stays; [|exact Hlater].
  rewrite add_relationship_entry.
  apply relationship_entry_complete in Hrel. rewrite Hrel.
  apply lookup_insert_eq.
Qed.

End RelationshipLaws.

Lemma load_relationships_sound_witness :
  exists root rel,
    Some Package.rels_root = Some root
    /\ In rel (children root)
    /\ Laws.complete_relationship rel "rId2" "http://x/hyperlink" "http://example.org/".
Proof.
  apply load_relationships_sound. vm_compute. reflexivity.
Defined.

Lemma load_relationships_last_wins_witness :
  _load_relationships (Some Package.rels_root) !! "rId1"
  = Some ("http://x/image", "media/new.png").
Proof.
  apply (load_relationships_last_wins Package.rels_root
           [ Package.relationship "rId1" "http://x/image" "media/old.png";
             Package.relationship "rId2" "http://x/hyperlink" "http://example.org/" ]
           (Package.relationship "rId1" "http://x/image" "media/new.png")
           [ Package.relationship "" "http://x/image" "media/none.png" ]).
  - reflexivity.
  - repeat split; try (vm_compute; reflexivity); discriminate.
  - intros later [<-|[]]. vm_compute. discriminate.
Defined.

(** ** The numbering part *)

Section NumberingLaws.
Import Spec Laws.

Variable py_int : string -> option Z.

Lemma fold_try_cons {A B} (body : A -> B -> option A) acc x rest result :
  fold_try body acc (x :: rest) = Some result <->
  exists acc', body acc x = Some acc' /\ fold_try body acc' rest = Some result.
Proof. cbn [fold_try]. apply bind_Some. Qed.

Lemma fold_try_app {A B} (body : A -> B -> option A) acc l1 l2 result :
  fold_try body acc (l1 ++ l2) = Some result <->
  exists acc', fold_try body acc l1 = Some acc'
               /\ fold_try body acc' l2 = Some result.
Proof.
  revert acc. induction l1 as [|x l1 IH]; intros acc; cbn [app].
  - cbn [fold_try]. split; [intros H; now exists acc | now intros (? & [= <-] & ?)].
  - rewrite fold_try_cons. split.
    + intros (acc1 & Hx & Hrest). apply IH in Hrest as (acc2 & H1 & H2).
      exists acc2. split; [|exact H2]. apply fold_try_cons. now exists acc1.
    + intros (acc2 & H1 & H2). apply fold_try_cons in H1 as (acc1 & Hx & H1).
      exists acc1. split; [exact Hx|]. apply IH. now exists acc2.
Qed.

Lemma fold_try_fails {A B} (body : A -> B -> option A) acc l x :
  In x l -> (forall a, body a x = None) -> fold_try body acc l = None.
Proof.
  intros Hin Hfail. revert acc. induction l as [|y l IH]; intros acc; [contradiction|].
  cbn [fold_try]. destruct Hin as [->|Hin].
  - now rewrite Hfail.
  - destruct (body acc y); [now apply IH | reflexivity].
Qed.

(** a fold that leaves one key alone at every step leaves it alone *)
Lemma fold_try_keeps {K V B} `{Countable K}
    (body : gmap K V -> B -> option (gmap K V)) (skips : B -> Prop) (k : K) :
  (forall m x m', skips x -> body m x = Some m' -> m' !! k = m !! k) ->
  forall l m m',
    Forall skips l -> fold_try body m l = Some m' -> m' !! k = m !! k.
Proof.
  intros Hbody. induction l as [|x l IH]; intros m m' Hall; cbn [fold_try].
  - now intros [= <-].
  - inversion Hall as [|? ? Hx Hl]; subst.
    intros (m1 & Hstep & Hrest)%bind_Some.
    rewrite (IH _ _ Hl Hrest). now apply (Hbody _ x).
Qed.

Lemma add_level_entry levels lvl l fmt :
  level_entry py_int lvl l fmt -> add_level py_int levels lvl = Some (<[l := fmt]> levels).
Proof.
  intros (ilvl & numfmt & Hilvl & Hparse & Hfmt & Hval & Hne).
  unfold add_level. rewrite Hilvl, Hfmt, Hval.
  unfold PyStr.truthy. apply String.eqb_neq in Hne. rewrite Hne. cbn [negb].
  now rewrite Hparse.
Qed.

Lemma add_level_other levels lvl levels' l :
  other_level py_int l lvl -> add_level py_int levels lvl = Some levels' ->
  levels' !! l = levels !! l.
Proof.
  unfold other_level, add_level. intros Hother.
  destruct (ET.get lvl (_q "w" "ilvl")) as [ilvl|]; [|now intros [= <-]].
  destruct (ET.find lvl (_q "w" "numFmt")) as [numfmt|]; [|now intros [= <-]].
  destruct (ET.get numfmt (_q "w" "val")) as [fmt|]; [|now intros [= <-]].
  destruct (PyStr.truthy fmt); [|now intros [= <-]].
  destruct (py_int ilvl) as [n|] eqn:Hparse; [|discriminate].
  cbn. intros [= <-]. apply lookup_insert_ne. intros ->.
  now apply (Hother ilvl).
Qed.

Lemma levels_last_wins before lvl after l fmt levels :
  level_entry py_int lvl l fmt ->
  Forall (other_level py_int l) after ->
  fold_try (add_level py_int) ∅ (before ++ lvl :: after) = Some levels ->
  levels !! l = Some fmt.
Proof.
  intros Hentry Hafter (m1 & _ & Hrest)%fold_try_app.
  apply fold_try_cons in Hrest as (m2 & Hstep & Hrest).
  rewrite (add_level_entry _ _ _ _ Hentry) in Hstep. injection Hstep as <-.
  rewrite (fold_try_keeps _ (other_level py_int l) l (fun m x m' => add_level_other m x m' l)
             _ _ _ Hafter Hrest).
  apply lookup_insert_eq.
Qed.

Lemma add_abstract_other abstract_map abstract abstract_map' a :
  other_abstract a abstract ->
  add_abstract py_int abstract_map abstract = Some abstract_map' ->
  abstract_map' !! a = abstract_map !! a.
Proof.
  unfold other_abstract, add_abstract. intros Hother.
  destruct (ET.get abstract (_q "w" "abstractNumId")) as [id|]; [|now intros [= <-]].
  destruct (PyStr.truthy id); [|now intros [= <-]].
  intros (levels & _ & [= <-])%bind_Some.
  apply lookup_insert_ne. congruence.
Qed.

Lemma abstracts_last_wins before abstract after a abstract_map :
  ET.get abstract (_q "w" "abstractNumId") = Some a ->
  a <> "" ->
  Forall (other_abstract a) after ->
  fold_try (add_abstract py_int) ∅ (before ++ abstract :: after) = Some abstract_map ->
  exists levels,
    abstract_map !! a = Some levels
    /\ fold_try (add_level py_int) ∅ (ET.findall abstract (_q "w" "lvl")) = Some levels.
Proof.
  intros Hid Hne Hafter (m1 & _ & Hrest)%fold_try_app.
  apply fold_try_cons in Hrest as (m2 & Hstep & Hrest).
  unfold add_abstract in Hstep. rewrite Hid in Hstep.
  unfold PyStr.truthy in Hstep. apply String.eqb_neq in Hne. rewrite Hne in Hstep.
  cbn [negb] in Hstep. apply bind_Some in Hstep as (levels & Hlevels & [= <-]).
  exists levels. split; [|exact Hlevels].
  rewrite (fold_try_keeps _ (other_abstract a) a
             (fun m x m' => add_abstract_other m x m' a) _ _ _ Hafter Hrest).
  apply lookup_insert_eq.
Qed.

Lemma abstracts_origin abstracts abstract_map abstract_map' a levels :
  fold_try (add_abstract py_int) abstract_map abstracts = Some abstract_map' ->
  abstract_map' !! a = Some levels ->
  abstract_map !! a = Some levels
  \/ exists abstract,
       In abstract abstracts /\ ET.get abstract (_q "w" "abstractNumId") = Some a.
Proof.
  revert abstract_map.
  induction abstracts as [|abstract rest IH]; intros abstract_map; cbn [fold_try].
  - intros [= <-]. now left.
  - intros (m1 & Hstep & Hrest)%bind_Some Hlookup.
    destruct (IH _ Hrest Hlookup) as [Hhere | (x & Hin & Hx)].
    + destruct (decide (ET.get abstract (_q "w" "abstractNumId") = Some a))
        as [Hid|Hother].
      * right. exists abstract. split; [now left | exact Hid].
      * left. now rewrite <- (add_abstract_other _ _ _ a Hother Hstep).
    + right. exists x. split; [now right | exact Hx].
Qed.

Lemma add_num_entry abstract_map num_map num :
  add_num abstract_map num_map num
  = match num_entry num with
    | Some (num_id, abstract_id) =>
        <[num_id := default ∅ (abstract_map !! abstract_id)]> num_map
    | None => num_map
    end.
Proof.
  unfold add_num, num_entry.
  destruct (ET.get num (_q "w" "numId")) as [n|]; [|reflexivity].
  destruct (ET.find num (_q "w" "abstractNumId")) as [ref|]; [|reflexivity].
  destruct (PyStr.truthy n); [|reflexivity].
  destruct (ET.get ref (_q "w" "val")) as [a|]; [|reflexivity].
  now destruct (PyStr.truthy a).
Qed.

Lemma num_entry_id num n a :
  num_entry num = Some (n, a) -> ET.get num (_q "w" "numId") = Some n.
Proof.
  unfold num_entry.
  destruct (ET.get num (_q "w" "numId")) as [n'|]; [|discriminate].
  destruct (ET.find num (_q "w" "abstractNumId")) as [ref|]; [|discriminate].
  destruct (PyStr.truthy n'); [|discriminate].
  destruct (ET.get ref (_q "w" "val")) as [a'|]; [|discriminate].
  destruct (PyStr.truthy a'); [|discriminate].
  now intros [= -> _].
Qed.

Lemma nums_stay abstract_map nums num_map n levels :
  num_map !! n = Some levels ->
  (forall later, In later nums -> ET.get later (_q "w" "numId") <> Some n) ->
  foldl (add_num abstract_map) num_map nums !! n = Some levels.
Proof.
  revert num_map. induction nums as [|num rest IH]; intros num_map Hhere Hlater;
    cbn [foldl]; [exact Hhere|].
  apply IH; [|intros later Hin; apply Hlater; now right].
  rewrite add_num_entry. destruct (num_entry num) as [[n' a']|] eqn:Hnum; [|exact Hhere].
  rewrite lookup_insert_ne; [exact Hhere|].
  intros ->. apply (Hlater num); [now left | now apply num_entry_id in Hnum].
Qed.

Lemma nums_last_wins abstract_map before num after n a :
  num_entry num = Some (n, a) ->
  (forall later, In later after -> ET.get later (_q "w" "numId") <> Some n) ->
  foldl (add_num abstract_map) ∅ (before ++ num :: after) !! n
  = Some (default ∅ (abstract_map !! a)).
Proof.
  intros Hnum Hlater. rewrite foldl_app. cbn [foldl].
  apply nums_stay; [|exact Hlater].
  rewrite add_num_entry, Hnum. apply lookup_insert_eq.
Qed.

Lemma extract_list_info_env self paragraph target :
  _extract_list_info py_int self paragraph = Some target ->
  env target
  = if String.eqb
         (default "bullet"
            (default ∅ (num_formats self !! num_id target) !! level target))
         "bullet"
    then "itemize" else "enumerate".
Proof.
  unfold _extract_list_info. intros Hinfo.
  repeat match type of Hinfo with
         | match ?x with _ => _ end = _ => destruct x; [|discriminate Hinfo]
         | (if ?x then _ else _) = _ => destruct x; [discriminate Hinfo|]
         end.
  now injection Hinfo as <-.
Qed.

(** X19.  A level whose number is not an integer is not skipped: if it has
    a format, loading the numbering part raises [ValueError], which nothing
    catches. *)
Theorem load_numbering_bad_level root abstract abstract_id lvl ilvl numfmt fmt :
  In abstract (ET.findall root (_q "w" "abstractNum")) ->
  ET.get abstract (_q "w" "abstractNumId") = Some abstract_id ->
  abstract_id <> "" ->
  In lvl (ET.findall abstract (_q "w" "lvl")) ->
  ET.get lvl (_q "w" "ilvl") = Some ilvl ->
  ET.find lvl (_q "w" "numFmt") = Some numfmt ->
  ET.get numfmt (_q "w" "val") = Some fmt ->
  fmt <> "" ->
  py_int ilvl = None ->
  _load_numbering py_int (Some root) = None.
Proof.
  intros Habstract Hid Hne Hlvl Hilvl Hnumfmt Hval Hfmt Hparse.
  unfold _load_numbering.
  rewrite (fold_try_fails _ _ _ abstract Habstract); [reflexivity|].
  intros abstract_map. unfold add_abstract. rewrite Hid.
  unfold PyStr.truthy. apply String.eqb_neq in Hne. rewrite Hne. cbn [negb].
  rewrite (fold_try_fails _ _ _ lvl Hlvl); [reflexivity|].
  intros levels. unfold add_level. rewrite Hilvl, Hnumfmt, Hval.
  unfold PyStr.truthy. apply String.eqb_neq in Hfmt. rewrite Hfmt. cbn [negb].
  now rewrite Hparse.
Qed.

(** X20.  The format of a list level.  Take the last numbering instance
    numbered [n], the last abstract numbering it points to and, in it, the
    last level element for level [l]: if that element has format [fmt], the
    loaded map gives [fmt] for [n] at [l], and a paragraph of numbering [n]
    at level [l] is bulleted when [fmt] is ["bullet"] and numbered
    otherwise. *)
Theorem load_numbering_level_format
    root nf nums_before num nums_after n a
    abstracts_before abstract abstracts_after
    levels_before lvl levels_after l fmt :
  _load_numbering py_int (Some root) = Some nf ->
  ET.findall root (_q "w" "num") = nums_before ++ num :: nums_after ->
  num_entry num = Some (n, a) ->
  (forall later, In later nums_after -> ET.get later (_q "w" "numId") <> Some n) ->
  ET.findall root (_q "w" "abstractNum")
  = abstracts_before ++ abstract :: abstracts_after ->
  ET.get abstract (_q "w" "abstractNumId") = Some a ->
  Forall (other_abstract a) abstracts_after ->
  ET.findall abstract (_q "w" "lvl") = levels_before ++ lvl :: levels_after ->
  level_entry py_int lvl l fmt ->
  Forall (other_level py_int l) levels_after ->
  (exists levels, nf !! n = Some levels /\ levels !! l = Some fmt)
  /\ forall self paragraph target,
       num_formats self = nf ->
       _extract_list_info py_int self paragraph = Some target ->
       num_id target = n -> level target = l ->
       env target = if String.eqb fmt "bullet" then "itemize" else "enumerate".
Proof.
  intros Hload Hnums Hnum Hlater Habstracts Hid Hothers Hlevels Hentry Hafter.
  unfold _load_numbering in Hload.
  apply bind_Some in Hload as (abstract_map & Hmap & [= <-]).
  assert (a <> "") as Hne.
  { unfold num_entry in Hnum.
    destruct (ET.get num (_q "w" "numId")); [|discriminate].
    destruct (ET.find num (_q "w" "abstractNumId")) as [ref|]; [|discriminate].
    destruct (PyStr.truthy s); [|discriminate].
    destruct (ET.get ref (_q "w" "val")) as [a'|]; [|discriminate].
    destruct (PyStr.truthy a') eqn:Ha; [|discriminate].
    injection Hnum as _ <-. intros ->. discriminate Ha. }
  rewrite Habstracts in Hmap.
  destruct (abstracts_last_wins _ _ _ _ _ Hid Hne Hothers Hmap) as (levels & Hlookup & Hfold).
  rewrite Hlevels in Hfold.
  pose proof (levels_last_wins _ _ _ _ _ _ Hentry Hafter Hfold) as Hfmt.
  assert (foldl (add_num abstract_map) ∅ (ET.findall root (_q "w" "num")) !! n
          = Some levels) as Hn.
  { rewrite Hnums, (nums_last_wins _ _ _ _ _ _ Hnum Hlater). now rewrite Hlookup. }
  split; [now exists levels|].
  intros self paragraph target Hself Hinfo Hnid Hlvl.
  rewrite (extract_list_info_env _ _ _ Hinfo), Hself, Hnid, Hlvl, Hn.
  cbn [default]. unfold id. now rewrite Hfmt.
Qed.

(** X21.  A numbering instance that points to an abstract numbering the
    part does not define is loaded with no level formats, so its paragraphs
    are bulleted at every level. *)
Theorem load_numbering_undefined_abstract
    root nf nums_before num nums_after n a :
  _load_numbering py_int (Some root) = Some nf ->
  ET.findall root (_q "w" "num") = nums_before ++ num :: nums_after ->
  num_entry num = Some (n, a) ->
  (forall later, In later nums_after -> ET.get later (_q "w" "numId") <> Some n) ->
  Forall (other_abstract a) (ET.findall root (_q "w" "abstractNum")) ->
  nf !! n = Some ∅
  /\ forall self paragraph target,
       num_formats self = nf ->
       _extract_list_info py_int self paragraph = Some target ->
       num_id target = n ->
       env target = "itemize".
Proof.
  intros Hload Hnums Hnum Hlater Hothers.
  unfold _load_numbering in Hload.
  apply bind_Some in Hload as (abstract_map & Hmap & [= <-]).
  assert (abstract_map !! a = None) as Hnone.
  { destruct (abstract_map !! a) as [levels|] eqn:Hlookup; [|reflexivity].
    destruct (abstracts_origin _ _ _ _ _ Hmap Hlookup) as [H | (x & Hin & Hx)].
    - now rewrite lookup_empty in H.
    - rewrite List.Forall_forall in Hothers. now destruct (Hothers x Hin). }
  assert (foldl (add_num abstract_map) ∅ (ET.findall root (_q "w" "num")) !! n
          = Some ∅) as Hn.
  { rewrite Hnums, (nums_last_wins _ _ _ _ _ _ Hnum Hlater). now rewrite Hnone. }
  split; [exact Hn|].
  intros self paragraph target Hself Hinfo Hnid.
  rewrite (extract_list_info_env _ _ _ Hinfo), Hself, Hnid, Hn.
  cbn [default]. unfold id. now rewrite lookup_empty.
Qed.

End NumberingLaws.

Lemma load_numbering_bad_level_witness :
  _load_numbering PyInt.parse (Some Package.bad_numbering_root) = None.
Proof.
  apply (load_numbering_bad_level PyInt.parse Package.bad_numbering_root
           (Package.abstractNum "10"
              [Package.lvl "0" "decimal"; Package.lvl "one" "bullet"])
           "10" (Package.lvl "one" "bullet") "one"
           (Sample.elem (Sample.w "numFmt") (Sample.val "bullet") []) "bullet").
  - now left.
  - reflexivity.
  - discriminate.
  - right. now left.
  - reflexivity.
  - reflexivity.
  - reflexivity.
  - discriminate.
  - reflexivity.
Defined.

Lemma load_numbering_level_format_witness :
  exists nf levels,
    _load_numbering PyInt.parse (Some Package.numbering_root) = Some nf
    /\ nf !! "1" = Some levels
    /\ levels !! 1 = Some "bullet".
Proof.
  assert (exists nf, _load_numbering PyInt.parse (Some Package.numbering_root) = Some nf)
    as [nf Hload] by (vm_compute; eexists; reflexivity).
  exists nf.
  destruct (proj1 (load_numbering_level_format PyInt.parse Package.numbering_root nf
           [] (Package.num "1" "10") [Package.num "2" "99"] "1" "10"
           [] (Package.abstractNum "10"
                 [Package.lvl "0" "decimal"; Package.lvl "1" "bullet"]) []
           [Package.lvl "0" "decimal"] (Package.lvl "1" "bullet") [] 1 "bullet"
           Hload
           ltac:(reflexivity)
           ltac:(reflexivity)
           ltac:(intros later [<-|[]]; discriminate)
           ltac:(reflexivity)
           ltac:(reflexivity)
           ltac:(constructor)
           ltac:(reflexivity)
           ltac:(exists "1", (Sample.elem (Sample.w "numFmt") (Sample.val "bullet") []);
                 repeat split; try reflexivity; discriminate)
           ltac:(constructor))) as (levels & Hn & Hl).
  exists levels. now repeat split.
Defined.

Lemma load_numbering_undefined_abstract_witness :
  exists nf,
    _load_numbering PyInt.parse (Some Package.numbering_root) = Some nf
    /\ nf !! "2" = Some ∅.
Proof.
  assert (exists nf, _load_numbering PyInt.parse (Some Package.numbering_root) = Some nf)
    as [nf Hload] by (vm_compute; eexists; reflexivity).
  exists nf. split; [exact Hload|].
  refine (proj1 (load_numbering_undefined_abstract PyInt.parse Package.numbering_root nf
           [Package.num "1" "10"] (Package.num "2" "99") [] "2" "99"
           Hload _ _ _ _)).
  - reflexivity.
  - reflexivity.
  - intros later [].
  - repeat constructor. discriminate.
Defined.

(** ** Elements the converter passes over *)

Section Skipped.
Import Spec Laws.

Variable py_int : string -> option Z.
Variable path_name : string -> string.
Variable self : Converter.

(** a loop whose body does nothing on some elements runs the same without
    them *)
Lemma for_filter {A S} (body : A -> S -> M S) (known : A -> bool) :
  (forall x acc st, known x = false -> body x acc st = Ok (acc, st)) ->
  forall l acc st, for_ body (List.filter known l) acc st = for_ body l acc st.
Proof.
  intros Hskip. induction l as [|x l IH]; intros acc st; [reflexivity|].
  cbn [List.filter for_]. destruct (known x) eqn:Hx.
  - cbn [for_]. unfold mbind, M_bind.
    destruct (body x acc st) as [[acc' st']|e]; [apply IH | reflexivity].
  - unfold mbind, M_bind. rewrite (Hskip _ _ _ Hx). apply IH.
Qed.

Lemma bind_same {A B} (c1 c2 : M A) (k : A -> M B) st :
  c1 st = c2 st -> mbind k c1 st = mbind k c2 st.
Proof. unfold mbind, M_bind. now intros ->. Qed.

Lemma collect_runs_child_skips child acc st :
  inline_known child = false ->
  collect_runs_child py_int path_name self child acc st = Ok (acc, st).
Proof.
  unfold inline_known, collect_runs_child. destruct acc as [fragments blocks].
  intros H. rewrite !orb_false_iff in H. destruct_and!.
  repeat match goal with Heq : String.eqb _ _ = false |- _ => rewrite Heq; clear Heq end.
  reflexivity.
Qed.

Lemma convert_block_skips element st :
  block_known element = false ->
  _convert_block py_int path_name self element st = Ok ([], st).
Proof.
  unfold block_known, _convert_block.
  intros H. rewrite !orb_false_iff in H. destruct_and!.
  repeat match goal with Heq : String.eqb _ _ = false |- _ => rewrite Heq; clear Heq end.
  reflexivity.
Qed.

(** X22.  The text and the blocks of a paragraph come from its runs,
    hyperlinks, simple fields and formulas only: every other child (tracked
    insertions, structured tags, bookmarks, ...) is passed over, with what it
    contains. *)
Theorem collect_runs_known_children paragraph st :
  _collect_runs py_int path_name self
    (with_children paragraph (List.filter inline_known (children paragraph))) st
  = _collect_runs py_int path_name self paragraph st.
Proof.
  unfold _collect_runs, with_children. cbn [children].
  apply bind_same, for_filter. intros. now apply collect_runs_child_skips.
Qed.

(** X23.  The body is converted from its paragraphs, tables and section
    properties only: without its other children a body gives the same lines
    and the same state. *)
Theorem convert_body_known_blocks body st :
  convert_body py_int path_name self
    (with_children body (List.filter block_known (children body))) st
  = convert_body py_int path_name self body st.
Proof.
  unfold convert_body, with_children. cbn [children].
  apply bind_same, for_filter. intros x acc st0 Hx. unfold mbind, M_bind.
  rewrite (convert_block_skips _ _ Hx). unfold mret, M_ret.
  now rewrite app_nil_r.
Qed.

End Skipped.

(** ** Text never reads as a list directive *)

Section HeadOfText.
Import Spec Laws.

Lemma unforged_content line :
  PyStr.startswith line "\b" = false ->
  PyStr.startswith line "\en" = false ->
  content line.
Proof.
  intros Hb He. unfold content, opened_env, closed_env.
  destruct (String.eqb_spec line "\begin{itemize}") as [->|_]; [discriminate Hb|].
  destruct (String.eqb_spec line "\begin{enumerate}") as [->|_]; [discriminate Hb|].
  destruct (String.eqb_spec line "\end{itemize}") as [->|_]; [discriminate He|].
  destruct (String.eqb_spec line "\end{enumerate}") as [->|_]; [discriminate He|].
  now split.
Qed.

Lemma startswith_app s r p :
  PyStr.startswith s p = true -> PyStr.startswith (s +:+ r) p = true.
Proof.
  revert s. induction p as [|a p IH]; intros s; [reflexivity|].
  destruct s as [|b s]; [discriminate|]. cbn [PyStr.startswith String.append].
  intros [-> H]%andb_prop. now rewrite (IH _ H).
Qed.

Lemma startswith_rstrip s p :
  PyStr.startswith s p = false -> PyStr.startswith (PyStr.rstrip s) p = false.
Proof.
  intros H. destruct (PyStr.startswith (PyStr.rstrip s) p) eqn:Hr; [|reflexivity].
  destruct (rstrip_split s) as (r & Hs & _).
  rewrite Hs, (startswith_app _ r _ Hr) in H. discriminate H.
Qed.

(** a line that does not begin like [\begin] or [\end] *)
Lemma unforged_settled line :
  PyStr.startswith line "\b" = false ->
  PyStr.startswith line "\en" = false ->
  settled line.
Proof.
  intros Hb He. split; apply unforged_content;
    first [assumption | now apply startswith_rstrip].
Qed.

Lemma plain_head_app a b :
  plain_head a = true -> plain_head b = true -> plain_head (a +:+ b) = true.
Proof.
  intros Ha Hb. induction a as [|c r IH]; [exact Hb|].
  cbn [String.append plain_head] in *.
  destruct (PyStr.is_space c); [now apply IH|].
  destruct (Ascii.eqb c "\"); [|reflexivity].
  destruct r as [|d r']; [discriminate|]. cbn [String.append command_head] in *.
  destruct (Ascii.eqb d "b"); [discriminate|].
  destruct (Ascii.eqb d "e"); [|reflexivity].
  destruct r' as [|f r'']; [discriminate|]. exact Ha.
Qed.

Lemma concat_cons part parts :
  PyStr.concat (part :: parts) = part +:+ PyStr.concat parts.
Proof.
  unfold PyStr.concat. cbn [String.concat].
  destruct parts; [now rewrite app_empty_r | reflexivity].
Qed.

Lemma plain_head_concat parts :
  Forall (fun part => plain_head part = true) parts ->
  plain_head (PyStr.concat parts) = true.
Proof.
  induction 1 as [|part parts Hpart _ IH]; [reflexivity|].
  rewrite concat_cons. now apply plain_head_app.
Qed.

Lemma plain_head_escape_char ch : plain_head (escape_char ch) = true.
Proof. destruct ch as [[] [] [] [] [] [] [] []]; vm_compute; reflexivity. Qed.

Lemma plain_head_escape text : plain_head (escape_latex text) = true.
Proof.
  induction text as [|ch text IH]; [reflexivity|].
  cbn [escape_latex]. apply plain_head_app; [apply plain_head_escape_char | exact IH].
Qed.

Lemma command_head_sub_spaces r :
  command_head r = true -> command_head (PyStr.sub_spaces_from false r) = true.
Proof.
  destruct r as [|d r]; [discriminate|]. cbn [command_head PyStr.sub_spaces_from].
  destruct (PyStr.is_space d) eqn:Hd; [reflexivity|]. cbn [command_head].
  destruct (Ascii.eqb d "b"); [discriminate|].
  destruct (Ascii.eqb d "e"); [|reflexivity].
  destruct r as [|f r]; [discriminate|]. cbn [PyStr.sub_spaces_from].
  destruct (PyStr.is_space f) eqn:Hf; [reflexivity | trivial].
Qed.

Lemma plain_head_sub_spaces in_run s :
  plain_head s = true -> plain_head (PyStr.sub_spaces_from in_run s) = true.
Proof.
  revert in_run. induction s as [|c r IH]; intros in_run; [reflexivity|].
  cbn [plain_head PyStr.sub_spaces_from].
  destruct (PyStr.is_space c) eqn:Hc.
  - intros H. destruct in_run; [now apply IH|].
    cbn [plain_head]. change (PyStr.is_space " ") with true. cbv iota. now apply IH.
  - cbn [plain_head]. rewrite Hc.
    destruct (Ascii.eqb c "\"); [apply command_head_sub_spaces | reflexivity].
Qed.

Lemma plain_head_starts s :
  plain_head s = true ->
  PyStr.startswith (PyStr.lstrip s) "\b" = false
  /\ PyStr.startswith (PyStr.lstrip s) "\en" = false.
Proof.
  induction s as [|c r IH]; [now split|].
  cbn [plain_head PyStr.lstrip].
  destruct (PyStr.is_space c); [exact IH|].
  cbn [PyStr.startswith].
  destruct (Ascii.eqb_spec "\" c) as [<-|Hc]; [|now split].
  change (Ascii.eqb "\" "\") with true. cbv iota.
  destruct r as [|d r]; [discriminate|]. cbn [command_head andb].
  rewrite (Ascii.eqb_sym d "b"), (Ascii.eqb_sym d "e").
  destruct (Ascii.eqb "b" d); [discriminate|].
  destruct (Ascii.eqb "e" d); [|now split].
  destruct r as [|f r]; [discriminate|].
  rewrite (Ascii.eqb_sym f "n"). now destruct (Ascii.eqb "n" f).
Qed.

(** a paragraph's text, once normalized, is not a list directive *)
Lemma normalized_settled text :
  plain_head text = true -> settled (normalize_whitespace text).
Proof.
  intros H. unfold normalize_whitespace, PyStr.strip, PyStr.sub_spaces.
  apply (plain_head_sub_spaces false), plain_head_starts in H as [Hb He].
  apply unforged_settled; now apply startswith_rstrip.
Qed.

Lemma last_char_snoc s c : last_char (s +:+ String c "") = Some c.
Proof.
  induction s as [|a s IH]; [reflexivity|].
  cbn [String.append last_char]. rewrite IH.
  now destruct (s +:+ String c "") eqn:E; [destruct s; discriminate E|].
Qed.

Lemma last_char_space s c :
  last_char s = Some c -> ends_with_space s = PyStr.is_space c.
Proof.
  induction s as [|a r IH]; [discriminate|].
  destruct r as [|b r']; [now intros [= ->] | exact IH].
Qed.

(** a line that ends in a character that is not white space is settled as
    soon as it is not a directive *)
Lemma ends_settled prefix c :
  PyStr.is_space c = false ->
  content (prefix +:+ String c "") ->
  settled (prefix +:+ String c "").
Proof.
  intros Hc Hcontent. split; [exact Hcontent|].
  rewrite rstrip_fixed; [exact Hcontent|].
  now rewrite (last_char_space _ c) by apply last_char_snoc.
Qed.

(** a row of a table ends in a break, so it is not a list directive *)
Lemma row_settled cells : settled (cells +:+ " \\").
Proof.
  change " \\" with (" \" +:+ "\"). rewrite <- string_app_assoc.
  apply ends_settled; [reflexivity|].
  pose proof (last_char_snoc (cells +:+ " \") "\") as Hlast.
  unfold content, opened_env, closed_env.
  repeat match goal with
         | |- context [String.eqb ?a ?b] =>
             destruct (String.eqb_spec a b) as [Heq|_];
             [rewrite Heq in Hlast; discriminate Hlast|]
         end.
  now split.
Qed.

Lemma longtable_settled spec : settled ("\begin{longtable}{" +:+ spec +:+ "}").
Proof.
  rewrite <- string_app_assoc. apply ends_settled; [reflexivity|].
  rewrite string_app_assoc. now split.
Qed.

Lemma plain_head_wrap wrapper escaped :
  In wrapper ["textbf"; "emph"; "underline"] ->
  plain_head (wrap wrapper escaped) = true.
Proof. intros [<-|[<-|[<-|[]]]]; reflexivity. Qed.

Lemma plain_head_wrappers wrappers escaped :
  Forall (fun wrapper => In wrapper ["textbf"; "emph"; "underline"]) wrappers ->
  plain_head escaped = true ->
  plain_head (fold_left (fun escaped wrapper => wrap wrapper escaped) wrappers escaped)
  = true.
Proof.
  intros H. revert escaped. induction H as [|wrapper wrappers Hw _ IH];
    intros escaped He; [exact He|].
  cbn [fold_left]. apply IH. now apply plain_head_wrap.
Qed.

Lemma plain_head_format_run_text text_node run :
  plain_head (_format_run_text text_node run) = true.
Proof.
  unfold _format_run_text.
  destruct (ET.find run (_q "w" "rPr")) as [rpr|]; [|apply plain_head_escape].
  apply plain_head_wrappers.
  - repeat match goal with
           | |- context [match ?x with _ => _ end] => destruct x
           end;
      repeat first [ apply List.Forall_nil
                   | apply Forall_app; split
                   | apply List.Forall_cons; [cbn; tauto|] ].
  - repeat match goal with
           | |- context [match ?x with _ => _ end] => destruct x
           end;
      first [apply plain_head_escape | reflexivity].
Qed.

Lemma plain_head_math element : plain_head (_convert_math element) = true.
Proof. unfold _convert_math. now destruct (omap _ _). Qed.

Lemma nest_app opened l1 l2 :
  nest opened (l1 ++ l2) = nest opened l1 ≫= fun opened' => nest opened' l2.
Proof.
  revert opened. induction l1 as [|line l1 IH]; intros opened; [reflexivity|].
  cbn [app nest]. destruct (opened_env line) as [e|]; [apply IH|].
  destruct (closed_env line) as [e|]; [|apply IH].
  destruct opened as [|top below]; [reflexivity|].
  destruct (String.eqb top e); [apply IH | reflexivity].
Qed.

(** blank lines do not count *)
Lemma nest_skips_blank opened lines :
  nest opened (List.filter PyStr.truthy lines) = nest opened lines.
Proof.
  revert opened. induction lines as [|line lines IH]; intros opened; [reflexivity|].
  cbn [List.filter]. destruct (PyStr.truthy line) eqn:Hline.
  - cbn [nest]. destruct (opened_env line); [apply IH|].
    destruct (closed_env line); [|apply IH].
    destruct opened as [|top below]; [reflexivity|].
    destruct (String.eqb top _); [apply IH | reflexivity].
  - apply truthy_false in Hline as ->. apply IH.
Qed.

(** cleaning the lines is, for the nesting, removing their trailing white
    space *)
Lemma nest_clean opened lines :
  nest opened (_clean_lines lines) = nest opened (map PyStr.rstrip lines).
Proof.
  rewrite <- (nest_skips_blank _ (_clean_lines lines)).
  rewrite <- (nest_skips_blank _ (map PyStr.rstrip lines)).
  unfold _clean_lines. now rewrite clean_lines_from_content.
Qed.

Lemma replicate_snoc {A} (n : nat) (x : A) l :
  replicate n x ++ x :: l = x :: replicate n x ++ l.
Proof. induction n as [|n IH]; [reflexivity|]. cbn. now rewrite IH. Qed.

Lemma opened_for_envs target new :
  Forall (opened_for target) new -> map env new = replicate (length new) (env target).
Proof.
  induction 1 as [|state new [Henv _] _ IH]; [reflexivity|].
  cbn. now rewrite Henv, IH.
Qed.

End HeadOfText.

(** ** The lists of a converted body are well nested

    The lines are read through a function [f] that keeps the list
    directives and does not turn a settled line into one: below [f] is the
    identity, for the lines as they are produced, and [rstrip], for the lines
    as they are written. *)

Section Nesting.
Import Spec Laws.

Variable py_int : string -> option Z.
Variable path_name : string -> string.
Variable self : Converter.

Variable f : string -> string.
Hypothesis f_begin : forall e, list_env e -> f (begin_line e) = begin_line e.
Hypothesis f_end :
  forall state, list_env (env state) -> f (end_line state) = end_line state.
Hypothesis f_settled : forall line, settled line -> content (f line).

Lemma nest_settled opened lines :
  Forall settled lines -> nest opened (map f lines) = Some opened.
Proof.
  induction 1 as [|line lines Hline _ IH]; [reflexivity|].
  cbn [map nest]. destruct (f_settled _ Hline) as [-> ->]. exact IH.
Qed.

Lemma nest_then_settled opened lines extra opened' :
  nest opened (map f lines) = Some opened' ->
  Forall settled extra ->
  nest opened (map f (lines ++ extra)) = Some opened'.
Proof.
  intros Hlines Hextra. rewrite (map_app f), nest_app, Hlines. cbn.
  now apply nest_settled.
Qed.

Lemma opened_env_begin e : list_env e -> opened_env (begin_line e) = Some e.
Proof. now intros [-> | ->]. Qed.

Lemma closed_env_end state :
  list_env (env state) ->
  opened_env (end_line state) = None /\ closed_env (end_line state) = Some (env state).
Proof. unfold end_line. now intros [-> | ->]. Qed.

Lemma nest_close popped kept :
  list_envs popped ->
  nest (map env (popped ++ kept)) (map f (map end_line popped)) = Some (map env kept).
Proof.
  induction 1 as [|state popped Hstate _ IH]; [reflexivity|].
  cbn [app map nest]. rewrite (f_end _ Hstate).
  destruct (closed_env_end _ Hstate) as [-> ->].
  now rewrite String.eqb_refl.
Qed.

Lemma nest_open e n opened :
  list_env e ->
  nest opened (map f (replicate n (begin_line e))) = Some (replicate n e ++ opened).
Proof.
  intros He. revert opened. induction n as [|n IH]; intros opened; [reflexivity|].
  cbn [replicate map nest]. rewrite (f_begin _ He), (opened_env_begin _ He), IH.
  now rewrite replicate_snoc.
Qed.

Lemma close_all_nest stack :
  list_envs stack ->
  nest (map env stack) (map f (fst (close_all_lists stack))) = Some [].
Proof.
  intros Henvs. unfold close_all_lists. rewrite close_all_shape. cbn [fst app].
  pose proof (nest_close stack [] Henvs) as H. now rewrite app_nil_r in H.
Qed.

(** the machine keeps the lines well nested: read with the environments of
    the stack before, its lines leave the environments of the stack after *)
Lemma sync_nest target stack :
  levels_ok stack ->
  list_envs stack ->
  (forall state, target = Some state -> list_env (env state)) ->
  nest (map env stack) (map f (fst (sync_list_stack target stack)))
  = Some (map env (snd (sync_list_stack target stack)))
  /\ list_envs (snd (sync_list_stack target stack)).
Proof.
  intros Hok Henvs Htarget. destruct target as [target|].
  - specialize (Htarget target eq_refl).
    destruct (sync_stages target stack Hok)
      as (popped & kept & new & -> & -> & Hnew & _).
    apply Forall_app in Henvs as [Hpopped Hkept]. cbn [fst snd]. split.
    + rewrite (map_app f), nest_app, (nest_close _ _ Hpopped). cbn.
      rewrite (nest_open _ _ _ Htarget), (map_app env).
      now rewrite (opened_for_envs _ _ Hnew).
    + apply Forall_app. split; [|exact Hkept].
      eapply Forall_impl; [exact Hnew|]. intros state [Henv _].
      unfold list_env. now rewrite Henv.
  - cbn [sync_list_stack].
    assert (snd (close_all_lists stack) = []) as ->
      by (unfold close_all_lists; now rewrite close_all_shape).
    split; [now apply close_all_nest | constructor].
Qed.

Lemma yields_ret {A} (a : A) (P : A -> Prop) : P a -> yields (mret a) P.
Proof. intros Ha st a' st' [= <- _]. exact Ha. Qed.

Lemma yields_bind {A B} (c : M A) (k : A -> M B) (P : A -> Prop) (Q : B -> Prop) :
  yields c P -> (forall a, P a -> yields (k a) Q) -> yields (c ≫= k) Q.
Proof.
  intros Hc Hk st b st'. unfold mbind, M_bind.
  destruct (c st) as [[a st1]|e] eqn:Hrun; [|discriminate].
  intros H. eapply Hk; [eapply Hc, Hrun | exact H].
Qed.

Lemma yields_any {A} (c : M A) : yields c (fun _ => True).
Proof. now intros st a st' _. Qed.

Lemma yields_for {A S} (I : S -> Prop) (body : A -> S -> M S) l acc :
  (forall x acc, I acc -> yields (body x acc) I) ->
  I acc -> yields (for_ body l acc) I.
Proof.
  intros Hbody. revert acc. induction l as [|x l IH]; intros acc Hacc.
  - now apply yields_ret.
  - cbn [for_]. eapply yields_bind; [now apply Hbody|].
    intros acc' Hacc'. now apply IH.
Qed.

Lemma bind_ok {A B} (c : M A) (k : A -> M B) st b st' :
  (c ≫= k) st = Ok (b, st') ->
  exists a st1, c st = Ok (a, st1) /\ k a st1 = Ok (b, st').
Proof.
  unfold mbind, M_bind. destruct (c st) as [[a st1]|e]; [|discriminate].
  intros H. now exists a, st1.
Qed.

Lemma parts_text texts blocks part :
  plain_parts (texts, blocks) -> plain_head part = true ->
  plain_parts (texts ++ [part], blocks).
Proof.
  intros [Ht Hb] Hpart. split; [|exact Hb].
  apply Forall_app. split; [exact Ht | now constructor].
Qed.

Lemma parts_blocks texts blocks new_blocks :
  plain_parts (texts, blocks) -> Forall settled new_blocks ->
  plain_parts (texts, blocks ++ new_blocks).
Proof.
  intros [Ht Hb] Hnew. split; [exact Ht|]. apply Forall_app. now split.
Qed.

(** a line given in full, or by a beginning that tells *)
Ltac settle :=
  first [ apply unforged_settled; reflexivity
        | split; split; reflexivity ].

Lemma yields_convert_drawing drawing :
  yields (_convert_drawing py_int path_name self drawing)
    (fun figure => forall lines, figure = Some lines -> Forall settled lines).
Proof.
  unfold _convert_drawing.
  repeat match goal with
         | |- yields (mret None) _ => apply yields_ret; discriminate
         | |- yields (match ?x with _ => _ end) _ => destruct x
         end.
  eapply yields_bind; [apply yields_any|]. intros _ _.
  eapply yields_bind; [apply yields_any|]. intros width _.
  apply yields_ret. intros lines [= <-].
  destruct (caption_of _) as [caption|]; [destruct (PyStr.truthy caption)|];
    repeat first [ apply List.Forall_nil
                 | apply Forall_app; split
                 | apply List.Forall_cons; [settle|] ].
Qed.

Lemma yields_convert_run_child run child acc :
  plain_parts acc ->
  yields (convert_run_child py_int path_name self run child acc) plain_parts.
Proof.
  destruct acc as [texts blocks]. intros Hacc. unfold convert_run_child.
  repeat match goal with
         | |- yields (if ?c then _ else _) _ => destruct c
         end.
  - apply yields_ret, parts_text; [exact Hacc | apply plain_head_format_run_text].
  - now apply yields_ret, parts_text.
  - now apply yields_ret, parts_text.
  - eapply yields_bind; [apply yields_convert_drawing|].
    intros [[|l ls]|] Hfigure; apply yields_ret; try exact Hacc.
    apply parts_blocks; [exact Hacc | now apply Hfigure].
  - apply yields_ret, parts_blocks; [exact Hacc|].
    constructor; [settle | constructor].
  - apply yields_ret, parts_text; [exact Hacc | apply plain_head_math].
  - now apply yields_ret.
  - now apply yields_ret.
Qed.

Lemma yields_convert_run run :
  yields (_convert_run py_int path_name self run) plain_text.
Proof.
  unfold _convert_run. eapply yields_bind.
  - apply (yields_for plain_parts).
    + intros child acc. apply yields_convert_run_child.
    + split; constructor.
  - intros [texts blocks] [Ht Hb]. apply yields_ret.
    split; [now apply plain_head_concat | exact Hb].
Qed.

Lemma yields_run_loop runs acc :
  plain_parts acc ->
  yields
    (for_ (fun run '(text_parts, blocks) =>
             '(text, block) ← _convert_run py_int path_name self run;
             mret (text_parts ++ [text], blocks ++ block))
          runs acc)
    plain_parts.
Proof.
  apply yields_for. intros run [text_parts blocks] Hacc.
  eapply yields_bind; [apply yields_convert_run|].
  intros [text block] [Ht Hb]. apply yields_ret.
  now apply parts_blocks; [apply parts_text|].
Qed.

Lemma yields_convert_hyperlink hyperlink :
  yields (_convert_hyperlink py_int path_name self hyperlink) plain_text.
Proof.
  unfold _convert_hyperlink, hyperlink_runs. cbv zeta.
  eapply yields_bind; [apply yields_run_loop; split; constructor|].
  intros [parts blocks] [Hp Hb]. apply plain_head_concat in Hp.
  repeat match goal with
         | |- yields (match ?x with _ => _ end) _ => destruct x
         end;
    apply yields_ret; (split; [first [exact Hp | reflexivity] | exact Hb]).
Qed.

Lemma yields_collect_runs_child child acc :
  plain_parts acc ->
  yields (collect_runs_child py_int path_name self child acc) plain_parts.
Proof.
  destruct acc as [fragments blocks]. intros Hacc. unfold collect_runs_child.
  repeat match goal with
         | |- yields (if ?c then _ else _) _ => destruct c
         end.
  - eapply yields_bind; [apply yields_convert_run|].
    intros [text block] [Ht Hb]. apply yields_ret.
    now apply parts_blocks; [apply parts_text|].
  - eapply yields_bind; [apply yields_convert_hyperlink|].
    intros [text block] [Ht Hb]. apply yields_ret.
    now apply parts_blocks; [apply parts_text|].
  - eapply yields_bind.
    + apply yields_run_loop. split; [constructor | apply Hacc].
    + intros [text_parts blocks'] [Ht Hb]. apply yields_ret.
      split; [|exact Hb]. apply Forall_app. split; [apply Hacc|].
      constructor; [now apply plain_head_concat | constructor].
  - apply yields_ret, parts_text; [exact Hacc | apply plain_head_math].
  - now apply yields_ret.
Qed.

Lemma yields_collect_runs paragraph :
  yields (_collect_runs py_int path_name self paragraph) plain_text.
Proof.
  unfold _collect_runs. eapply yields_bind.
  - apply (yields_for plain_parts).
    + intros child acc. apply yields_collect_runs_child.
    + split; constructor.
  - intros [fragments blocks] [Ht Hb]. apply yields_ret.
    split; [now apply plain_head_concat | exact Hb].
Qed.

Lemma render_table_settled rows_data max_cols :
  Forall settled (render_table rows_data max_cols).
Proof.
  unfold render_table. cbv zeta.
  repeat (apply Forall_app; split).
  - constructor; [apply longtable_settled|]. constructor; [settle | constructor].
  - induction rows_data as [|row rows_data IH]; [constructor|].
    cbn [map concat]. apply Forall_app. split; [|exact IH].
    unfold render_row. constructor; [apply row_settled|].
    constructor; [settle | constructor].
  - constructor; [settle | constructor].
Qed.

Lemma yields_convert_table table :
  yields (_convert_table py_int path_name self table) (Forall settled).
Proof.
  unfold _convert_table. eapply yields_bind; [apply yields_any|].
  intros [rows_data max_cols] _. apply yields_ret, render_table_settled.
Qed.

(** outside a list a paragraph adds lines that are not list directives *)
Lemma nest_plain_paragraph opened opened' style text_content block_fragments lines :
  nest opened (map f lines) = Some opened' ->
  (PyStr.truthy text_content = true -> settled text_content) ->
  Forall settled block_fragments ->
  nest opened
    (map f (plain_paragraph_lines false style text_content block_fragments lines))
  = Some opened'.
Proof.
  intros Hlines Htext Hblocks. unfold plain_paragraph_lines. cbv zeta.
  match goal with
  | |- nest _ (map f (match last ?L with _ => _ end)) = _ =>
      assert (nest opened (map f L) = Some opened') as HL;
      [| destruct (last L) as [l|]; [|exact HL];
         destruct (negb (PyStr.truthy l)); [exact HL|];
         cbn [negb]; apply nest_then_settled; [exact HL|];
         constructor; [settle | constructor] ]
  end.
  apply nest_then_settled; [|exact Hblocks].
  destruct (PyStr.truthy text_content).
  - specialize (Htext eq_refl). rewrite !andb_true_r.
    repeat match goal with
           | |- context [if ?c then _ else _] => destruct c
           end;
      repeat apply nest_then_settled; try exact Hlines;
      (constructor; [first [exact Htext | settle] | constructor]).
  - rewrite !andb_false_r. exact Hlines.
Qed.

Lemma extracted_env paragraph target :
  _extract_list_info py_int self paragraph = Some target -> list_env (env target).
Proof.
  intros H. rewrite (extract_list_info_env _ _ _ _ H).
  destruct (String.eqb _ "bullet"); [now left | now right].
Qed.

Lemma convert_paragraph_nest paragraph st lines st' :
  levels_ok (list_stack st) ->
  list_envs (list_stack st) ->
  _convert_paragraph py_int path_name self paragraph false false st = Ok (lines, st') ->
  nest (map env (list_stack st)) (map f lines) = Some (map env (list_stack st'))
  /\ list_envs (list_stack st').
Proof.
  intros Hok Henvs Hrun.
  pose proof (convert_paragraph_stack _ _ _ _ _ _ _ _ Hrun) as Hstack.
  cbv iota in Hstack.
  destruct (sync_nest (_extract_list_info py_int self paragraph) (list_stack st)
              Hok Henvs) as [Hnest Henvs'].
  { intros state. apply extracted_env. }
  rewrite Hstack. split; [|exact Henvs'].
  unfold _convert_paragraph in Hrun. cbv beta iota zeta in Hrun. cbn [negb] in Hrun.
  apply bind_ok in Hrun as (lines0 & st1 & Hsync & Hrun).
  unfold _sync_list_stack in Hsync. rewrite on_stack_run in Hsync.
  injection Hsync as <- <-.
  apply bind_ok in Hrun as ([text blocks] & st2 & Hcollect & Hrun).
  destruct (yields_collect_runs _ _ _ _ Hcollect) as [Htext Hblocks].
  cbn [fst snd] in Htext, Hblocks. cbv beta iota in Hrun.
  destruct (_extract_list_info py_int self paragraph) as [target|].
  - destruct (_ && _); injection Hrun as <- _; [exact Hnest|].
    repeat apply nest_then_settled; [exact Hnest | | exact Hblocks].
    constructor; [|constructor]. destruct (PyStr.truthy _); settle.
  - injection Hrun as <- _. apply nest_plain_paragraph; [exact Hnest | | exact Hblocks].
    intros _. now apply normalized_settled.
Qed.

Lemma convert_block_nest element st lines st' :
  levels_ok (list_stack st) ->
  list_envs (list_stack st) ->
  _convert_block py_int path_name self element st = Ok (lines, st') ->
  nest (map env (list_stack st)) (map f lines) = Some (map env (list_stack st'))
  /\ list_envs (list_stack st').
Proof.
  intros Hok Henvs Hrun. unfold _convert_block in Hrun.
  destruct (String.eqb (tag element) (_q "w" "p"));
    [now apply (convert_paragraph_nest element)|].
  destruct (String.eqb (tag element) (_q "w" "tbl")).
  { apply bind_ok in Hrun as (lines0 & st1 & Hclose & Hrun).
    rewrite close_all_lists_run in Hclose. injection Hclose as <- <-.
    apply bind_ok in Hrun as (table_lines & st2 & Htable & Hrun).
    injection Hrun as <- <-.
    rewrite (blind_keeps _ _ _ _ (blind_convert_table _ _ _ _) Htable).
    cbn [set_stack list_stack map]. split; [|constructor].
    repeat apply nest_then_settled.
    - now apply close_all_nest.
    - exact (yields_convert_table _ _ _ _ Htable).
    - constructor; [settle | constructor]. }
  destruct (String.eqb (tag element) (_q "w" "sectPr")).
  { rewrite close_all_lists_run in Hrun. injection Hrun as <- <-.
    cbn [set_stack list_stack map]. split; [now apply close_all_nest | constructor]. }
  injection Hrun as <- <-. now split.
Qed.

Lemma body_loop_nest blocks opened acc st lines st' :
  levels_ok (list_stack st) ->
  list_envs (list_stack st) ->
  nest opened (map f acc) = Some (map env (list_stack st)) ->
  for_ (fun child latex_lines =>
          block ← _convert_block py_int path_name self child;
          mret (latex_lines ++ block))
       blocks acc st = Ok (lines, st') ->
  nest opened (map f lines) = Some (map env (list_stack st'))
  /\ list_envs (list_stack st').
Proof.
  revert acc st. induction blocks as [|child blocks IH]; intros acc st Hok Henvs Hacc.
  - intros [= <- <-]. now split.
  - cbn [for_]. intros (acc' & st1 & Hstep & Hrest)%bind_ok.
    apply bind_ok in Hstep as (block & st1' & Hblock & Hstep).
    injection Hstep as <- <-.
    destruct (convert_block_nest _ _ _ _ Hok Henvs Hblock) as [Hnest Henvs'].
    apply (IH (acc ++ block) st1'); [|exact Henvs'| |exact Hrest].
    + eapply convert_block_levels_ok; eassumption.
    + rewrite (map_app f), nest_app, Hacc. exact Hnest.
Qed.

Lemma convert_body_nest body st lines st' :
  list_stack st = [] ->
  convert_body py_int path_name self body st = Ok (lines, st') ->
  nest [] (map f lines) = Some [].
Proof.
  intros Hempty Hrun. unfold convert_body in Hrun.
  apply bind_ok in Hrun as (latex_lines & st1 & Hloop & Hrun).
  apply bind_ok in Hrun as (closing & st2 & Hclose & Hrun).
  injection Hrun as <- _.
  rewrite close_all_lists_run in Hclose. injection Hclose as <- _.
  destruct (body_loop_nest (children body) [] [] st latex_lines st1) as [Hnest Henvs];
    try exact Hloop; try (rewrite Hempty; now constructor).
  apply nest_then_settled; [|constructor; [settle | constructor]].
  rewrite (map_app f), nest_app, Hnest. cbn. now apply close_all_nest.
Qed.

End Nesting.

Section NestedBody.
Import Spec Laws.

Variable py_int : string -> option Z.
Variable path_name : string -> string.
Variable self : Converter.

(** X24.  The list environments of a converted body are well nested.
    Started with no list open, the lines of the body (the elements of the
    list that is returned), read in order, open and close [itemize] and
    [enumerate] environments like brackets: every close directive names the
    innermost environment that is open, and after the last line every
    environment that was opened is closed.  No line made from the text of
    the document, whatever the text is, is such a directive.  The same holds
    of the lines once [_clean_lines] has removed trailing white space and
    blank lines, which are the lines that [convert] joins and writes after
    the preamble. *)
Theorem convert_body_lists_nested body st lines st' :
  list_stack st = [] ->
  convert_body py_int path_name self body st = Ok (lines, st') ->
  nest [] lines = Some [] /\ nest [] (_clean_lines lines) = Some [].
Proof.
  intros Hempty Hrun. split.
  - rewrite <- (map_id lines).
    apply (convert_body_nest py_int path_name self (fun line => line))
      with (body := body) (st := st) (st' := st'); try assumption.
    + reflexivity.
    + reflexivity.
    + now intros line [Hline _].
  - rewrite nest_clean.
    apply (convert_body_nest py_int path_name self PyStr.rstrip)
      with (body := body) (st := st) (st' := st'); try assumption.
    + now intros e [-> | ->].
    + intros state Hstate. unfold end_line. now destruct Hstate as [-> | ->].
    + now intros line [_ Hline].
Qed.

End NestedBody.

Lemma convert_body_lists_nested_witness :
  let lines :=
    [ "\begin{enumerate}"; "\item first";
      "\begin{itemize}"; "\item \\begin\{itemize\}"; "\end{itemize}";
      "\end{enumerate}";
      "\textbackslash{}end\{enumerate\}"; ""; "\end{document}" ] in
  Laws.nest [] lines = Some [] /\ Laws.nest [] (_clean_lines lines) = Some [].
Proof.
  apply (convert_body_lists_nested PyInt.parse PyPath.name Sample.conv
           (Sample.body
              [ Sample.li "1" "0" [Sample.run [] "first"];
                Sample.li "2" "1"
                  [ Sample.elem (Sample.w "r") [] [Sample.elem (Sample.w "br") [] []];
                    Sample.run [] "begin{itemize}" ];
                Sample.p [Sample.run [] "\end{enumerate}"] ])
           Sample.st0 _ Sample.st0).
  - reflexivity.
  - vm_compute. reflexivity.
Defined.
